(** * pdfService: merge, watermark, cover synthesis, combine and editor compile

    A shallow embedding of the PDF service ([services/pdfService.ts]) of the
    VTU notes merge tool, together with the properties its specification
    states about it.

    JavaScript numbers that hold coordinates, sizes and opacities are IEEE
    binary64 values ([float]); page rotations and stamp angles, which are
    whole numbers of degrees, are [Z]; strings are [string]; byte buffers are
    [list byte].  The pdf-lib object model is represented by records that
    keep the pages of a document and, for every page, the drawing calls
    made on it. *)

From Stdlib Require Import ZArith List Bool Ascii String Strings.Byte Lia.
From Stdlib Require Import Floats.
From stdpp Require Import base option list strings gmap.

Set Warnings "-inexact-float".

Local Open Scope string_scope.
Local Open Scope list_scope.
Local Open Scope Z_scope.

(** ** Numbers *)

Abbreviation number := float (only parsing).

(** A whole number seen as a JavaScript number (angles, loop indices and
    colour bytes: far below 2^53 in magnitude, where the conversion is exact). *)
Definition num_of_Z (z : Z) : number :=
  if (z <? 0)%Z then PrimFloat.opp (PrimFloat.of_uint63 (Uint63.of_Z (- z)))
  else PrimFloat.of_uint63 (Uint63.of_Z z).

Definition num_of_nat (n : nat) : number := num_of_Z (Z.of_nat n).

Definition Math_PI : number := 3.141592653589793%float.

(** [Math.min] on two arguments: NaN if either is NaN, and -0 below +0. *)
Definition Math_min (a b : number) : number :=
  if PrimFloat.is_nan a || PrimFloat.is_nan b then PrimFloat.nan
  else if PrimFloat.ltb a b then a
  else if PrimFloat.ltb b a then b
  else if PrimFloat.get_sign a then a else b.

(** What pdf-lib's validators take for a number: [typeof v === 'number'
    && !isNaN (v)].  Every value of this embedding is of type number, so
    the test is on NaN alone; the infinities pass. *)
Definition is_number (v : number) : bool := negb (PrimFloat.is_nan v).

(** The same, and two narrower classes, on the specification of binary64
    values: not NaN; a zero or a finite value; a finite value other than
    zero. *)
Definition is_number_SF (x : spec_float) : bool :=
  match x with S754_nan => false | _ => true end.

Definition is_finite_SF (x : spec_float) : bool :=
  match x with S754_zero _ | S754_finite _ _ _ => true | _ => false end.

Definition is_nonzero_SF (x : spec_float) : bool :=
  match x with S754_finite _ _ _ => true | _ => false end.

(** ** Strings *)

Definition is_digit (c : ascii) : bool :=
  let n := N_of_ascii c in ((48 <=? n) && (n <=? 57))%N.

Definition is_upper (c : ascii) : bool :=
  let n := N_of_ascii c in ((65 <=? n) && (n <=? 90))%N.

(** ASCII lower-casing; the suffix tests below only involve ASCII letters. *)
Definition lower_char (c : ascii) : ascii :=
  if is_upper c then ascii_of_N (N_of_ascii c + 32) else c.

Fixpoint toLowerCase (s : string) : string :=
  match s with
  | EmptyString => EmptyString
  | String c r => String (lower_char c) (toLowerCase r)
  end.

Fixpoint string_rev_acc (s acc : string) : string :=
  match s with
  | EmptyString => acc
  | String c r => string_rev_acc r (String c acc)
  end.

Definition endsWith (s suffix : string) : bool :=
  String.prefix (string_rev_acc suffix "") (string_rev_acc s "").

(** JavaScript truthiness of a string: non-empty. *)
Definition truthy_string (s : string) : bool :=
  match s with EmptyString => false | _ => true end.

(** ** Colours *)

Record Color := rgb { red : number; green : number; blue : number }.

(** pdf-lib's [rgb] asserts that each component is a number within
    [0, 1]. *)
Definition component_ok (v : number) : bool :=
  is_number v && negb (PrimFloat.ltb v 0) && negb (PrimFloat.ltb 1 v).

Definition color_ok (c : Color) : bool :=
  component_ok (red c) && component_ok (green c) && component_ok (blue c).

Definition STRICT_WATERMARK_COLOR : Color := rgb 0.5 0.5 0.5.

(** The character class [[a-f\d]] under the [i] flag. *)
Definition is_hex_digit (c : ascii) : bool :=
  let n := N_of_ascii c in
  (is_digit c || ((97 <=? n) && (n <=? 102)) || ((65 <=? n) && (n <=? 70)))%N.

(** Value of one hexadecimal digit, as [parseInt (_, 16)] reads it. *)
Definition hex_value (c : ascii) : Z :=
  let n := Z.of_N (N_of_ascii c) in
  if is_digit c then n - 48
  else if (97 <=? n) then n - 87
  else n - 55.

(** [/^#?([a-f\d]{2})([a-f\d]{2})([a-f\d]{2})$/i.exec]: the three captured
    groups, or [None] when the string does not match. *)
Definition hex_groups (s : string) : option (string * string * string) :=
  match s with
  | String a (String b (String c (String d (String e (String f EmptyString))))) =>
      if forallb is_hex_digit [a; b; c; d; e; f]
      then Some (String a (String b ""), String c (String d ""), String e (String f ""))
      else None
  | _ => None
  end.

Definition hex_regex_exec (hex : string) : option (string * string * string) :=
  match hex with
  | String c rest =>
      (* "#?" takes a leading '#'; the six digits never start with one *)
      if Ascii.eqb c "#" then hex_groups rest else hex_groups hex
  | EmptyString => hex_groups hex
  end.

(** [parseInt (s, 16)] on a string of hexadecimal digits. *)
Definition parseInt16 (s : string) : Z :=
  fold_left (fun acc c => 16 * acc + hex_value c) (list_ascii_of_string s) 0.

Definition hexToRgb (hex : string) : Color :=
  match hex_regex_exec hex with
  | Some (r, g, b) =>
      rgb (num_of_Z (parseInt16 r) / 255)%float
          (num_of_Z (parseInt16 g) / 255)%float
          (num_of_Z (parseInt16 b) / 255)%float
  | None => STRICT_WATERMARK_COLOR
  end.


(** ** Files, configuration and editor pages ([types.ts]) *)

(** A browser [File]: its name, its declared MIME type, and the bytes that
    [arrayBuffer ()] yields. *)
Record File := mkFile {
  name : string;
  type : string;
  arrayBuffer : list byte }.

Record FileWithId := mkFileWithId {
  id : string;
  file : File }.

Record PdfMetadata := mkPdfMetadata {
  title : string;
  author : string }.

Record WatermarkConfig := mkWatermarkConfig {
  diagonal : bool;
  bottom : bool;
  top : bool;
  crossed : bool;
  textColor : string;
  textOpacity : number;
  logoFile : option File;
  logoOpacity : number;
  logoScale : number }.

Record EditorPage := mkEditorPage {
  pageId : string;
  fileId : string;
  originalPageIndex : Z;
  rotation : Z;
  thumbnailUrl : string }.

(** ** The pdf-lib object model *)

Inductive PDFFont := HelveticaBold | Helvetica.

(** An embedded image with its intrinsic dimensions. *)
Record PDFImage := mkImage {
  imageWidth : number;
  imageHeight : number }.

(** The dimensions that a decoder reads from an image header are numbers. *)
Definition image_number (img : PDFImage) : bool :=
  is_number (imageWidth img) && is_number (imageHeight img).

Definition scale (img : PDFImage) (factor : number) : number * number :=
  ((imageWidth img * factor)%float, (imageHeight img * factor)%float).

Inductive PathCmd :=
| MoveTo (x y : number)
| LineTo (x y : number)
| ClosePath.

(** The drawing calls of [PDFPage], with the options this service passes. *)
Inductive DrawCall :=
| DrawImage (image : PDFImage) (x y width height : number) (opacity : option number)
| DrawText (text : string) (x y size : number) (font : PDFFont) (color : Color)
           (opacity : option number) (rotate : option Z) (lineHeight : option number)
| DrawRectangle (x y width height : number) (color : Color) (opacity : option number)
                (borderColor : option Color) (borderWidth : option number)
| DrawCircle (x y size : number) (color : Color)
| DrawSvgPath (path : list PathCmd) (color : Color) (borderWidth : number).

(** A page: its media-box size, its [/Rotate] entry, the content it was
    parsed with, and the drawing calls made on it since. *)
Record PDFPage := mkPage {
  pageWidth : number;
  pageHeight : number;
  Rotate : Z;
  contents : string;
  calls : list DrawCall }.

(** A document: its pages and the entries of its information dictionary
    that this service or pdf-lib writes (the two dates are left out). *)
Record PDFDocument := mkDoc {
  pages : list PDFPage;
  Title : option string;
  Author : option string;
  Creator : option string;
  Producer : option string }.

(** The name that pdf-lib gives itself. *)
Definition PDF_LIB : string := "pdf-lib (https://github.com/Hopding/pdf-lib)".

(** [PDFDocument.create ()]: no page; pdf-lib enters itself as the producer
    and, no creator being set, as the creator. *)
Definition PDFDocument_create : PDFDocument :=
  mkDoc [] None None (Some PDF_LIB) (Some PDF_LIB).

Definition setTitle (t : string) (d : PDFDocument) : PDFDocument :=
  mkDoc (pages d) (Some t) (Author d) (Creator d) (Producer d).
Definition setAuthor (a : string) (d : PDFDocument) : PDFDocument :=
  mkDoc (pages d) (Title d) (Some a) (Creator d) (Producer d).
Definition setCreator (c : string) (d : PDFDocument) : PDFDocument :=
  mkDoc (pages d) (Title d) (Author d) (Some c) (Producer d).

(** [doc.addPage (page)] appends at the end. *)
Definition addPage (d : PDFDocument) (p : PDFPage) : PDFDocument :=
  mkDoc (pages d ++ [p]) (Title d) (Author d) (Creator d) (Producer d).

Definition getPageCount (d : PDFDocument) : nat := length (pages d).

Definition getPageIndices (d : PDFDocument) : list Z :=
  map Z.of_nat (seq 0 (length (pages d))).

(** [srcPages[i]] for a JavaScript number [i]. *)
Definition page_at (d : PDFDocument) (i : Z) : option PDFPage :=
  if i <? 0 then None else pages d !! Z.to_nat i.

(** ** Effects: console output, progress callbacks, parser calls, exceptions *)

Inductive Event :=
| EvProgress (percent : number)      (* onProgress (percent) *)
| EvWarn (message : string)          (* console.warn *)
| EvError (message : string)         (* console.error *)
| EvLoad (bytes : list byte).        (* a call of PDFDocument.load *)

Inductive Exn :=
| LoadFailure                        (* PDFDocument.load rejects the bytes *)
| EmbedFailure                       (* embedJpg / embedPng rejects the bytes *)
| TypeError                          (* member access on undefined; an argument
                                        that is not of the asserted type *)
| AssertionFailure                   (* an argument outside the asserted range
                                        or multiple: a plain Error of pdf-lib *)
| JsError (message : string).        (* new Error (message) *)

Inductive Outcome (A : Type) :=
| Return (a : A)
| Throw (e : Exn).
Arguments Return {A} a.
Arguments Throw {A} e.

(** A computation: the events it emitted, in order, and how it ended. *)
Definition Eff (A : Type) : Type := list Event * Outcome A.

Definition trace {A} (m : Eff A) : list Event := fst m.
Definition outcome {A} (m : Eff A) : Outcome A := snd m.

#[global] Instance eff_ret : MRet Eff := fun A a => ([], Return a).

#[global] Instance eff_bind : MBind Eff := fun A B f m =>
  match m with
  | (t1, Return a) => let '(t2, r) := f a in (t1 ++ t2, r)
  | (t1, Throw e) => (t1, Throw e)
  end.

Definition throw {A} (e : Exn) : Eff A := ([], Throw e).
Definition emit (ev : Event) : Eff unit := ([ev], Return tt).

(** [try { body } catch (e) { handler (e) }] *)
Definition try_catch {A} (body : Eff A) (handler : Exn -> Eff A) : Eff A :=
  match body with
  | (t1, Return a) => (t1, Return a)
  | (t1, Throw e) => let '(t2, r) := handler e in (t1 ++ t2, r)
  end.

Definition onProgress (percent : number) : Eff unit := emit (EvProgress percent).
Definition console_warn (message : string) : Eff unit := emit (EvWarn message).
Definition console_error (message : string) : Eff unit := emit (EvError message).

(** ** The platform: parser, serializer, image decoders, font metrics,
       trigonometry *)

Class Platform := {
  (** [PDFDocument.load]: the parsed document, or [None] when it rejects *)
  load : list byte -> option PDFDocument;
  (** the serializer behind [doc.save ()] *)
  save : PDFDocument -> list byte;
  (** [doc.embedJpg], [doc.embedPng]: [None] when the bytes do not decode *)
  embedJpg : list byte -> option PDFImage;
  embedPng : list byte -> option PDFImage;
  (** [font.widthOfTextAtSize], [font.heightAtSize] *)
  widthOfTextAtSize : PDFFont -> string -> number -> number;
  heightAtSize : PDFFont -> number -> number;
  (** [Math.cos], [Math.sin] *)
  Math_cos : number -> number;
  Math_sin : number -> number;
  (** the dimensions of a decoded image are numbers *)
  embedJpg_number :
    forall bytes image, embedJpg bytes = Some image -> image_number image = true;
  embedPng_number :
    forall bytes image, embedPng bytes = Some image -> image_number image = true;
  (** at a finite size, the width of a text is a number *)
  widthOfTextAtSize_number :
    forall font text size,
      PrimFloat.is_finite size = true ->
      is_number (widthOfTextAtSize font text size) = true }.

(** ** The calls into pdf-lib, as computations *)

(** [array.forEach ((x, i) => body)] and [for (const x of array) body],
    threading the state the body mutates. *)
Fixpoint forEach_from {A St : Type} (i : nat) (xs : list A)
    (body : A -> nat -> St -> Eff St) (s : St) : Eff St :=
  match xs with
  | [] => mret s
  | x :: rest => s' ← body x i s; forEach_from (S i) rest body s'
  end.

Definition forEach {A St : Type} (xs : list A) (body : A -> nat -> St -> Eff St)
    (s : St) : Eff St :=
  forEach_from 0 xs body s.

(** pdf-lib's [assertOrUndefined (v, name, ['number'])]: a value that is
    given must be a number, and NaN is none; the failure is a [TypeError]. *)
Definition assertNumber (v : number) : option Exn :=
  if is_number v then None else Some TypeError.

(** pdf-lib's [assertRangeOrUndefined (opacity, name, 0, 1)]: an opacity
    that is given must be a number, a [TypeError] otherwise, and lie
    within [0, 1], a plain [Error] otherwise. *)
Definition assertRange (o : option number) : option Exn :=
  match o with
  | None => None
  | Some v =>
      if negb (is_number v) then Some TypeError
      else if PrimFloat.ltb v 0 || PrimFloat.ltb 1 v then Some AssertionFailure
      else None
  end.

(** The first assertion that fails, in the order in which they are made. *)
Fixpoint first_failure (checks : list (option Exn)) : option Exn :=
  match checks with
  | [] => None
  | Some e :: _ => Some e
  | None :: rest => first_failure rest
  end.

(** The assertions that each drawing method of [PDFPage] makes on its
    numeric options, in the method's own order: [drawImage] and
    [drawRectangle] check the position and the size before the opacity,
    [drawText] the opacity before the size and the position.  The other
    assertions (the type of the text, of the colour, of the font, of the
    rotation) hold of every call that this service makes. *)
Definition call_check (c : DrawCall) : option Exn :=
  match c with
  | DrawImage _ x y width height opacity =>
      first_failure [assertNumber x; assertNumber y; assertNumber width;
                     assertNumber height; assertRange opacity]
  | DrawText _ x y size _ _ opacity _ lineHeight =>
      first_failure [assertRange opacity; assertNumber size; assertNumber x;
                     assertNumber y;
                     match lineHeight with Some h => assertNumber h | None => None end]
  | DrawRectangle x y width height _ opacity _ borderWidth =>
      first_failure [assertNumber x; assertNumber y; assertNumber width;
                     assertNumber height;
                     match borderWidth with Some w => assertNumber w | None => None end;
                     assertRange opacity]
  | DrawCircle x y size _ =>
      first_failure [assertNumber size; assertNumber x; assertNumber y]
  | DrawSvgPath _ _ borderWidth => assertNumber borderWidth
  end.

(** The opacity, and the call, pass pdf-lib's assertions. *)
Definition opacity_ok (o : option number) : bool :=
  match assertRange o with None => true | Some _ => false end.

Definition call_ok (c : DrawCall) : bool :=
  match call_check c with None => true | Some _ => false end.

Definition record_call (page : PDFPage) (c : DrawCall) : PDFPage :=
  mkPage (pageWidth page) (pageHeight page) (Rotate page) (contents page)
         (calls page ++ [c]).

(** [page.drawText], [page.drawImage], ...: the options are asserted, then
    the call is recorded on the page. *)
Definition draw (page : PDFPage) (c : DrawCall) : Eff PDFPage :=
  match call_check c with
  | None => mret (record_call page c)
  | Some e => throw e
  end.

Definition getSize (page : PDFPage) : number * number :=
  (pageWidth page, pageHeight page).

(** [page.getRotation ().angle] *)
Definition getRotation (page : PDFPage) : Z := Rotate page.

(** [page.setRotation (degrees (angle))]: pdf-lib asserts a multiple of 90
    and stores the angle as it is given. *)
Definition setRotation (page : PDFPage) (angle : Z) : Eff PDFPage :=
  if Z.rem angle 90 =? 0
  then mret (mkPage (pageWidth page) (pageHeight page) angle (contents page)
                    (calls page))
  else throw AssertionFailure.

(** [doc.addPage ([w, h])]: a fresh blank page. *)
Definition blank_page (w h : number) : PDFPage := mkPage w h 0 "" [].

Section Service.
Context {platform : Platform}.

(** [await doc.save ()] with its default options, of which [addDefaultPage]:
    a document without pages is given one blank A4 page, then serialized. *)
Definition PDFDocument_save (doc : PDFDocument) : list byte :=
  let doc := if (getPageCount doc =? 0)%nat
             then addPage doc (blank_page 595.28 841.89)
             else doc in
  save doc.

(** [await PDFDocument.load (bytes)] *)
Definition PDFDocument_load (bytes : list byte) : Eff PDFDocument :=
  _ ← emit (EvLoad bytes);
  match load bytes with
  | Some d => mret d
  | None => throw LoadFailure
  end.

(** [await dst.copyPages (srcDoc, indices)]: the pages at the given
    positions, in the order of [indices]; a position outside the source is
    [undefined] there and its member access throws. *)
Definition copyPages (srcDoc : PDFDocument) (indices : list Z) : Eff (list PDFPage) :=
  match mapM (page_at srcDoc) indices with
  | Some ps => mret ps
  | None => throw TypeError
  end.

(** [await doc.embedJpg (bytes)], [await doc.embedPng (bytes)] *)
Definition doc_embedJpg (bytes : list byte) : Eff PDFImage :=
  match embedJpg bytes with
  | Some img => mret img
  | None => throw EmbedFailure
  end.

Definition doc_embedPng (bytes : list byte) : Eff PDFImage :=
  match embedPng bytes with
  | Some img => mret img
  | None => throw EmbedFailure
  end.

(** [font.widthOfTextAtSize (text, size)], [font.heightAtSize (size)]:
    pdf-lib asserts that the size is a number, then measures. *)
Definition font_widthOfTextAtSize (font : PDFFont) (text : string) (size : number)
    : Eff number :=
  match assertNumber size with
  | None => mret (widthOfTextAtSize font text size)
  | Some e => throw e
  end.

Definition font_heightAtSize (font : PDFFont) (size : number) : Eff number :=
  match assertNumber size with
  | None => mret (heightAtSize font size)
  | Some e => throw e
  end.

(** ** Watermark engine *)

Definition DEFAULT_WATERMARK_TEXT : string := "vtunotesforall".
Definition WATERMARK_ANGLE : Z := 60.

Definition DEFAULT_MERGE_CONFIG : WatermarkConfig := {|
  diagonal := true;
  bottom := true;
  top := false;
  crossed := false;
  textColor := "#808080";
  textOpacity := 0.2;
  logoFile := None;
  logoOpacity := 0.5;
  logoScale := 0.5 |}.

Section Watermark.
Local Open Scope float_scope.

(** The inner helper [drawRotatedWatermark] of [applyWatermarkToPage], with
    the variables it closes over as parameters. *)
Definition drawRotatedWatermark (page : PDFPage) (width height : number)
    (font : PDFFont) (color : Color) (opacity : number) (angle : Z)
    : Eff PDFPage :=
  let fontSize := Math_min width height * 0.11 in
  textWidth ← font_widthOfTextAtSize font DEFAULT_WATERMARK_TEXT fontSize;
  textHeight ← font_heightAtSize font fontSize;
  let rad := (num_of_Z angle * Math_PI) / 180 in
  let cos := Math_cos rad in
  let sin := Math_sin rad in
  let pCx := width / 2 in
  let pCy := height / 2 in
  let x := pCx - (textWidth / 2 * cos - textHeight / 2 * sin) in
  let y := pCy - (textWidth / 2 * sin + textHeight / 2 * cos) in
  draw page (DrawText DEFAULT_WATERMARK_TEXT x y fontSize font color
                      (Some opacity) (Some angle) None).

Definition applyWatermarkToPage (page : PDFPage) (font : PDFFont)
    (config : WatermarkConfig) (logoImage : option PDFImage) : Eff PDFPage :=
  let '(width, height) := getSize page in
  let color := hexToRgb (textColor config) in
  let opacity := textOpacity config in
  (* 1. logo watermark *)
  page ← match logoImage with
         | Some image =>
             let '(logoW, logoH) := scale image 1 in
             let scaleFactor := (width * logoScale config) / logoW in
             let scaledWidth := logoW * scaleFactor in
             let scaledHeight := logoH * scaleFactor in
             draw page (DrawImage image
                          ((width / 2) - (scaledWidth / 2))
                          ((height / 2) - (scaledHeight / 2))
                          scaledWidth scaledHeight
                          (Some (logoOpacity config)))
         | None => mret page
         end;
  (* 2. main diagonal watermark *)
  page ← (if diagonal config
          then drawRotatedWatermark page width height font color opacity WATERMARK_ANGLE
          else mret page);
  (* 3. crossed diagonal watermark *)
  page ← (if crossed config
          then drawRotatedWatermark page width height font color opacity
                 (- WATERMARK_ANGLE)%Z
          else mret page);
  (* 4. bottom footer watermark *)
  page ← (if bottom config
          then
            let footerSize := 10 in
            footerWidth ← font_widthOfTextAtSize font DEFAULT_WATERMARK_TEXT footerSize;
            draw page (DrawText DEFAULT_WATERMARK_TEXT
                         ((width / 2) - (footerWidth / 2)) 15 footerSize font color
                         (Some (Math_min (opacity + 0.4) 1)) None None)
          else mret page);
  (* 5. top header watermark *)
  if top config
  then
    let headerSize := 10 in
    headerWidth ← font_widthOfTextAtSize font DEFAULT_WATERMARK_TEXT headerSize;
    draw page (DrawText DEFAULT_WATERMARK_TEXT
                 ((width / 2) - (headerWidth / 2)) (height - 25) headerSize font color
                 (Some (Math_min (opacity + 0.4) 1)) None None)
  else mret page.

End Watermark.

(** ** Cover page synthesizer *)

Definition newline : string := String (ascii_of_N 10) "".

Section Cover.
Local Open Scope float_scope.

(** The inner helper [drawDiamond]; the SVG path text is kept as its
    sequence of commands. *)
Definition drawDiamond (page : PDFPage) (cx cy r : number) (color : Color)
    : Eff PDFPage :=
  let path := [MoveTo cx (cy + r); LineTo (cx + r) cy; LineTo cx (cy - r);
               LineTo (cx - r) cy; ClosePath] in
  draw page (DrawSvgPath path color 0).

(** The page is created by [doc.addPage ([595.28, 841.89])] and drawn on in
    place; it is the last page of the document that is returned. *)
Definition generateDefaultCoverPage (doc : PDFDocument) (logoFile : option File)
    : Eff PDFDocument :=
  let page := blank_page 595.28 841.89 in
  let '(width, height) := getSize page in
  let fontBold := HelveticaBold in
  let fontReg := Helvetica in
  let darkBlue := rgb 0.04 0.09 0.25 in
  let brandCyan := rgb 0.0 0.7 0.8 in
  let cardBlue := rgb 0.1 0.2 0.5 in
  (* 1. split background *)
  let headerHeight := height * 0.35 in
  page ← draw page (DrawRectangle 0 (height - headerHeight) width headerHeight
                      darkBlue None None None);
  page ← draw page (DrawRectangle 0 (height - (headerHeight * 0.8)) width
                      (headerHeight * 0.8) (rgb 0.05 0.12 0.35) (Some 0.5) None None);
  let currentY := height - 80 in
  (* 2. logo *)
  '(page, currentY) ←
    match logoFile with
    | Some logoFile =>
        try_catch
          (let logoBytes := arrayBuffer logoFile in
           logoImage ← (if String.eqb (type logoFile) "image/jpeg"
                           || endsWith (name logoFile) ".jpg"
                        then doc_embedJpg logoBytes
                        else doc_embedPng logoBytes);
           let '(logoW, logoH) := scale logoImage 0.2 in
           page ← draw page (DrawImage logoImage ((width / 2) - (logoW / 2))
                               (currentY - logoH) logoW logoH None);
           mret (page, currentY - (logoH + 20)))
          (fun e =>
             _ ← console_warn "Failed to embed logo for default cover";
             mret (page, currentY - 50))
    | None => mret (page, currentY - 80)
    end;
  (* 3. title text *)
  let title := "vtunotesforall.in" in
  let titleSize := 42 in
  titleWidth ← font_widthOfTextAtSize fontBold title titleSize;
  page ← draw page (DrawText title ((width / 2) - (titleWidth / 2)) currentY
                      titleSize fontBold (rgb 1 1 1) None None None);
  (* 4. subtitle *)
  let subtitle := "EXCELLENCE IN ENGINEERING RESOURCES" in
  let subSize := 10 in
  subWidth ← font_widthOfTextAtSize fontBold subtitle subSize;
  page ← draw page (DrawText subtitle ((width / 2) - (subWidth / 2)) (currentY - 25)
                      subSize fontBold brandCyan None None None);
  (* cards section *)
  let cardY := height - headerHeight - 30 in
  let cardGap := 20 in
  let cardWidth := (width - 100 - cardGap) / 2 in
  let cardHeight := 140 in
  page ← draw page (DrawRectangle 50 (cardY - cardHeight) cardWidth cardHeight
                      (rgb 1 1 1) None (Some (rgb 0.9 0.9 0.9)) (Some 1));
  page ← draw page (DrawText "About Us" 70 (cardY - 30) 14 fontBold darkBlue
                      None None None);
  page ← draw page (DrawText
                      ("A specialized digital ecosystem for VTU" +:+ newline +:+
                       "engineers. We provide syllabus-aligned," +:+ newline +:+
                       "exam-centric resources to drive academic" +:+ newline +:+
                       "mastery and career success.")
                      70 (cardY - 55) 9 fontReg (rgb 0.4 0.4 0.4) None None (Some 12));
  page ← draw page (DrawRectangle (50 + cardWidth + cardGap) (cardY - cardHeight)
                      cardWidth cardHeight cardBlue None None None);
  page ← draw page (DrawText "Projects & Career" (50 + cardWidth + cardGap + 20)
                      (cardY - 30) 14 fontBold brandCyan None None None);
  let listStartY := cardY - 55 in
  let listLineHeight := 16 in
  let items := ["Placement Stories & Help";
                "Professional Project Inquiry";
                "Expert Career Guidance"] in
  page ← forEach items (fun item i page =>
    let itemY := listStartY - (num_of_nat i * listLineHeight) in
    page ← draw page (DrawCircle (50 + cardWidth + cardGap + 20) (itemY + 3) 2
                        (rgb 1 1 1));
    draw page (DrawText item (50 + cardWidth + cardGap + 30) itemY 9 fontReg
                 (rgb 1 1 1) None None None)) page;
  (* pill buttons section *)
  let pillStartY := cardY - cardHeight - 30 in
  let pillHeight := 30 in
  let pillGapY := 15 in
  let pills := [("SGPA Calculator", "Previous Year Papers");
                ("Model Question Papers", "Detailed QP Solutions");
                ("Placement Stories", "Semester Blueprints")] in
  page ← forEach pills (fun row rowIndex page =>
    let y := pillStartY - (num_of_nat rowIndex * (pillHeight + pillGapY)) in
    let midY := y - (pillHeight / 2) in
    (* left pill *)
    page ← draw page (DrawRectangle 50 (y - pillHeight) cardWidth pillHeight
                        (rgb 0.96 0.98 1) None None None);
    page ← drawDiamond page 62 (midY + 15) 3 (rgb 0.1 0.1 0.2);
    page ← drawDiamond page 62 (y - 17) 3 (rgb 0.1 0.1 0.2);
    page ← draw page (DrawText (fst row) 72 (y - 20) 9 fontBold (rgb 0.1 0.1 0.2)
                        None None None);
    (* right pill *)
    let rightPillX := 50 + cardWidth + cardGap in
    page ← draw page (DrawRectangle rightPillX (y - pillHeight) cardWidth pillHeight
                        (rgb 0.96 0.98 1) None None None);
    page ← drawDiamond page (rightPillX + 12) (y - 17) 3 (rgb 0.1 0.1 0.2);
    draw page (DrawText (snd row) (rightPillX + 22) (y - 20) 9 fontBold
                 (rgb 0.1 0.1 0.2) None None None)) page;
  (* community hub section *)
  let hubY := pillStartY - (3 * (pillHeight + pillGapY)) - 20 in
  let hubHeight := 150 in
  page ← draw page (DrawRectangle 50 (hubY - hubHeight) (width - 100) hubHeight
                      (rgb 0.95 0.96 0.98) None None None);
  page ← draw page (DrawText "Community Hub" 70 (hubY - 30) 14 fontBold
                      (rgb 0.1 0.1 0.1) None None None);
  page ← draw page (DrawText "Join thousands of VTU students in our digital circles."
                      70 (hubY - 45) 9 fontReg (rgb 0.5 0.5 0.5) None None None);
  let iconY := hubY - 90 in
  let iconSize := 30 in
  (* icon 1 *)
  page ← draw page (DrawRectangle 100 iconY iconSize iconSize (rgb 0 0.6 0.5)
                      None None None);
  page ← draw page (DrawText "W" 108 (iconY + 8) 14 fontBold (rgb 1 1 1) None None None);
  page ← draw page (DrawText "Updates" 95 (iconY - 15) 9 fontBold (rgb 0 0 0)
                      None None None);
  (* icon 2 (center) *)
  let centerX := width / 2 in
  page ← draw page (DrawRectangle (centerX - 15) iconY iconSize iconSize
                      (rgb 0 0.6 0.5) None None None);
  page ← draw page (DrawText "W" (centerX - 7) (iconY + 8) 14 fontBold (rgb 1 1 1)
                      None None None);
  page ← draw page (DrawText "Forum" (centerX - 15) (iconY - 15) 9 fontBold (rgb 0 0 0)
                      None None None);
  (* icon 3 *)
  page ← draw page (DrawRectangle (width - 130) iconY (iconSize + 10) iconSize
                      (rgb 0.9 0.1 0.1) None None None);
  page ← draw page (DrawText "nammaVTUbros" (width - 155) (iconY - 15) 9 fontBold
                      (rgb 0 0 0) None None None);
  (* footer *)
  let footerText := "vtunotesforall.in   |   EMPOWERING ENGINEERS EVERY SEMESTER" in
  fWidth ← font_widthOfTextAtSize fontBold footerText 8;
  page ← draw page (DrawRectangle 0 0 width 60 darkBlue None None None);
  page ← draw page (DrawText footerText ((width / 2) - (fWidth / 2)) 25 8 fontBold
                      (rgb 1 1 1) None None None);
  mret (addPage doc page).

End Cover.

(** ** Merge pipeline *)

(** The "Set Metadata" block shared by both entry points. *)
Definition set_metadata (doc : PDFDocument) (metadata : option PdfMetadata)
    : PDFDocument :=
  match metadata with
  | Some metadata =>
      let doc := if truthy_string (title metadata)
                 then setTitle (title metadata) doc else doc in
      let doc := if truthy_string (author metadata)
                 then setAuthor (author metadata) doc else doc in
      setCreator "VTU Notes Merging System" doc
  | None => doc
  end.

(** [pages.forEach ((page) => doc.addPage (page))] *)
Definition add_pages (doc : PDFDocument) (copied : list PDFPage) : Eff PDFDocument :=
  forEach copied (fun page _ doc => mret (addPage doc page)) doc.

(** [pages.forEach ((page) => { const addedPage = doc.addPage (page);
    applyWatermarkToPage (addedPage, font, config, logo); })]: the page
    that ends up in the document is the stamped one; when the engine throws,
    the document is lost with the exception. *)
Definition add_watermarked_pages (doc : PDFDocument) (copied : list PDFPage)
    (font : PDFFont) (config : WatermarkConfig) (logo : option PDFImage)
    : Eff PDFDocument :=
  forEach copied (fun page _ doc =>
    addedPage ← applyWatermarkToPage page font config logo;
    mret (addPage doc addedPage)) doc.

(** The body of the [for] loop over the content files of
    [mergeAndWatermarkPdfs]. *)
Definition merge_content_file (totalFiles : nat) (helveticaFont : PDFFont)
    (contentFile : File) (i : nat) (mergedPdf : PDFDocument) : Eff PDFDocument :=
  let fileBytes := arrayBuffer contentFile in
  contentDoc ← PDFDocument_load fileBytes;
  copiedContentPages ← copyPages contentDoc (getPageIndices contentDoc);
  mergedPdf ← add_watermarked_pages mergedPdf copiedContentPages helveticaFont
                DEFAULT_MERGE_CONFIG None;
  let progressChunk := (80 / num_of_nat totalFiles)%float in
  _ ← onProgress (15 + ((num_of_nat i + 1) * progressChunk))%float;
  mret mergedPdf.

(** The body of the [try] block of [mergeAndWatermarkPdfs] up to the
    document that is saved. *)
Definition merge_document (coverFile : option File) (contentFiles : list File)
    (metadata : option PdfMetadata) (defaultCoverLogo : option File)
    (useDefaultCover : bool) : Eff PDFDocument :=
  let mergedPdf := PDFDocument_create in
  let mergedPdf := set_metadata mergedPdf metadata in
  let helveticaFont := HelveticaBold in
  (* step 1: cover page logic *)
  mergedPdf ←
    match coverFile with
    | Some coverFile =>
        _ ← onProgress 5;
        let coverBytes := arrayBuffer coverFile in
        coverDoc ← PDFDocument_load coverBytes;
        let indices := getPageIndices coverDoc in
        copiedCoverPages ← copyPages coverDoc indices;
        add_pages mergedPdf copiedCoverPages
    | None =>
        if useDefaultCover
        then (_ ← onProgress 5;
              generateDefaultCoverPage mergedPdf defaultCoverLogo)
        else mret mergedPdf
    end;
  _ ← onProgress 15;
  (* step 2: content PDFs *)
  let totalFiles := length contentFiles in
  forEach contentFiles (merge_content_file totalFiles helveticaFont) mergedPdf.

Definition mergeAndWatermarkPdfs (coverFile : option File) (contentFiles : list File)
    (metadata : option PdfMetadata) (defaultCoverLogo : option File)
    (useDefaultCover : bool) : Eff (list byte) :=
  try_catch
    (mergedPdf ← merge_document coverFile contentFiles metadata defaultCoverLogo
                   useDefaultCover;
     _ ← onProgress 95;
     let pdfBytes := PDFDocument_save mergedPdf in
     _ ← onProgress 100;
     mret pdfBytes)
    (fun error =>
       _ ← console_error "Merge error";
       throw (JsError "Failed to process PDFs. Ensure files are valid.")).

(** The document that [processBatchFile] saves. *)
Definition batch_document (contentFile : File) (coverFile : option File)
    (config : WatermarkConfig) (metadata : option PdfMetadata) : Eff PDFDocument :=
  let finalPdf := PDFDocument_create in
  let finalPdf := set_metadata finalPdf metadata in
  let helveticaFont := HelveticaBold in
  (* embed logo if exists *)
  embeddedLogo ←
    match logoFile config with
    | Some logoFile =>
        try_catch
          (let logoBytes := arrayBuffer logoFile in
           image ← (if String.eqb (type logoFile) "image/jpeg"
                       || endsWith (toLowerCase (name logoFile)) ".jpg"
                       || endsWith (toLowerCase (name logoFile)) ".jpeg"
                    then doc_embedJpg logoBytes
                    else doc_embedPng logoBytes);
           mret (Some image))
          (fun e => _ ← console_warn "Failed to embed logo"; mret None)
    | None => mret None
    end;
  (* 1. add cover (no watermark) *)
  finalPdf ←
    match coverFile with
    | Some coverFile =>
        let coverBytes := arrayBuffer coverFile in
        coverDoc ← PDFDocument_load coverBytes;
        copiedCoverPages ← copyPages coverDoc (getPageIndices coverDoc);
        add_pages finalPdf copiedCoverPages
    | None => mret finalPdf
    end;
  (* 2. add content (with watermark) *)
  let contentBytes := arrayBuffer contentFile in
  contentDoc ← PDFDocument_load contentBytes;
  copiedContentPages ← copyPages contentDoc (getPageIndices contentDoc);
  add_watermarked_pages finalPdf copiedContentPages helveticaFont config embeddedLogo.

Definition processBatchFile (contentFile : File) (coverFile : option File)
    (config : WatermarkConfig) (metadata : option PdfMetadata) : Eff (list byte) :=
  finalPdf ← batch_document contentFile coverFile config metadata;
  mret (PDFDocument_save finalPdf).

(** ** Post-merge combiner *)

(** The body of the [for ... of] loop of [mergeProcessedFiles]. *)
Definition combine_buffer (bytes : list byte) (_ : nat) (mergedPdf : PDFDocument)
    : Eff PDFDocument :=
  doc ← PDFDocument_load bytes;
  copiedPages ← copyPages doc (getPageIndices doc);
  add_pages mergedPdf copiedPages.

(** The document that [mergeProcessedFiles] saves. *)
Definition combined_document (processedFiles : list (list byte)) : Eff PDFDocument :=
  let mergedPdf := PDFDocument_create in
  let mergedPdf := setCreator "VTU Notes Merging System" mergedPdf in
  forEach processedFiles combine_buffer mergedPdf.

Definition mergeProcessedFiles (processedFiles : list (list byte)) : Eff (list byte) :=
  mergedPdf ← combined_document processedFiles;
  mret (PDFDocument_save mergedPdf).

(** ** Editor pipeline *)

(** The properties every plain object inherits from [Object.prototype];
    reading one of them from [loadedDocs] yields a truthy value that is not
    a document. *)
Definition Object_prototype_keys : list string :=
  ["constructor"; "__defineGetter__"; "__defineSetter__"; "hasOwnProperty";
   "__lookupGetter__"; "__lookupSetter__"; "isPrototypeOf";
   "propertyIsEnumerable"; "toString"; "valueOf"; "__proto__";
   "toLocaleString"].

Inductive Lookup :=
| Cached (doc : PDFDocument)
| Inherited
| Undefined.

(** [loadedDocs[key]] on the plain object [loadedDocs]. *)
Definition lookup_record (loadedDocs : gmap string PDFDocument) (key : string)
    : Lookup :=
  match loadedDocs !! key with
  | Some doc => Cached doc
  | None => if bool_decide (key ∈ Object_prototype_keys) then Inherited else Undefined
  end.

(** The tail of the loop body of [buildPdfFromEditor], once [srcDoc] is known. *)
Definition copy_editor_page (newPdf : PDFDocument) (srcDoc : PDFDocument)
    (page : EditorPage) : Eff PDFDocument :=
  copied ← copyPages srcDoc [originalPageIndex page];
  match copied with
  | copiedPage :: _ =>
      (* apply rotation *)
      let currentRotation := getRotation copiedPage in
      copiedPage ← setRotation copiedPage (currentRotation + rotation page);
      mret (addPage newPdf copiedPage)
  | [] => throw TypeError
  end.

(** The body of the [for ... of] loop of [buildPdfFromEditor], on the
    output document and the [loadedDocs] cache. *)
Definition editor_step (sourceFiles : list FileWithId) (page : EditorPage)
    (_ : nat) (state : PDFDocument * gmap string PDFDocument)
    : Eff (PDFDocument * gmap string PDFDocument) :=
  let '(newPdf, loadedDocs) := state in
  match lookup_record loadedDocs (fileId page) with
  | Cached srcDoc =>
      newPdf ← copy_editor_page newPdf srcDoc page;
      mret (newPdf, loadedDocs)
  | Inherited => throw TypeError
  | Undefined =>
      match List.find (fun f => String.eqb (id f) (fileId page)) sourceFiles with
      | None => mret (newPdf, loadedDocs)          (* continue *)
      | Some sourceFile =>
          let bytes := arrayBuffer (file sourceFile) in
          srcDoc ← PDFDocument_load bytes;
          let loadedDocs := <[fileId page := srcDoc]> loadedDocs in
          newPdf ← copy_editor_page newPdf srcDoc page;
          mret (newPdf, loadedDocs)
      end
  end.

(** The document that [buildPdfFromEditor] saves, together with the final
    [loadedDocs] cache. *)
Definition editor_document (editorPages : list EditorPage)
    (sourceFiles : list FileWithId)
    : Eff (PDFDocument * gmap string PDFDocument) :=
  let newPdf := PDFDocument_create in
  let loadedDocs : gmap string PDFDocument := ∅ in
  forEach editorPages (editor_step sourceFiles) (newPdf, loadedDocs).

Definition buildPdfFromEditor (editorPages : list EditorPage)
    (sourceFiles : list FileWithId) : Eff (list byte) :=
  '(newPdf, _) ← editor_document editorPages sourceFiles;
  mret (PDFDocument_save newPdf).

End Service.

(** ** Thumbnails ([generatePdfThumbnails])

    pdf.js and the canvas are the viewer: [getDocument] gives the page
    count of a buffer, or rejects it; getting page [i] (from 1) and
    rendering it onto a fresh canvas finds no 2d context, is rejected, or
    leaves a data URL. *)

Inductive Rendering :=
| NoContext
| RenderRejected
| Rendered (dataUrl : string).

Class Viewer := {
  getDocument : list byte -> option nat;
  renderPage : list byte -> nat -> Rendering }.

(** How a thumbnail run ends: with the editor pages, or with the rejection
    of the document or of a rendering. *)
Inductive Thumbnails :=
| Pages (pages : list EditorPage)
| DocumentRejected
| RenderingRejected.

Record ThumbnailRun := mkRun {
  progressCalls : list (nat * nat);      (* the calls onProgress (i, totalPages) *)
  thumbnails : Thumbnails }.

Section Thumbnail.
Context {viewer : Viewer}.

(** The [for] loop of [generatePdfThumbnails] over the page numbers still
    to do.  [ids k] is the string that the [k]-th evaluation of
    [Math.random ().toString (36).substring (2, 9)] of the run yields;
    [report] tells whether an [onProgress] callback was passed. *)
Fixpoint thumbnail_loop (fileItem : FileWithId) (ids : nat -> string)
    (report : bool) (totalPages : nat) (numbers : list nat)
    (pages : list EditorPage) (reported : list (nat * nat)) : ThumbnailRun :=
  match numbers with
  | [] => mkRun reported (Pages pages)
  | i :: rest =>
      let reported' := if report then reported ++ [(i, totalPages)] else reported in
      match renderPage (arrayBuffer (file fileItem)) i with
      | NoContext =>
          thumbnail_loop fileItem ids report totalPages rest pages reported'
      | RenderRejected => mkRun reported RenderingRejected
      | Rendered dataUrl =>
          thumbnail_loop fileItem ids report totalPages rest
            (pages ++ [mkEditorPage (ids (length pages)) (id fileItem)
                         (Z.of_nat i - 1) 0 dataUrl])
            reported'
      end
  end.

Definition generatePdfThumbnails (fileItem : FileWithId) (ids : nat -> string)
    (report : bool) : ThumbnailRun :=
  let fileArrayBuffer := arrayBuffer (file fileItem) in
  match getDocument fileArrayBuffer with
  | None => mkRun [] DocumentRejected
  | Some totalPages =>
      thumbnail_loop fileItem ids report totalPages (seq 1 totalPages) [] []
  end.

End Thumbnail.

(** ** The page editor ([App.tsx]): the state updaters of its buttons *)

(** [{...p, rotation: (p.rotation + 90) % 360}] *)
Definition rotate_quarter (p : EditorPage) : EditorPage :=
  mkEditorPage (pageId p) (fileId p) (originalPageIndex p)
               (Z.rem (rotation p + 90) 360) (thumbnailUrl p).

(** "Rotate All": [prev.map (p => ({...p, rotation: (p.rotation+90)%360}))] *)
Definition rotate_all_pages (prev : list EditorPage) : list EditorPage :=
  map rotate_quarter prev.

(** The rotate button of a page:
    [prev.map (p => p.id === page.id ? {...p, rotation: ...} : p)] *)
Definition rotate_page (pid : string) (prev : list EditorPage) : list EditorPage :=
  map (fun p => if String.eqb (pageId p) pid then rotate_quarter p else p) prev.

(** The delete button of a page: [prev.filter (p => p.id !== page.id)] *)
Definition remove_page (pid : string) (prev : list EditorPage) : list EditorPage :=
  List.filter (fun p => negb (String.eqb (pageId p) pid)) prev.

(** The buttons of the editor grid. *)
Inductive EditorAction :=
| RotateAll
| RotatePage (pid : string)
| RemovePage (pid : string)
| Clear.

Definition editor_action (prev : list EditorPage) (a : EditorAction)
    : list EditorPage :=
  match a with
  | RotateAll => rotate_all_pages prev
  | RotatePage pid => rotate_page pid prev
  | RemovePage pid => remove_page pid prev
  | Clear => []
  end.

(** ** Download names ([App.tsx]) *)

(** A character against a lower-case letter of a pattern with the [i]
    flag. *)
Definition matches_letter_i (c letter : ascii) : bool :=
  Ascii.eqb (lower_char c) letter.

(** The whole of [s] matches [\.pdf] with the [i] flag. *)
Definition is_dot_pdf (s : string) : bool :=
  match s with
  | String c0 (String c1 (String c2 (String c3 EmptyString))) =>
      Ascii.eqb c0 "." && matches_letter_i c1 "p" && matches_letter_i c2 "d"
      && matches_letter_i c3 "f"
  | _ => false
  end.

(** [s.replace (/\.pdf$/i, '')]: the pattern can only match the last four
    characters. *)
Fixpoint replace_pdf_extension (s : string) : string :=
  match s with
  | EmptyString => EmptyString
  | String c r => if is_dot_pdf s then EmptyString
                  else String c (replace_pdf_extension r)
  end.

Section DownloadNames.
Variable trim : string -> string.            (* String.prototype.trim *)

(** [getOutputFilename] of the batch screen; [filenameSuffix] is the
    component's state. *)
Definition getOutputFilename (filenameSuffix originalName : string) : string :=
  let namePart := replace_pdf_extension originalName in
  let cleanSuffix := trim filenameSuffix in
  if negb (truthy_string cleanSuffix) then namePart +:+ ".pdf"
  else if endsWith namePart ("_" +:+ cleanSuffix) || endsWith namePart cleanSuffix
       then namePart +:+ ".pdf"
       else namePart +:+ "_" +:+ cleanSuffix +:+ ".pdf".

End DownloadNames.

(** ** Reordering the content files ([App.tsx]) *)

Inductive Direction := up | down.

Section MoveFile.
Context {A : Type}.
Variable undefined : A.                      (* what a missing element reads as *)

(** [arr[i] = v]: an assignment past the end extends the array, and the
    holes read as [undefined]. *)
Definition array_set (arr : list A) (i : nat) (v : A) : list A :=
  if (i <? length arr)%nat then <[i:=v]> arr
  else arr ++ replicate (i - length arr) undefined ++ [v].

(** [arr[i]] *)
Definition array_get (arr : list A) (i : nat) : A := default undefined (arr !! i).

(** [moveFile (index, direction)]: the content files afterwards. *)
Definition moveFile (contentFiles : list A) (index : nat) (direction : Direction)
    : list A :=
  let newFiles := contentFiles in
  let targetIndex : Z :=
    match direction with
    | up => Z.of_nat index - 1
    | down => Z.of_nat index + 1
    end in
  if (0 <=? targetIndex) && (targetIndex <? Z.of_nat (length newFiles)) then
    let target := Z.to_nat targetIndex in
    let swapped := (array_get newFiles target, array_get newFiles index) in
    array_set (array_set newFiles index (fst swapped)) target (snd swapped)
  else contentFiles.

End MoveFile.

(** ** A stand-in platform and sample inputs

    Used to evaluate the service on concrete inputs.  A buffer parses when
    it starts with [%PDF]; every further byte stands for one page, whose
    [/Rotate] is the byte's value modulo 4, in quarter turns.  An image
    decodes when it starts with the signature of its format. *)

Definition sample_page (b : byte) : PDFPage :=
  mkPage 595.28 841.89 (90 * (Z.of_N (Byte.to_N b) mod 4))
         (String (ascii_of_byte b) "") [].

Definition sample_load (bytes : list byte) : option PDFDocument :=
  match bytes with
  | x25 :: x50 :: x44 :: x46 :: rest =>
      Some (mkDoc (map sample_page rest) None None None None)
  | _ => None
  end.

Definition sample_page_byte (p : PDFPage) : byte :=
  match contents p with
  | String c _ => byte_of_ascii c
  | EmptyString => x30
  end.

Definition sample_save (d : PDFDocument) : list byte :=
  [x25; x50; x44; x46] ++ map sample_page_byte (pages d).

(** The image that the stand-in decoders read: 200 by 100, or 0 by 100
    when the byte after the signature is zero. *)
Definition sample_image (rest : list byte) : PDFImage :=
  match rest with
  | x00 :: _ => mkImage 0 100
  | _ => mkImage 200 100
  end.

Definition sample_embedPng (bytes : list byte) : option PDFImage :=
  match bytes with
  | x89 :: x50 :: x4e :: x47 :: rest => Some (sample_image rest)
  | _ => None
  end.

Definition sample_embedJpg (bytes : list byte) : option PDFImage :=
  match bytes with
  | xff :: xd8 :: rest => Some (sample_image rest)
  | _ => None
  end.

(** Six tenths of the size for every character; a product that is not a
    number reads as 0. *)
Definition sample_widthOfTextAtSize (text : string) (size : number) : number :=
  let w := (num_of_nat (String.length text) * size * 0.6)%float in
  if is_number w then w else 0%float.

Definition sample_platform : Platform := {|
  load := sample_load;
  save := sample_save;
  embedJpg := sample_embedJpg;
  embedPng := sample_embedPng;
  widthOfTextAtSize := fun _ text size => sample_widthOfTextAtSize text size;
  heightAtSize := fun _ size => (size * 1.2)%float;
  Math_cos := fun x => (1 - x * x / 2 + x * x * x * x / 24)%float;
  Math_sin := fun x => (x - x * x * x / 6 + x * x * x * x * x / 120)%float;
  embedJpg_number := ltac:(
    intros bytes image; unfold sample_embedJpg;
    do 2 (let b := fresh in
            destruct bytes as [|b bytes]; [try discriminate|];
            destruct b; try discriminate);
    intros [= <-]; unfold sample_image; repeat case_match; reflexivity);
  embedPng_number := ltac:(
    intros bytes image; unfold sample_embedPng;
    do 4 (let b := fresh in
            destruct bytes as [|b bytes]; [try discriminate|];
            destruct b; try discriminate);
    intros [= <-]; unfold sample_image; repeat case_match; reflexivity);
  widthOfTextAtSize_number := ltac:(
    intros font text size _; unfold sample_widthOfTextAtSize;
    destruct (is_number (num_of_nat (String.length text) * size * 0.6)%float) eqn:E;
    [exact E | reflexivity]) |}.

(** A PDF buffer with one page per character of [labels]. *)
Definition pdf_bytes (labels : string) : list byte :=
  list_byte_of_string ("%PDF" +:+ labels).

Definition pdf_file (file_name labels : string) : File :=
  mkFile file_name "application/pdf" (pdf_bytes labels).

(** What [sample_load] makes of [pdf_bytes labels]. *)
Definition sample_doc (labels : string) : PDFDocument :=
  mkDoc (map sample_page (list_byte_of_string labels)) None None None None.

(** A two-page cover and two content files, of three pages and of one. *)
Definition cover_2 : File := pdf_file "cover.pdf" "AB".
Definition content_3 : File := pdf_file "unit1.pdf" "abc".
Definition content_1 : File := pdf_file "unit2.pdf" "d".

(** A configuration with every stamp enabled and a colour that is no
    hexadecimal triple. *)
Definition all_stamps_config (logo : option File) : WatermarkConfig := {|
  diagonal := true;
  bottom := true;
  top := true;
  crossed := true;
  textColor := "red";
  textOpacity := 0.3;
  logoFile := logo;
  logoOpacity := 0.5;
  logoScale := 0.5 |}.

(** Editor inputs: one source file of four pages, whose third page is
    stored with a rotation of 270. *)
Definition editor_source : FileWithId := mkFileWithId "f1" (pdf_file "notes.pdf" "abcd").

Definition page_of_f1 (index : Z) (delta : Z) : EditorPage :=
  mkEditorPage "p" "f1" index delta "".

Definition page_of_ghost : EditorPage := mkEditorPage "q" "ghost" 0 0 "".

Definition gif_logo : File :=
  mkFile "logo.gif" "image/gif" (list_byte_of_string "GIF89a").

Definition png_logo : File :=
  mkFile "logo.png" "image/png" [x89; x50; x4e; x47; x0d; x0a; x1a; x0a].

(** A JPEG logo whose name alone, in upper case, tells its format. *)
Definition jpeg_logo : File :=
  mkFile "LOGO.JPEG" "" [xff; xd8; xff; xe0].

(** A file that is no PDF. *)
Definition broken_file : File :=
  mkFile "broken.pdf" "application/pdf" (list_byte_of_string "oops").

(** A configuration with the four text stamps all on or all off, and the
    given text opacity. *)
Definition stamps_config (stamps : bool) (opacity : number) : WatermarkConfig := {|
  diagonal := stamps;
  bottom := stamps;
  top := stamps;
  crossed := stamps;
  textColor := "#808080";
  textOpacity := opacity;
  logoFile := None;
  logoOpacity := 0.5;
  logoScale := 0.5 |}.

(** The colour name [red], every stamp, and a text opacity above 1. *)
Definition overdone_config : WatermarkConfig := {|
  diagonal := true;
  bottom := true;
  top := true;
  crossed := true;
  textColor := "red";
  textOpacity := 1.5;
  logoFile := None;
  logoOpacity := 0.5;
  logoScale := 0.5 |}.

(** A PDF file without any page. *)
Definition empty_file : File := pdf_file "empty.pdf" "".

(** A JPEG logo that decodes to an image of width 0. *)
Definition flat_logo : File :=
  mkFile "LOGO.JPEG" "" [xff; xd8; x00].

(** A stand-in for pdf.js and the canvas: the pages are those that
    [sample_load] reads; a page labelled [?] gets no 2d context, and the
    rendering of a page labelled [!] is rejected. *)
Definition sample_renderPage (bytes : list byte) (i : nat) : Rendering :=
  match bytes !! (3 + i)%nat with
  | Some x3f => NoContext
  | Some x21 => RenderRejected
  | Some b => Rendered ("data:image/png," +:+ String (ascii_of_byte b) "")
  | None => RenderRejected
  end.

Definition sample_viewer : Viewer := {|
  getDocument := fun bytes => option_map getPageCount (sample_load bytes);
  renderPage := sample_renderPage |}.

(** The data URL of page [i] under [sample_viewer]. *)
Definition sample_url (bytes : list byte) (i : nat) : string :=
  match sample_renderPage bytes i with
  | Rendered dataUrl => dataUrl
  | _ => ""
  end.

(** Page ids [a], [b], ... in the order in which they are drawn. *)
Definition sample_ids (k : nat) : string := String (ascii_of_nat (97 + k)) "".

(** A scan of three pages, the second of which gets no canvas context. *)
Definition scan_source : FileWithId := mkFileWithId "f2" (pdf_file "scan.pdf" "a?c").

(** ** Reference definitions

    The formulas of the specification, and the notions the properties below
    are stated with. *)

Section Reference.
Context {platform : Platform}.
Local Open Scope float_scope.

(** A rotated stamp: font size [0.11 × min (pageWidth, pageHeight)], drawn
    at [x = cx − (w/2·cosθ − h/2·sinθ)], [y = cy − (w/2·sinθ + h/2·cosθ)],
    with [(cx, cy)] the page centre, [(w, h)] the un-rotated bounding box of
    the text at that size and [θ] the stamp angle in radians. *)
Definition spec_rotated_stamp (pageWidth pageHeight : number) (font : PDFFont)
    (color : Color) (opacity : number) (angle : Z) : DrawCall :=
  let size := 0.11 * Math_min pageWidth pageHeight in
  let w := widthOfTextAtSize font DEFAULT_WATERMARK_TEXT size in
  let h := heightAtSize font size in
  let theta := num_of_Z angle * Math_PI / 180 in
  let cx := pageWidth / 2 in
  let cy := pageHeight / 2 in
  DrawText DEFAULT_WATERMARK_TEXT
           (cx - (w / 2 * Math_cos theta - h / 2 * Math_sin theta))
           (cy - (w / 2 * Math_sin theta + h / 2 * Math_cos theta))
           size font color (Some opacity) (Some angle) None.

(** A footer or header stamp: horizontally centred, at height [y], 10pt,
    opacity boosted to [min (textOpacity + 0.4, 1)]. *)
Definition spec_edge_stamp (pageWidth y : number) (font : PDFFont) (color : Color)
    (opacity : number) : DrawCall :=
  let w := widthOfTextAtSize font DEFAULT_WATERMARK_TEXT 10 in
  DrawText DEFAULT_WATERMARK_TEXT (pageWidth / 2 - w / 2) y 10 font color
           (Some (Math_min (opacity + 0.4) 1)) None None.

(** The centred logo: scaled to [pageWidth × logoScale] wide, keeping its
    aspect ratio, drawn with [logoOpacity]. *)
Definition spec_logo_call (pageWidth pageHeight : number) (config : WatermarkConfig)
    (image : PDFImage) : DrawCall :=
  let '(intrinsicWidth, intrinsicHeight) := scale image 1 in
  let scaleFactor := (pageWidth * logoScale config) / intrinsicWidth in
  let scaledWidth := intrinsicWidth * scaleFactor in
  let scaledHeight := intrinsicHeight * scaleFactor in
  DrawImage image (pageWidth / 2 - scaledWidth / 2) (pageHeight / 2 - scaledHeight / 2)
            scaledWidth scaledHeight (Some (logoOpacity config)).

(** The calls of the watermark engine on one page: the logo first, then
    the diagonal stamp (+60 degrees), the crossed stamp (−60 degrees), the
    bottom stamp (15pt from the bottom edge) and the top stamp (25pt from
    the top edge), each when enabled. *)
Definition spec_watermark_calls (page : PDFPage) (font : PDFFont)
    (config : WatermarkConfig) (logo : option PDFImage) : list DrawCall :=
  let W := pageWidth page in
  let H := pageHeight page in
  let color := hexToRgb (textColor config) in
  let opacity := textOpacity config in
  match logo with Some image => [spec_logo_call W H config image] | None => [] end
  ++ (if diagonal config then [spec_rotated_stamp W H font color opacity 60] else [])
  ++ (if crossed config then [spec_rotated_stamp W H font color opacity (-60)] else [])
  ++ (if bottom config then [spec_edge_stamp W 15 font color opacity] else [])
  ++ (if top config then [spec_edge_stamp W (H - 25) font color opacity] else []).

(** What is asserted when the engine makes a call: for a text call, whose
    text the engine measures first at the size of the call, that this size
    is a number; then pdf-lib's assertions on the options of the call. *)
Definition engine_check (c : DrawCall) : option Exn :=
  match c with
  | DrawText _ _ _ size _ _ _ _ _ => first_failure [assertNumber size; call_check c]
  | _ => call_check c
  end.

(** One call of the engine: recorded on the page when the assertions hold,
    and the failure of the first one that does not otherwise. *)
Definition engine_draw (page : PDFPage) (c : DrawCall) : Eff PDFPage :=
  match engine_check c with
  | None => mret (record_call page c)
  | Some e => throw e
  end.

(** The calls [cs] made by the engine on a page one after the other: the
    first one that is rejected throws, and the calls after it are never
    made. *)
Fixpoint draw_all (page : PDFPage) (cs : list DrawCall) : Eff PDFPage :=
  match cs with
  | [] => mret page
  | c :: rest => page ← engine_draw page c; draw_all page rest
  end.

(** pdf-lib accepts every call of [cs]. *)
Definition accepted (cs : list DrawCall) : bool := forallb call_ok cs.



(** The configuration [config] with no logo file. *)
Definition without_logo (config : WatermarkConfig) : WatermarkConfig := {|
  diagonal := diagonal config;
  bottom := bottom config;
  top := top config;
  crossed := crossed config;
  textColor := textColor config;
  textOpacity := textOpacity config;
  logoFile := None;
  logoOpacity := logoOpacity config;
  logoScale := logoScale config |}.

(** Neither image decoder accepts the bytes of [f]. *)
Definition undecodable (f : File) : Prop :=
  embedJpg (arrayBuffer f) = None /\ embedPng (arrayBuffer f) = None.

(** The stamps of the strict configuration on one page: diagonal and bottom. *)
Definition strict_stamps (page : PDFPage) : list DrawCall :=
  let color := hexToRgb (textColor DEFAULT_MERGE_CONFIG) in
  let opacity := textOpacity DEFAULT_MERGE_CONFIG in
  [spec_rotated_stamp (pageWidth page) (pageHeight page) HelveticaBold color opacity 60;
   spec_edge_stamp (pageWidth page) 15 HelveticaBold color opacity].

Definition record_calls (page : PDFPage) (cs : list DrawCall) : PDFPage :=
  mkPage (pageWidth page) (pageHeight page) (Rotate page) (contents page)
         (calls page ++ cs).

Definition strict_stamped (page : PDFPage) : PDFPage :=
  record_calls page (strict_stamps page).

(** pdf-lib accepts the strict stamps on every page of every document of
    [docs]: their sizes and positions, computed from the page sizes and the
    font metrics, are numbers. *)
Definition strict_accepted (docs : list PDFDocument) : bool :=
  forallb (fun d => forallb (fun p => accepted (strict_stamps p)) (pages d)) docs.

(** The pages that [save] serializes for a document with the pages [ps]:
    these, or one blank A4 page when there is none. *)
Definition saved_pages (ps : list PDFPage) : list PDFPage :=
  match ps with
  | [] => [blank_page 595.28 841.89]
  | _ => ps
  end.

(** The document that [save] serializes for [doc]: [doc] itself, with the
    blank page when it has no page. *)
Definition saved_document (doc : PDFDocument) : PDFDocument :=
  mkDoc (saved_pages (pages doc)) (Title doc) (Author doc) (Creator doc)
        (Producer doc).

(** The error that [mergeAndWatermarkPdfs] throws from its catch block. *)
Definition MERGE_ERROR : Exn :=
  JsError "Failed to process PDFs. Ensure files are valid.".

(** The document [doc] with [ps] appended to its pages. *)
Definition append_pages (doc : PDFDocument) (ps : list PDFPage) : PDFDocument :=
  mkDoc (pages doc ++ ps) (Title doc) (Author doc) (Creator doc) (Producer doc).

(** Page count contributed by the cover: its own pages when a cover file is
    supplied, one page when the default cover is synthesized, none otherwise. *)
Definition cover_page_count (cover : option PDFDocument) (useDefaultCover : bool)
    : nat :=
  match cover with
  | Some coverDoc => getPageCount coverDoc
  | None => if useDefaultCover then 1%nat else 0%nat
  end.

(** [coverFile], when supplied, parses to [cover]. *)
Definition cover_parses (coverFile : option File) (cover : option PDFDocument)
    : Prop :=
  match coverFile, cover with
  | Some f, Some d => load (arrayBuffer f) = Some d
  | None, None => True
  | _, _ => False
  end.

(** Every file of [files] parses, to the corresponding document of [docs]. *)
Definition all_parse (files : list File) (docs : list PDFDocument) : Prop :=
  Forall2 (fun f d => load (arrayBuffer f) = Some d) files docs.

(** The source file that [sourceFiles.find (f => f.id === key)] yields. *)
Definition find_source (sourceFiles : list FileWithId) (key : string)
    : option FileWithId :=
  List.find (fun f => String.eqb (id f) key) sourceFiles.

(** The editor page references a source document that is supplied. *)
Definition has_source (sourceFiles : list FileWithId) (page : EditorPage) : bool :=
  existsb (fun f => String.eqb (id f) (fileId page)) sourceFiles.

(** The bytes of the source file with the given id. *)
Definition source_bytes (sourceFiles : list FileWithId) (key : string) : list byte :=
  match find_source sourceFiles key with
  | Some f => arrayBuffer (file f)
  | None => []
  end.

(** The source files that a compile parses, in order: for each editor page
    in turn, the file of its source id when that id was not parsed before
    and is supplied.  [seen] holds the ids parsed so far. *)
Fixpoint parsed_sources (sourceFiles : list FileWithId) (seen : list string)
    (editorPages : list EditorPage) : list FileWithId :=
  match editorPages with
  | [] => []
  | p :: rest =>
      if bool_decide (fileId p ∈ seen) then parsed_sources sourceFiles seen rest
      else match find_source sourceFiles (fileId p) with
           | Some f => f :: parsed_sources sourceFiles (fileId p :: seen) rest
           | None => parsed_sources sourceFiles seen rest
           end
  end.

(** One parser call for each of the files, on its bytes. *)
Definition parser_calls (files : list FileWithId) : list Event :=
  map (fun f => EvLoad (arrayBuffer (file f))) files.

(** The page of the source document that an editor page points at. *)
Definition source_page (sourceFiles : list FileWithId) (page : EditorPage)
    : option PDFPage :=
  f ← find_source sourceFiles (fileId page);
  d ← load (arrayBuffer (file f));
  page_at d (originalPageIndex page).

(** The page that compiling an editor page appends: the source page with
    its rotation increased by the editor page's rotation, the sum being a
    multiple of 90. *)
Definition compiled_page (sourceFiles : list FileWithId) (page : EditorPage)
    : option PDFPage :=
  src ← source_page sourceFiles page;
  if (Z.rem (Rotate src + rotation page) 90 =? 0)%Z
  then Some (mkPage (pageWidth src) (pageHeight src) (Rotate src + rotation page)%Z
                    (contents src) (calls src))
  else None.

(** Every cached document is the parse of the source file with that id. *)
Definition cache_sound (sourceFiles : list FileWithId)
    (loadedDocs : gmap string PDFDocument) : Prop :=
  forall (k : string) (d : PDFDocument),
    loadedDocs !! k = Some d ->
    exists f, find_source sourceFiles k = Some f /\
              load (arrayBuffer (file f)) = Some d.


End Reference.

(** ** Further reference definitions

    What the service is expected to report, embed and compile, for the
    properties that follow the specification's own. *)

Section Expectations.
Context {platform : Platform}.

(** The percentages passed to [onProgress], in order. *)
Definition progress_of (events : list Event) : list number :=
  omap (fun e => match e with EvProgress p => Some p | _ => None end) events.

(** The buffers passed to [PDFDocument.load], in order. *)
Definition loads_of (events : list Event) : list (list byte) :=
  omap (fun e => match e with EvLoad b => Some b | _ => None end) events.

(** The percentage reported after the content file at position [i] of
    [totalFiles]. *)
Definition content_progress (totalFiles i : nat) : number :=
  (15 + ((num_of_nat i + 1) * (80 / num_of_nat totalFiles)))%float.

(** The decoder that [processBatchFile] selects for a logo file: JPEG for
    the MIME type [image/jpeg] or a name ending, in any case, in [.jpg] or
    [.jpeg]; PNG otherwise. *)
Definition batch_selects_jpeg (logo : File) : bool :=
  String.eqb (type logo) "image/jpeg"
  || endsWith (toLowerCase (name logo)) ".jpg"
  || endsWith (toLowerCase (name logo)) ".jpeg".

(** The decoder that the cover synthesizer selects: JPEG for the MIME type
    [image/jpeg] or a name ending in lower-case [.jpg]; PNG otherwise. *)
Definition cover_selects_jpeg (logo : File) : bool :=
  String.eqb (type logo) "image/jpeg" || endsWith (name logo) ".jpg".

Definition decode_logo (jpeg : bool) (logo : File) : option PDFImage :=
  if jpeg then embedJpg (arrayBuffer logo) else embedPng (arrayBuffer logo).

(** The image that [processBatchFile] stamps with: the decoded logo, or
    none when there is no logo file or it does not decode. *)
Definition batch_logo (config : WatermarkConfig) : option PDFImage :=
  match logoFile config with
  | Some logo => decode_logo (batch_selects_jpeg logo) logo
  | None => None
  end.

(** The information dictionary after the "Set Metadata" block. *)
Definition expected_title (metadata : option PdfMetadata) : option string :=
  match metadata with
  | Some m => if truthy_string (title m) then Some (title m) else None
  | None => None
  end.

Definition expected_author (metadata : option PdfMetadata) : option string :=
  match metadata with
  | Some m => if truthy_string (author m) then Some (author m) else None
  | None => None
  end.

(** The creator: the service's name when metadata is given, and otherwise
    the name that pdf-lib entered when it created the document. *)
Definition expected_creator (metadata : option PdfMetadata) : option string :=
  match metadata with
  | Some _ => Some "VTU Notes Merging System"
  | None => Some PDF_LIB
  end.

(** The warning of the cover synthesizer: logged when there is a logo file
    and the decoder selected for it rejects its bytes. *)
Definition cover_warnings (logo : option File) : list Event :=
  match logo with
  | Some lf =>
      match decode_logo (cover_selects_jpeg lf) lf with
      | Some _ => []
      | None => [EvWarn "Failed to embed logo for default cover"]
      end
  | None => []
  end.

Definition is_image_call (c : DrawCall) : bool :=
  match c with DrawImage _ _ _ _ _ _ => true | _ => false end.

(** The number of image calls on the synthesized cover: one when the logo
    decodes, none otherwise. *)
Definition cover_image_calls (logo : File) : nat :=
  match decode_logo (cover_selects_jpeg logo) logo with
  | Some _ => 1%nat
  | None => 0%nat
  end.

(** The events of the content loop of a merge, from position [i] on. *)
Fixpoint content_events (totalFiles i : nat) (files : list File) : list Event :=
  match files with
  | [] => []
  | f :: rest =>
      EvLoad (arrayBuffer f) :: EvProgress (content_progress totalFiles i)
        :: content_events totalFiles (S i) rest
  end.

(** The events of the cover step of a merge. *)
Definition cover_events (coverFile : option File) (defaultCoverLogo : option File)
    (useDefaultCover : bool) : list Event :=
  match coverFile with
  | Some f => [EvProgress 5; EvLoad (arrayBuffer f)]
  | None => if useDefaultCover then EvProgress 5 :: cover_warnings defaultCoverLogo
            else []
  end.

(** The events of a merge whose files all parse and whose stamps pdf-lib
    accepts. *)
Definition merge_events (coverFile : option File) (contentFiles : list File)
    (defaultCoverLogo : option File) (useDefaultCover : bool) : list Event :=
  cover_events coverFile defaultCoverLogo useDefaultCover
  ++ [EvProgress 15]
  ++ content_events (length contentFiles) 0 contentFiles
  ++ [EvProgress 95; EvProgress 100].

(** The warning of [processBatchFile]: logged when there is a logo file and
    the decoder selected for it rejects its bytes. *)
Definition batch_warnings (config : WatermarkConfig) : list Event :=
  match logoFile config with
  | Some lf =>
      match decode_logo (batch_selects_jpeg lf) lf with
      | Some _ => []
      | None => [EvWarn "Failed to embed logo"]
      end
  | None => []
  end.

(** The events of a batch run whose files parse. *)
Definition batch_events (contentFile : File) (coverFile : option File)
    (config : WatermarkConfig) : list Event :=
  batch_warnings config
  ++ match coverFile with Some f => [EvLoad (arrayBuffer f)] | None => [] end
  ++ [EvLoad (arrayBuffer contentFile)].

(** A page stamped by the batch mode: the calls of the engine for the
    configuration and the decoded logo, after the calls the page had. *)
Definition batch_stamped (config : WatermarkConfig) (p : PDFPage) : PDFPage :=
  record_calls p (spec_watermark_calls p HelveticaBold config (batch_logo config)).

(** pdf-lib accepts the stamps of the batch mode on every page of [d]. *)
Definition batch_accepted (config : WatermarkConfig) (d : PDFDocument) : bool :=
  forallb (fun p => accepted (spec_watermark_calls p HelveticaBold config
                                (batch_logo config)))
          (pages d).

(** What becomes of one editor page when its source is parsed afresh: it is
    passed over, it compiles to a page, or it makes the compile fail. *)
Inductive PageFate :=
| Skipped
| Compiled (q : PDFPage)
| Fails (e : Exn).

Definition page_fate (sourceFiles : list FileWithId) (page : EditorPage) : PageFate :=
  if bool_decide (fileId page ∈ Object_prototype_keys) then Fails TypeError
  else
    match find_source sourceFiles (fileId page) with
    | None => Skipped
    | Some f =>
        match load (arrayBuffer (file f)) with
        | None => Fails LoadFailure
        | Some d =>
            match page_at d (originalPageIndex page) with
            | None => Fails TypeError
            | Some src =>
                if (Z.rem (Rotate src + rotation page) 90 =? 0)%Z
                then Compiled (mkPage (pageWidth src) (pageHeight src)
                                      (Rotate src + rotation page)%Z
                                      (contents src) (calls src))
                else Fails AssertionFailure
            end
        end
    end.

(** Compiling page by page without any cache: the pages, or the failure of
    the first page that fails. *)
Fixpoint compile_pages (sourceFiles : list FileWithId) (editorPages : list EditorPage)
    : Exn + list PDFPage :=
  match editorPages with
  | [] => inr []
  | p :: rest =>
      match page_fate sourceFiles p with
      | Skipped => compile_pages sourceFiles rest
      | Fails e => inl e
      | Compiled q =>
          match compile_pages sourceFiles rest with
          | inl e => inl e
          | inr qs => inr (q :: qs)
          end
      end
  end.

(** The cache holds parses of supplied sources only, and none under a name
    inherited from [Object.prototype]. *)
Definition cache_ok (sourceFiles : list FileWithId)
    (loadedDocs : gmap string PDFDocument) : Prop :=
  cache_sound sourceFiles loadedDocs /\
  forall k, k ∈ Object_prototype_keys -> loadedDocs !! k = None.

(** An editor page that is fit to compile against the supplied sources: its
    rotation is 0, 90, 180 or 270, its source id is not a
    name inherited from [Object.prototype], its source is supplied and
    parses, and it points at an existing page of it whose own rotation is a
    multiple of 90. *)
Definition compilable (sourceFiles : list FileWithId) (p : EditorPage) : Prop :=
  (fileId p ∉ Object_prototype_keys) /\
  (rotation p = 0%Z \/ rotation p = 90%Z \/ rotation p = 180%Z \/
   rotation p = 270%Z) /\
  exists f d src,
    find_source sourceFiles (fileId p) = Some f /\
    load (arrayBuffer (file f)) = Some d /\
    page_at d (originalPageIndex p) = Some src /\
    Z.rem (Rotate src) 90 = 0%Z.

End Expectations.

(** * Properties *)

(** ** Arithmetic of binary64 values *)

Lemma SFmul_comm prec emax x y :
  SpecFloat.SFmul prec emax x y = SpecFloat.SFmul prec emax y x.
Proof.
  destruct x as [sx|sx| |sx mx ex], y as [sy|sy| |sy my ey]; simpl;
    try reflexivity; try (now rewrite xorb_comm).
  now rewrite xorb_comm, Pos.mul_comm, Z.add_comm.
Qed.

Lemma float_mul_comm (a b : float) : (a * b)%float = (b * a)%float.
Proof.
  apply FloatAxioms.Prim2SF_inj.
  rewrite !FloatAxioms.mul_spec. apply SFmul_comm.
Qed.

(** *** Comparisons *)

Lemma SFcompare_antisym x y :
  SFcompare y x = option_map CompOpp (SFcompare x y).
Proof.
  destruct x as [[|]|[|]| |[|] mx ex], y as [[|]|[|]| |[|] my ey]; try reflexivity;
    cbn [SFcompare option_map]; f_equal;
    rewrite (Z.compare_antisym ex ey); destruct (ex ?= ey)%Z; cbn [CompOpp];
    try reflexivity.
  - f_equal. symmetry. apply (Pos.compare_cont_antisym mx my Eq).
  - symmetry. apply (Pos.compare_cont_antisym mx my Eq).
Qed.

Lemma ltb_asym (a b : float) : PrimFloat.ltb a b = true -> PrimFloat.ltb b a = false.
Proof.
  rewrite !FloatAxioms.ltb_spec. unfold SFltb.
  rewrite (SFcompare_antisym (Prim2SF a) (Prim2SF b)).
  destruct (SFcompare (Prim2SF a) (Prim2SF b)) as [[| |]|]; cbn; congruence.
Qed.

(** *** Numbers stay numbers

    Rounding never yields NaN, so that a sum, a difference, a product or a
    quotient of a number and a finite constant is a number again. *)

Lemma is_nan_spec (f : float) :
  PrimFloat.is_nan f = negb (is_number_SF (Prim2SF f)).
Proof.
  unfold PrimFloat.is_nan. rewrite FloatAxioms.eqb_spec. unfold SFeqb.
  destruct (Prim2SF f) as [[|]|[|]| |[|] m e]; cbn; try reflexivity;
    now rewrite Z.compare_refl, Pos.compare_cont_refl.
Qed.

Lemma is_number_spec (v : float) : is_number v = is_number_SF (Prim2SF v).
Proof. unfold is_number. rewrite is_nan_spec. apply negb_involutive. Qed.

Lemma shr_1_nonneg mrs : 0 <= shr_m mrs -> 0 <= shr_m (shr_1 mrs).
Proof.
  destruct mrs as [m r s]. destruct m as [|[p|p|]|[p|p|]]; cbn; lia.
Qed.

Lemma iter_shr_1_nonneg p : forall mrs,
  0 <= shr_m mrs -> 0 <= shr_m (SpecFloat.iter_pos shr_1 p mrs).
Proof.
  induction p as [p IH|p IH|]; intros mrs H; cbn.
  - apply IH, IH. now apply shr_1_nonneg.
  - now apply IH, IH.
  - now apply shr_1_nonneg.
Qed.

Lemma shr_fexp_nonneg prec emax m e l :
  0 <= m -> 0 <= shr_m (fst (shr_fexp prec emax m e l)).
Proof.
  intros H. unfold shr_fexp, shr.
  assert (H0 : 0 <= shr_m (shr_record_of_loc m l)) by now destruct l as [|[| |]].
  destruct (fexp prec emax (Zdigits2 m + e) - e); cbn [fst]; try exact H0.
  now apply iter_shr_1_nonneg.
Qed.

Lemma round_nearest_even_nonneg m l : 0 <= m -> 0 <= round_nearest_even m l.
Proof.
  intros H. destruct l as [|[| |]]; cbn; try lia. destruct (Z.even m); lia.
Qed.

Lemma binary_round_aux_number prec emax sx mx ex lx :
  0 <= mx -> is_number_SF (binary_round_aux prec emax sx mx ex lx) = true.
Proof.
  intros H. unfold binary_round_aux.
  pose proof (shr_fexp_nonneg prec emax mx ex lx H) as H1.
  destruct (shr_fexp prec emax mx ex lx) as [mrs' e']. cbn [fst] in H1.
  pose proof (shr_fexp_nonneg prec emax _ e' loc_Exact
                (round_nearest_even_nonneg _ (loc_of_shr_record mrs') H1)) as H2.
  destruct (shr_fexp prec emax _ e' loc_Exact) as [mrs'' e'']. cbn [fst] in H2.
  destruct (shr_m mrs''); [reflexivity| |lia].
  now destruct (e'' <=? emax - prec).
Qed.

Lemma binary_normalize_number prec emax m e s :
  is_number_SF (binary_normalize prec emax m e s) = true.
Proof.
  destruct m; cbn [binary_normalize]; [reflexivity| |]; unfold binary_round;
    destruct (shl_align _ _ _); apply binary_round_aux_number; lia.
Qed.

Lemma SFadd_number prec emax x y :
  is_number_SF x = true -> is_finite_SF y = true ->
  is_number_SF (SFadd prec emax x y) = true.
Proof.
  destruct x as [sx|sx| |sx mx ex], y as [sy|sy| |sy my ey]; try discriminate;
    intros _ _; cbn [SFadd]; try reflexivity.
  - now destruct sx, sy.
  - apply binary_normalize_number.
Qed.

Lemma SFsub_number prec emax x y :
  is_number_SF x = true -> is_finite_SF y = true ->
  is_number_SF (SFsub prec emax x y) = true.
Proof.
  destruct x as [sx|sx| |sx mx ex], y as [sy|sy| |sy my ey]; try discriminate;
    intros _ _; cbn [SFsub]; try reflexivity.
  - now destruct sx, sy.
  - apply binary_normalize_number.
Qed.

Lemma SFsub_from_number prec emax x y :
  is_finite_SF x = true -> is_number_SF y = true ->
  is_number_SF (SFsub prec emax x y) = true.
Proof.
  destruct x as [sx|sx| |sx mx ex], y as [sy|sy| |sy my ey]; try discriminate;
    intros _ _; cbn [SFsub]; try reflexivity.
  - now destruct sx, sy.
  - apply binary_normalize_number.
Qed.

Lemma SFmul_number prec emax x y :
  is_number_SF x = true -> is_nonzero_SF y = true ->
  is_number_SF (SFmul prec emax x y) = true.
Proof.
  destruct x as [sx|sx| |sx mx ex], y as [sy|sy| |sy my ey]; try discriminate;
    intros _ _; cbn [SFmul]; try reflexivity.
  apply binary_round_aux_number. lia.
Qed.

Lemma SFdiv_number prec emax x y :
  is_number_SF x = true -> is_nonzero_SF y = true ->
  is_number_SF (SFdiv prec emax x y) = true.
Proof.
  destruct x as [sx|sx| |sx mx ex], y as [sy|sy| |sy my ey]; try discriminate;
    intros _ _; cbn [SFdiv]; try reflexivity.
  unfold SFdiv_core_binary.
  set (m' := match _ - _ - _ with Z0 => _ | Z.pos _ => _ | Z.neg _ => _ end).
  assert (Hm : 0 <= m').
  { subst m'. destruct (_ - _ - _); [lia| |lia]. apply Z.shiftl_nonneg. lia. }
  pose proof (Z.div_pos m' (Z.pos my) Hm ltac:(lia)) as Hq.
  unfold Z.div in Hq. destruct (Z.div_eucl m' (Z.pos my)) as [q r].
  now apply binary_round_aux_number.
Qed.

Lemma add_number (v c : float) :
  is_number v = true -> is_finite_SF (Prim2SF c) = true -> is_number (v + c) = true.
Proof. rewrite !is_number_spec, FloatAxioms.add_spec. apply SFadd_number. Qed.

Lemma sub_number (v c : float) :
  is_number v = true -> is_finite_SF (Prim2SF c) = true -> is_number (v - c) = true.
Proof. rewrite !is_number_spec, FloatAxioms.sub_spec. apply SFsub_number. Qed.

Lemma sub_from_number (c v : float) :
  is_finite_SF (Prim2SF c) = true -> is_number v = true -> is_number (c - v) = true.
Proof. rewrite !is_number_spec, FloatAxioms.sub_spec. apply SFsub_from_number. Qed.

Lemma mul_number (v c : float) :
  is_number v = true -> is_nonzero_SF (Prim2SF c) = true -> is_number (v * c) = true.
Proof. rewrite !is_number_spec, FloatAxioms.mul_spec. apply SFmul_number. Qed.

Lemma div_number (v c : float) :
  is_number v = true -> is_nonzero_SF (Prim2SF c) = true -> is_number (v / c) = true.
Proof. rewrite !is_number_spec, FloatAxioms.div_spec. apply SFdiv_number. Qed.

(** ** Colours *)

Example hexToRgb_808080 :
  hexToRgb "#808080" = rgb (128 / 255)%float (128 / 255)%float (128 / 255)%float.
Proof. reflexivity. Qed.

Example hexToRgb_upper : hexToRgb "FF00aa" = rgb 1 0 (170 / 255)%float.
Proof. reflexivity. Qed.

Example hexToRgb_bad : hexToRgb "red" = STRICT_WATERMARK_COLOR.
Proof. reflexivity. Qed.

Example endsWith_jpg :
  endsWith "logo.jpg" ".jpg" = true /\ endsWith "jpg" ".jpg" = false.
Proof. split; reflexivity. Qed.

Lemma hex_digit_not_hash (c : ascii) :
  is_hex_digit c = true -> Ascii.eqb c "#" = false.
Proof. destruct c as [[] [] [] [] [] [] [] []]; vm_compute; congruence. Qed.

Lemma hex_value_range (c : ascii) :
  is_hex_digit c = true -> 0 <= hex_value c <= 15.
Proof. destruct c as [[] [] [] [] [] [] [] []]; vm_compute; intuition congruence. Qed.





Lemma byte_components_ok :
  forallb (fun n => component_ok (num_of_nat n / 255)%float) (seq 0 256) = true.
Proof. vm_compute. reflexivity. Qed.

Lemma hex_pair_component_ok (a b : ascii) :
  is_hex_digit a = true -> is_hex_digit b = true ->
  component_ok (num_of_Z (parseInt16 (String a (String b ""))) / 255)%float = true.
Proof.
  intros Ha Hb. pose proof (hex_value_range a Ha). pose proof (hex_value_range b Hb).
  unfold parseInt16. cbn [list_ascii_of_string fold_left].
  pose proof (proj1 (forallb_forall _ _) byte_components_ok
                (Z.to_nat (16 * (16 * 0 + hex_value a) + hex_value b))) as H1.
  unfold num_of_nat in H1. rewrite Z2Nat.id in H1 by lia.
  apply H1. apply in_seq. lia.
Qed.

(** X13 (colours are always valid).  Whatever the string, the components
    that [hexToRgb] passes to pdf-lib's [rgb] are within [0, 1]: the range
    assertion of [rgb] cannot fire. *)
Lemma hexToRgb_valid (hex : string) : color_ok (hexToRgb hex) = true.
Proof.
  unfold hexToRgb.
  destruct (hex_regex_exec hex) as [[[r g] b]|] eqn:E; [|reflexivity].
  assert (Hg : exists s a1 a2 b1 b2 c1 c2,
             hex_groups s = Some (r, g, b) /\
             s = String a1 (String a2 (String b1 (String b2 (String c1 (String c2 "")))))).
  { destruct hex as [|c rest]; [discriminate|]. unfold hex_regex_exec in E.
    destruct (Ascii.eqb c "#");
      [exists rest | exists (String c rest)];
      match type of E with hex_groups ?s = _ =>
        destruct s as [|a1 [|a2 [|b1 [|b2 [|c1 [|c2 [|x t]]]]]]]; try discriminate
      end; now exists a1, a2, b1, b2, c1, c2. }
  destruct Hg as (s & a1 & a2 & b1 & b2 & c1 & c2 & Hs & ->).
  unfold hex_groups in Hs.
  destruct (forallb is_hex_digit [a1; a2; b1; b2; c1; c2]) eqn:Ef; [|discriminate].
  injection Hs as <- <- <-.
  cbn [forallb] in Ef. repeat (apply andb_prop in Ef; destruct Ef as [? Ef]).
  unfold color_ok. cbn [red green blue].
  now rewrite !hex_pair_component_ok.
Qed.

(** ** Computations *)

Section EffLemmas.
Context {A B : Type}.

Lemma mret_bind (a : A) (f : A -> Eff B) : mret a ≫= f = f a.
Proof. unfold mbind, eff_bind, mret, eff_ret. simpl. now destruct (f a). Qed.

Lemma outcome_bind (m : Eff A) (f : A -> Eff B) :
  outcome (m ≫= f) =
  match outcome m with Return a => outcome (f a) | Throw e => Throw e end.
Proof.
  unfold mbind, eff_bind, outcome. destruct m as [t [a|e]]; [|reflexivity].
  cbn [snd]. now destruct (f a).
Qed.

Lemma trace_bind (m : Eff A) (f : A -> Eff B) :
  trace (m ≫= f) =
  trace m ++ match outcome m with Return a => trace (f a) | Throw _ => [] end.
Proof.
  unfold mbind, eff_bind, outcome, trace.
  destruct m as [t [a|e]]; cbn [fst snd]; [now destruct (f a) | now rewrite app_nil_r].
Qed.

Lemma eff_eq (m : Eff A) t o : trace m = t -> outcome m = o -> m = (t, o).
Proof. destruct m; simpl; congruence. Qed.

Lemma bind_returned (t : list Event) (a : A) (f : A -> Eff B) :
  (t, Return a) ≫= f = (t ++ trace (f a), outcome (f a)).
Proof. unfold mbind, eff_bind. now destruct (f a). Qed.

Lemma bind_thrown (t : list Event) (e : Exn) (f : A -> Eff B) :
  ((t, Throw e) : Eff A) ≫= f = (t, Throw e).
Proof. reflexivity. Qed.

Lemma throw_bind (e : Exn) (f : A -> Eff B) : throw e ≫= f = throw e.
Proof. reflexivity. Qed.

Lemma bind_cong (m : Eff A) (f g : A -> Eff B) :
  (forall a, outcome m = Return a -> f a = g a) -> m ≫= f = m ≫= g.
Proof.
  intros H. destruct m as [t [a|e]]; [|reflexivity].
  unfold mbind, eff_bind. now rewrite (H a eq_refl).
Qed.

Lemma bind_mret (m : Eff A) : m ≫= mret = m.
Proof.
  destruct m as [t [a|e]]; [|reflexivity].
  unfold mbind, eff_bind, mret, eff_ret. now rewrite app_nil_r.
Qed.

End EffLemmas.

Section Properties.
Context {platform : Platform}.

(** ** Copying pages *)

Lemma lookup_seq_Forall2 {X : Type} (pre l : list X) :
  Forall2 (fun (i : Z) (x : X) =>
             (if i <? 0 then None else (pre ++ l) !! Z.to_nat i) = Some x)
          (map Z.of_nat (seq (length pre) (length l))) l.
Proof.
  revert pre. induction l as [|x l IH]; intros pre; cbn [length seq map].
  - constructor.
  - constructor.
    + destruct (Z.ltb_spec (Z.of_nat (length pre)) 0); [lia|].
      rewrite Nat2Z.id, (lookup_app_r pre (x :: l)) by lia.
      now rewrite Nat.sub_diag.
    + specialize (IH (pre ++ [x])).
      rewrite <- app_assoc, length_app in IH. cbn in IH.
      now rewrite Nat.add_1_r in IH.
Qed.

Lemma copyPages_all (d : PDFDocument) :
  copyPages d (getPageIndices d) = mret (pages d).
Proof.
  unfold copyPages, getPageIndices.
  assert (H : mapM (page_at d) (map Z.of_nat (seq 0 (length (pages d))))
              = Some (pages d)).
  { apply mapM_Some_2. exact (lookup_seq_Forall2 [] (pages d)). }
  now rewrite H.
Qed.

Lemma append_pages_nil (doc : PDFDocument) : append_pages doc [] = doc.
Proof. unfold append_pages. rewrite app_nil_r. now destruct doc. Qed.

Lemma append_pages_app (doc : PDFDocument) (ps qs : list PDFPage) :
  append_pages (append_pages doc ps) qs = append_pages doc (ps ++ qs).
Proof. unfold append_pages. cbn. now rewrite app_assoc. Qed.

Lemma append_pages_addPage (doc : PDFDocument) (p : PDFPage) (ps : list PDFPage) :
  append_pages (addPage doc p) ps = append_pages doc (p :: ps).
Proof. unfold append_pages, addPage. cbn. now rewrite <- app_assoc. Qed.

Lemma add_pages_from (i : nat) (doc : PDFDocument) (ps : list PDFPage) :
  forEach_from i ps (fun page (_ : nat) doc => mret (addPage doc page)) doc
  = mret (append_pages doc ps).
Proof.
  revert i doc. induction ps as [|p ps IH]; intros i doc; cbn [forEach_from].
  - now rewrite append_pages_nil.
  - now rewrite mret_bind, IH, append_pages_addPage.
Qed.

Lemma add_pages_eq (doc : PDFDocument) (ps : list PDFPage) :
  add_pages doc ps = mret (append_pages doc ps).
Proof. apply add_pages_from. Qed.

(** ** Saving *)

Lemma saved_pages_length (ps : list PDFPage) :
  length (saved_pages ps) = Nat.max 1 (length ps).
Proof. destruct ps as [|p ps]; [reflexivity|]. cbn. lia. Qed.

Lemma PDFDocument_save_saved (doc : PDFDocument) :
  PDFDocument_save doc = save (saved_document doc).
Proof.
  unfold PDFDocument_save, saved_document, getPageCount, addPage.
  destruct doc as [[|p ps] t a c pr]; reflexivity.
Qed.

(** ** Drawing calls *)

Lemma assertNumber_exn (v : number) (e : Exn) :
  assertNumber v = Some e -> e = TypeError.
Proof. unfold assertNumber. destruct (is_number v); congruence. Qed.

Lemma assertRange_exn (o : option number) (e : Exn) :
  assertRange o = Some e -> e = TypeError \/ e = AssertionFailure.
Proof.
  unfold assertRange. destruct o as [v|]; [|discriminate].
  destruct (negb (is_number v)); [intros [= <-]; now left|].
  destruct (PrimFloat.ltb v 0 || PrimFloat.ltb 1 v); [|discriminate].
  intros [= <-]. now right.
Qed.

Lemma first_failure_exn (checks : list (option Exn)) (e : Exn) :
  Forall (fun c => forall e', c = Some e' -> e' = TypeError \/ e' = AssertionFailure)
         checks ->
  first_failure checks = Some e -> e = TypeError \/ e = AssertionFailure.
Proof.
  induction 1 as [|c checks Hc _ IH]; [discriminate|].
  cbn [first_failure]. destruct c as [e'|]; [|exact IH].
  intros [= <-]. now apply Hc.
Qed.

Lemma call_check_exn (c : DrawCall) (e : Exn) :
  call_check c = Some e -> e = TypeError \/ e = AssertionFailure.
Proof.
  assert (Hn : forall v e', assertNumber v = Some e' ->
                            e' = TypeError \/ e' = AssertionFailure)
    by (intros v e' H; left; now apply assertNumber_exn with v).
  assert (Ho : forall (o : option number) e',
             match o with Some h => assertNumber h | None => None end = Some e' ->
             e' = TypeError \/ e' = AssertionFailure)
    by (intros [h|] e' H; [now apply Hn with h | discriminate]).
  destruct c; cbn [call_check]; try (now apply Hn);
    apply first_failure_exn;
    repeat (constructor;
            [first [apply Hn | apply assertRange_exn | apply Ho]|]);
    constructor.
Qed.

Lemma first_failure_none (checks : list (option Exn)) :
  first_failure checks = None <-> Forall (fun o => o = None) checks.
Proof.
  induction checks as [|[e|] checks IH]; cbn [first_failure].
  - split; [constructor | reflexivity].
  - split; [discriminate | intros H; now inversion H].
  - rewrite IH. split; [now constructor | intros H; now inversion H].
Qed.

(** Measuring first changes nothing to whether a call is accepted. *)
Lemma engine_check_none (c : DrawCall) :
  engine_check c = None <-> call_check c = None.
Proof.
  destruct c; cbn [engine_check]; try tauto.
  split.
  - intros H. apply first_failure_none in H. now inversion H as [|? ? _ [|? ? H2 _]].
  - intros H. cbn [first_failure]. rewrite H.
    cbn [call_check] in H. apply first_failure_none in H.
    inversion H as [|? ? _ [|? ? -> _]]. reflexivity.
Qed.

Lemma engine_check_exn (c : DrawCall) (e : Exn) :
  engine_check c = Some e -> e = TypeError \/ e = AssertionFailure.
Proof.
  destruct c; cbn [engine_check]; try apply call_check_exn.
  apply first_failure_exn.
  constructor; [intros e' H; left; now apply assertNumber_exn in H|].
  constructor; [|constructor]. intros e'. apply call_check_exn.
Qed.

Lemma draw_accepted (page : PDFPage) (c : DrawCall) :
  call_ok c = true -> engine_draw page c = mret (record_call page c).
Proof.
  unfold call_ok, engine_draw. intros H.
  destruct (call_check c) eqn:E; [discriminate|].
  apply engine_check_none in E. now rewrite E.
Qed.

Lemma draw_rejected (page : PDFPage) (c : DrawCall) :
  call_ok c = false ->
  exists e, engine_draw page c = throw e /\ (e = TypeError \/ e = AssertionFailure).
Proof.
  unfold call_ok, engine_draw. intros H.
  destruct (engine_check c) as [e|] eqn:E.
  - exists e. split; [reflexivity | now apply engine_check_exn with c].
  - apply engine_check_none in E. rewrite E in H. discriminate H.
Qed.

Lemma record_calls_nil (page : PDFPage) : record_calls page [] = page.
Proof. unfold record_calls. rewrite app_nil_r. now destruct page. Qed.

Lemma record_calls_cons (page : PDFPage) (c : DrawCall) (cs : list DrawCall) :
  record_calls (record_call page c) cs = record_calls page (c :: cs).
Proof. unfold record_calls, record_call. cbn. now rewrite <- app_assoc. Qed.

Lemma draw_all_accepted (cs : list DrawCall) : forall page : PDFPage,
  accepted cs = true -> draw_all page cs = mret (record_calls page cs).
Proof.
  induction cs as [|c cs IH]; intros page H; cbn [draw_all].
  - now rewrite record_calls_nil.
  - cbn [accepted forallb] in H. apply andb_prop in H. destruct H as [Hc Hcs].
    now rewrite (draw_accepted _ _ Hc), mret_bind, (IH _ Hcs), record_calls_cons.
Qed.

Lemma draw_all_rejected (cs : list DrawCall) : forall page : PDFPage,
  accepted cs = false ->
  exists e, draw_all page cs = throw e /\ (e = TypeError \/ e = AssertionFailure).
Proof.
  induction cs as [|c cs IH]; intros page H; [discriminate|].
  cbn [accepted forallb] in H. cbn [draw_all].
  destruct (call_ok c) eqn:Hc.
  - rewrite (draw_accepted _ _ Hc), mret_bind. now apply IH.
  - destruct (draw_rejected page c Hc) as (e & -> & He). now exists e.
Qed.

(** A stage of the engine, in front of the stages that follow it. *)
Lemma draw_stage (page : PDFPage) (b : bool) (m : Eff PDFPage) (c : DrawCall)
    (rest : list DrawCall) (K : PDFPage -> Eff PDFPage) :
  m = engine_draw page c ->
  (forall p, K p = draw_all p rest) ->
  (if b then m else mret page) ≫= K
  = draw_all page ((if b then [c] else []) ++ rest).
Proof.
  intros -> H. destruct b; cbn [app draw_all].
  - apply bind_cong. intros p _. apply H.
  - rewrite mret_bind. apply H.
Qed.

Lemma logo_stage (page : PDFPage) (logo : option PDFImage)
    (call : PDFImage -> DrawCall) (rest : list DrawCall)
    (K : PDFPage -> Eff PDFPage) :
  (forall image, draw page (call image) = engine_draw page (call image)) ->
  (forall p, K p = draw_all p rest) ->
  match logo with Some image => draw page (call image) | None => mret page end ≫= K
  = draw_all page (match logo with Some image => [call image] | None => [] end
                   ++ rest).
Proof.
  intros Hd H. destruct logo as [image|]; cbn [app draw_all].
  - rewrite Hd. apply bind_cong. intros p _. apply H.
  - rewrite mret_bind. apply H.
Qed.

Lemma last_stage (page : PDFPage) (b : bool) (m : Eff PDFPage) (c : DrawCall) :
  m = engine_draw page c ->
  (if b then m else mret page)
  = draw_all page (if b then [c] else []).
Proof. intros ->. destruct b; cbn [draw_all]; [now rewrite bind_mret | reflexivity]. Qed.

(** A text measured at the size at which it is then drawn. *)
Lemma measured_text (page : PDFPage) (font : PDFFont) (text : string)
    (size : number) (call : number -> DrawCall) :
  (forall w, exists x y color opacity rotate lineHeight,
      call w = DrawText text x y size font color opacity rotate lineHeight) ->
  (w ← font_widthOfTextAtSize font text size; draw page (call w))
  = engine_draw page (call (widthOfTextAtSize font text size)).
Proof.
  intros H. unfold font_widthOfTextAtSize, engine_draw.
  destruct (H (widthOfTextAtSize font text size))
    as (x & y & color & opacity & rotate & lineHeight & E).
  destruct (assertNumber size) eqn:En.
  - rewrite throw_bind, E. cbn [engine_check first_failure]. now rewrite En.
  - rewrite mret_bind, E. cbn [engine_check first_failure]. rewrite En.
    unfold draw. now destruct (call_check _).
Qed.

Lemma spec_rotated_stamp_call (width height : number) (font : PDFFont)
    (color : Color) (opacity : number) (angle : Z) :
  spec_rotated_stamp width height font color opacity angle
  = (let fontSize := Math_min width height * 0.11 in
     let textWidth := widthOfTextAtSize font DEFAULT_WATERMARK_TEXT fontSize in
     let textHeight := heightAtSize font fontSize in
     let rad := (num_of_Z angle * Math_PI) / 180 in
     DrawText DEFAULT_WATERMARK_TEXT
       (width / 2 - (textWidth / 2 * Math_cos rad - textHeight / 2 * Math_sin rad))
       (height / 2 - (textWidth / 2 * Math_sin rad + textHeight / 2 * Math_cos rad))
       fontSize font color (Some opacity) (Some angle) None)%float.
Proof.
  unfold spec_rotated_stamp. cbv zeta.
  now rewrite (float_mul_comm 0.11 (Math_min width height)).
Qed.

(** A rotated stamp: the font measures the text at the size of the stamp,
    then the one call is made. *)
Lemma drawRotatedWatermark_spec (page : PDFPage) (width height : number)
    (font : PDFFont) (color : Color) (opacity : number) (angle : Z) :
  drawRotatedWatermark page width height font color opacity angle
  = engine_draw page (spec_rotated_stamp width height font color opacity angle).
Proof.
  rewrite spec_rotated_stamp_call. cbv zeta.
  unfold drawRotatedWatermark, font_widthOfTextAtSize, font_heightAtSize,
    engine_draw.
  cbn [engine_check first_failure].
  destruct (assertNumber (Math_min width height * 0.11)); [reflexivity|].
  rewrite !mret_bind. unfold draw. now destruct (call_check _).
Qed.

(** The engine makes the calls of [spec_watermark_calls], in this order,
    until one is rejected. *)
Lemma applyWatermarkToPage_draws (page : PDFPage) (font : PDFFont)
    (config : WatermarkConfig) (logo : option PDFImage) :
  applyWatermarkToPage page font config logo
  = draw_all page (spec_watermark_calls page font config logo).
Proof.
  unfold spec_watermark_calls.
  unfold applyWatermarkToPage, getSize.
  cbv zeta.
  apply (logo_stage page logo
           (spec_logo_call (pageWidth page) (pageHeight page) config)).
  { intros image. reflexivity. }
  intros p1. apply draw_stage; [apply drawRotatedWatermark_spec|].
  intros p2. apply draw_stage; [apply drawRotatedWatermark_spec|].
  intros p3. apply draw_stage.
  { unfold spec_edge_stamp. cbv zeta.
    apply (measured_text p3 font DEFAULT_WATERMARK_TEXT 10
             (fun w => DrawText DEFAULT_WATERMARK_TEXT (pageWidth page / 2 - w / 2)
                         15 10 font (hexToRgb (textColor config))
                         (Some (Math_min (textOpacity config + 0.4) 1)) None None)).
    intros w. now eexists _, _, _, _, _, _. }
  intros p4. apply last_stage.
  unfold spec_edge_stamp. cbv zeta.
  apply (measured_text p4 font DEFAULT_WATERMARK_TEXT 10
           (fun w => DrawText DEFAULT_WATERMARK_TEXT (pageWidth page / 2 - w / 2)
                       (pageHeight page - 25) 10 font (hexToRgb (textColor config))
                       (Some (Math_min (textOpacity config + 0.4) 1)) None None)).
  intros w. now eexists _, _, _, _, _, _.
Qed.

Lemma applyWatermarkToPage_accepted (page : PDFPage) (font : PDFFont)
    (config : WatermarkConfig) (logo : option PDFImage) :
  accepted (spec_watermark_calls page font config logo) = true ->
  applyWatermarkToPage page font config logo
  = mret (record_calls page (spec_watermark_calls page font config logo)).
Proof. rewrite applyWatermarkToPage_draws. apply draw_all_accepted. Qed.

Lemma applyWatermarkToPage_rejected (page : PDFPage) (font : PDFFont)
    (config : WatermarkConfig) (logo : option PDFImage) :
  accepted (spec_watermark_calls page font config logo) = false ->
  exists e, applyWatermarkToPage page font config logo = throw e /\
            (e = TypeError \/ e = AssertionFailure).
Proof. rewrite applyWatermarkToPage_draws. apply draw_all_rejected. Qed.

(** The pages of a file, stamped one after the other: all of them, or the
    exception of the first page on which pdf-lib rejects a call. *)
Lemma add_watermarked_from (font : PDFFont) (config : WatermarkConfig)
    (logo : option PDFImage) (ps : list PDFPage) :
  forall (i : nat) (doc : PDFDocument),
    if forallb (fun p => accepted (spec_watermark_calls p font config logo)) ps
    then forEach_from i ps (fun page (_ : nat) doc =>
             addedPage ← applyWatermarkToPage page font config logo;
             mret (addPage doc addedPage)) doc
         = mret (append_pages doc
                   (map (fun p => record_calls p
                                    (spec_watermark_calls p font config logo)) ps))
    else exists e,
           forEach_from i ps (fun page (_ : nat) doc =>
             addedPage ← applyWatermarkToPage page font config logo;
             mret (addPage doc addedPage)) doc
           = throw e /\ (e = TypeError \/ e = AssertionFailure).
Proof.
  induction ps as [|p ps IH]; intros i doc; cbn [forallb forEach_from map].
  - now rewrite append_pages_nil.
  - destruct (accepted (spec_watermark_calls p font config logo)) eqn:Hp;
      cbn [andb].
    + rewrite (applyWatermarkToPage_accepted _ _ _ _ Hp), !mret_bind.
      specialize (IH (S i) (addPage doc (record_calls p
                       (spec_watermark_calls p font config logo)))).
      destruct (forallb _ ps).
      * now rewrite IH, append_pages_addPage.
      * exact IH.
    + destruct (applyWatermarkToPage_rejected _ _ _ _ Hp) as (e & -> & He).
      exists e. now rewrite !throw_bind.
Qed.

Lemma strict_calls (page : PDFPage) :
  spec_watermark_calls page HelveticaBold DEFAULT_MERGE_CONFIG None
  = strict_stamps page.
Proof. reflexivity. Qed.

(** ** The cover page synthesizer *)

Lemma number_eqb (v : number) : is_number v = true -> PrimFloat.eqb v v = true.
Proof.
  unfold is_number, PrimFloat.is_nan. now destruct (PrimFloat.eqb v v).
Qed.

(** The position of a centred text of the cover is a number. *)
Lemma centred_number (text : string) (size : number) :
  PrimFloat.is_finite size = true ->
  is_number (595.28 / 2 - widthOfTextAtSize HelveticaBold text size / 2)%float = true.
Proof.
  intros H. apply sub_from_number; [reflexivity|].
  apply div_number; [|reflexivity]. now apply widthOfTextAtSize_number.
Qed.

(** The synthesizer on every logo: the warning when the decoder rejects it,
    and one more page, never an exception. *)
Lemma generateDefaultCoverPage_cases (doc : PDFDocument) (logo : option File) :
  match generateDefaultCoverPage doc logo with
  | (t, Return d) =>
      t = cover_warnings logo /\
      exists page, d = addPage doc page /\
        pageWidth page = 595.28%float /\ pageHeight page = 841.89%float /\
        Rotate page = 0 /\ contents page = "" /\
        length (List.filter is_image_call (calls page))
        = match logo with
          | Some lf => cover_image_calls lf
          | None => 0%nat
          end
  | (_, Throw _) => False
  end.
Proof.
  pose proof (number_eqb _ (centred_number "vtunotesforall.in" 42 eq_refl)) as Ht.
  pose proof (number_eqb _ (centred_number "EXCELLENCE IN ENGINEERING RESOURCES" 10
                              eq_refl)) as Hs.
  pose proof (number_eqb _ (centred_number
      "vtunotesforall.in   |   EMPOWERING ENGINEERS EVERY SEMESTER" 8 eq_refl)) as Hf.
  vm_compute in Ht, Hs, Hf.
  assert (Himg : forall img, image_number img = true ->
            let w := (imageWidth img * 0.2)%float in
            let h := (imageHeight img * 0.2)%float in
            PrimFloat.eqb (595.28 / 2 - w / 2) (595.28 / 2 - w / 2) = true /\
            PrimFloat.eqb (841.89 - 80 - h) (841.89 - 80 - h) = true /\
            PrimFloat.eqb w w = true /\ PrimFloat.eqb h h = true /\
            PrimFloat.eqb (841.89 - 80 - (h + 20)) (841.89 - 80 - (h + 20)) = true /\
            PrimFloat.eqb (841.89 - 80 - (h + 20) - 25) (841.89 - 80 - (h + 20) - 25)
            = true).
  { intros [iw ih] Hn. unfold image_number in Hn. cbn [imageWidth imageHeight] in *.
    apply andb_prop in Hn. destruct Hn as [Hw Hh]. cbv zeta.
    assert (Hw2 : is_number (iw * 0.2) = true)
      by (apply mul_number; [exact Hw | reflexivity]).
    assert (Hh2 : is_number (ih * 0.2) = true)
      by (apply mul_number; [exact Hh | reflexivity]).
    assert (Hy : is_number (841.89 - 80 - (ih * 0.2 + 20)) = true)
      by (apply sub_from_number; [reflexivity|];
          apply add_number; [exact Hh2 | reflexivity]).
    repeat split; apply number_eqb; try assumption.
    - apply sub_from_number; [reflexivity|].
      apply div_number; [exact Hw2 | reflexivity].
    - apply sub_from_number; [reflexivity | exact Hh2].
    - apply sub_number; [exact Hy | reflexivity]. }
  unfold generateDefaultCoverPage, cover_warnings, cover_image_calls, decode_logo,
    cover_selects_jpeg, doc_embedJpg, doc_embedPng.
  destruct logo as [lf|].
  - destruct (String.eqb (type lf) "image/jpeg" || endsWith (name lf) ".jpg").
    + pose proof (embedJpg_number (arrayBuffer lf)) as Hlaw.
      destruct (embedJpg (arrayBuffer lf)) as [img|].
      * destruct (Himg img (Hlaw img eq_refl)) as (H1 & H2 & H3 & H4 & H5 & H6).
        destruct img as [iw ih]. vm_compute in H1, H2, H3, H4, H5, H6.
        repeat (vm_compute; rewrite ?Ht, ?Hs, ?Hf, ?H1, ?H2, ?H3, ?H4, ?H5, ?H6).
        vm_compute. (split; [reflexivity|]); eexists; repeat split.
      * repeat (vm_compute; rewrite ?Ht, ?Hs, ?Hf).
        vm_compute. (split; [reflexivity|]); eexists; repeat split.
    + pose proof (embedPng_number (arrayBuffer lf)) as Hlaw.
      destruct (embedPng (arrayBuffer lf)) as [img|].
      * destruct (Himg img (Hlaw img eq_refl)) as (H1 & H2 & H3 & H4 & H5 & H6).
        destruct img as [iw ih]. vm_compute in H1, H2, H3, H4, H5, H6.
        repeat (vm_compute; rewrite ?Ht, ?Hs, ?Hf, ?H1, ?H2, ?H3, ?H4, ?H5, ?H6).
        vm_compute. (split; [reflexivity|]); eexists; repeat split.
      * repeat (vm_compute; rewrite ?Ht, ?Hs, ?Hf).
        vm_compute. (split; [reflexivity|]); eexists; repeat split.
  - repeat (vm_compute; rewrite ?Ht, ?Hs, ?Hf).
    vm_compute. (split; [reflexivity|]); eexists; repeat split.
Qed.

Lemma generateDefaultCoverPage_run (doc : PDFDocument) (logo : option File) :
  exists page,
    generateDefaultCoverPage doc logo = (cover_warnings logo, Return (addPage doc page)).
Proof.
  pose proof (generateDefaultCoverPage_cases doc logo) as H.
  destruct (generateDefaultCoverPage doc logo) as [t [d|e]]; [|contradiction].
  destruct H as (-> & page & -> & _). now exists page.
Qed.

(** ** Parsing *)

Lemma outcome_try_catch {A : Type} (body : Eff A) (handler : Exn -> Eff A) :
  outcome (try_catch body handler) =
  match outcome body with Return a => Return a | Throw e => outcome (handler e) end.
Proof.
  unfold try_catch, outcome. destruct body as [t [a|e]]; [reflexivity|].
  cbn [snd]. now destruct (handler e).
Qed.

Lemma trace_try_catch {A : Type} (body : Eff A) (handler : Exn -> Eff A) :
  trace (try_catch body handler) =
  trace body ++ match outcome body with
                | Return _ => []
                | Throw e => trace (handler e)
                end.
Proof.
  unfold try_catch, trace, outcome. destruct body as [t [a|e]]; cbn [fst snd].
  - now rewrite app_nil_r.
  - now destruct (handler e).
Qed.

Lemma PDFDocument_load_ok (bytes : list byte) (d : PDFDocument) :
  load bytes = Some d -> PDFDocument_load bytes = ([EvLoad bytes], Return d).
Proof. intros H. unfold PDFDocument_load. now rewrite H. Qed.

Lemma PDFDocument_load_fail (bytes : list byte) :
  load bytes = None -> PDFDocument_load bytes = ([EvLoad bytes], Throw LoadFailure).
Proof. intros H. unfold PDFDocument_load. now rewrite H. Qed.

(** ** Single-output merge *)

(** One content file that parses: its pages are appended, stamped, and the
    progress is reported; or pdf-lib rejects a stamp and the loop body
    throws after the parse. *)
Lemma merge_content_file_run (total i : nat) (f : File) (d doc : PDFDocument) :
  load (arrayBuffer f) = Some d ->
  if forallb (fun p => accepted (strict_stamps p)) (pages d)
  then merge_content_file total HelveticaBold f i doc
       = ([EvLoad (arrayBuffer f); EvProgress (content_progress total i)],
          Return (append_pages doc (map strict_stamped (pages d))))
  else exists e,
         merge_content_file total HelveticaBold f i doc
         = ([EvLoad (arrayBuffer f)], Throw e).
Proof.
  intros H. unfold merge_content_file, add_watermarked_pages, forEach.
  rewrite (PDFDocument_load_ok _ _ H), bind_returned.
  rewrite copyPages_all, mret_bind.
  pose proof (add_watermarked_from HelveticaBold DEFAULT_MERGE_CONFIG None (pages d)
                0%nat doc) as Hw.
  change (fun p => accepted (spec_watermark_calls p HelveticaBold
                               DEFAULT_MERGE_CONFIG None))
    with (fun p => accepted (strict_stamps p)) in Hw.
  change (fun p => record_calls p (spec_watermark_calls p HelveticaBold
                                     DEFAULT_MERGE_CONFIG None))
    with strict_stamped in Hw.
  destruct (forallb _ (pages d)).
  - now rewrite Hw, mret_bind.
  - destruct Hw as (e & -> & _). exists e. reflexivity.
Qed.

Lemma merge_contents_run (total : nat) (files : list File)
    (docs : list PDFDocument) :
  all_parse files docs -> forall (i : nat) (doc : PDFDocument),
  if strict_accepted docs
  then forEach_from i files (merge_content_file total HelveticaBold) doc
       = (content_events total i files,
          Return (append_pages doc (map strict_stamped (concat (map pages docs)))))
  else exists t e,
         forEach_from i files (merge_content_file total HelveticaBold) doc
         = (t, Throw e).
Proof.
  unfold strict_accepted.
  induction 1 as [|f d files docs Hf _ IH]; intros i doc;
    cbn [forEach_from forallb content_events map concat].
  - now rewrite append_pages_nil.
  - pose proof (merge_content_file_run total i f d doc Hf) as Hd.
    destruct (forallb _ (pages d)); cbn [andb].
    + rewrite Hd, bind_returned.
      specialize (IH (S i) (append_pages doc (map strict_stamped (pages d)))).
      destruct (forallb _ docs).
      * rewrite IH. cbn [trace outcome fst snd app].
        now rewrite map_app, append_pages_app.
      * destruct IH as (t & e & ->). now eexists _, e.
    + destruct Hd as (e & ->). now eexists _, e.
Qed.

(** The document that a merge is about to save, and the events up to
    there: the cover section (the pages of the supplied cover as parsed, or
    the synthesized page, or nothing), then the stamped pages of every
    content file in list order; or an exception, when pdf-lib rejects a
    stamp. *)
Lemma merge_document_run (coverFile : option File) (cover : option PDFDocument)
    (contentFiles : list File) (docs : list PDFDocument)
    (metadata : option PdfMetadata) (logo : option File) (useDefaultCover : bool) :
  cover_parses coverFile cover -> all_parse contentFiles docs ->
  exists coverPages : list PDFPage,
    length coverPages = cover_page_count cover useDefaultCover /\
    (forall c, cover = Some c -> coverPages = pages c) /\
    if strict_accepted docs
    then merge_document coverFile contentFiles metadata logo useDefaultCover
         = (cover_events coverFile logo useDefaultCover ++ [EvProgress 15]
            ++ content_events (length contentFiles) 0 contentFiles,
            Return (append_pages (set_metadata PDFDocument_create metadata)
                      (coverPages
                       ++ map strict_stamped (concat (map pages docs)))))
    else exists t e,
           merge_document coverFile contentFiles metadata logo useDefaultCover
           = (t, Throw e).
Proof.
  intros Hc Hd. unfold merge_document, forEach, cover_events.
  pose proof (fun doc => merge_contents_run (length contentFiles) contentFiles docs
                           Hd 0%nat doc) as Hrun.
  destruct coverFile as [cf|], cover as [c|]; cbn in Hc; try contradiction.
  - exists (pages c). split; [reflexivity|]. split; [now intros ? [= ->]|].
    unfold onProgress, emit. rewrite bind_returned. cbn beta.
    rewrite (PDFDocument_load_ok _ _ Hc), bind_returned, copyPages_all, mret_bind,
      add_pages_eq.
    cbn [trace outcome fst snd mret eff_ret app]. rewrite ?bind_returned. cbn beta.
    rewrite ?bind_returned.
    specialize (Hrun (append_pages (set_metadata PDFDocument_create metadata)
                        (pages c))).
    destruct (strict_accepted docs).
    + rewrite Hrun. cbn [trace outcome fst snd app].
      now rewrite append_pages_app.
    + destruct Hrun as (t & e & ->). now eexists _, e.
  - destruct useDefaultCover.
    + destruct (generateDefaultCoverPage_run
                  (set_metadata PDFDocument_create metadata) logo) as [page Hp].
      exists [page]. split; [reflexivity|]. split; [discriminate|].
      unfold onProgress, emit. rewrite bind_returned. cbn beta.
      rewrite Hp. cbn [trace outcome fst snd]. rewrite ?bind_returned. cbn beta.
      rewrite ?bind_returned.
      specialize (Hrun (addPage (set_metadata PDFDocument_create metadata) page)).
      destruct (strict_accepted docs).
      * rewrite Hrun. cbn [trace outcome fst snd app].
        now rewrite append_pages_addPage.
      * destruct Hrun as (t & e & ->). now eexists _, e.
    + exists []. split; [reflexivity|]. split; [discriminate|].
      rewrite mret_bind. unfold onProgress, emit. rewrite bind_returned.
      specialize (Hrun (set_metadata PDFDocument_create metadata)).
      destruct (strict_accepted docs).
      * rewrite Hrun. reflexivity.
      * destruct Hrun as (t & e & ->). now eexists _, e.
Qed.

Lemma merge_returns (coverFile : option File) (contentFiles : list File)
    (metadata : option PdfMetadata) (logo : option File) (useDefaultCover : bool)
    (t : list Event) (d : PDFDocument) :
  merge_document coverFile contentFiles metadata logo useDefaultCover
  = (t, Return d) ->
  mergeAndWatermarkPdfs coverFile contentFiles metadata logo useDefaultCover
  = (t ++ [EvProgress 95; EvProgress 100], Return (save (saved_document d))).
Proof.
  intros H. unfold mergeAndWatermarkPdfs. rewrite H.
  unfold onProgress, emit. rewrite !bind_returned, PDFDocument_save_saved.
  reflexivity.
Qed.

Lemma merge_throws (coverFile : option File) (contentFiles : list File)
    (metadata : option PdfMetadata) (logo : option File) (useDefaultCover : bool)
    (t : list Event) (e : Exn) :
  merge_document coverFile contentFiles metadata logo useDefaultCover
  = (t, Throw e) ->
  mergeAndWatermarkPdfs coverFile contentFiles metadata logo useDefaultCover
  = (t ++ [EvError "Merge error"], Throw MERGE_ERROR).
Proof.
  intros H. unfold mergeAndWatermarkPdfs. rewrite H. reflexivity.
Qed.

(** A merge whose files parse: the events, and the document that is
    serialized; or the error of the catch block, when pdf-lib rejects a
    stamp. *)
Lemma merge_run (coverFile : option File) (cover : option PDFDocument)
    (contentFiles : list File) (docs : list PDFDocument)
    (metadata : option PdfMetadata) (logo : option File) (useDefaultCover : bool) :
  cover_parses coverFile cover -> all_parse contentFiles docs ->
  exists coverPages : list PDFPage,
    length coverPages = cover_page_count cover useDefaultCover /\
    (forall c, cover = Some c -> coverPages = pages c) /\
    if strict_accepted docs
    then mergeAndWatermarkPdfs coverFile contentFiles metadata logo useDefaultCover
         = (merge_events coverFile contentFiles logo useDefaultCover,
            Return (save (saved_document
                            (append_pages (set_metadata PDFDocument_create metadata)
                               (coverPages
                                ++ map strict_stamped (concat (map pages docs)))))))
    else outcome (mergeAndWatermarkPdfs coverFile contentFiles metadata logo
                    useDefaultCover)
         = Throw MERGE_ERROR.
Proof.
  intros Hc Hd.
  destruct (merge_document_run coverFile cover contentFiles docs metadata logo
              useDefaultCover Hc Hd) as (cp & Hlen & Hcov & Hrun).
  exists cp. split; [exact Hlen|]. split; [exact Hcov|].
  destruct (strict_accepted docs).
  - rewrite (merge_returns _ _ _ _ _ _ _ Hrun). f_equal.
    unfold merge_events, cover_events. now rewrite <- !app_assoc.
  - destruct Hrun as (t & e & Hrun). now rewrite (merge_throws _ _ _ _ _ _ _ Hrun).
Qed.

Lemma length_concat_sum (docs : list PDFDocument) :
  length (concat (map pages docs)) = sum_list (map getPageCount docs).
Proof.
  induction docs as [|d docs IH]; [reflexivity|].
  cbn [map concat sum_list sum_list_with]. rewrite length_app, IH. reflexivity.
Qed.

Lemma set_metadata_pages (metadata : option PdfMetadata) :
  pages (set_metadata PDFDocument_create metadata) = [].
Proof.
  unfold set_metadata. destruct metadata as [m|]; [|reflexivity].
  destruct (truthy_string (title m)), (truthy_string (author m)); reflexivity.
Qed.

Lemma merged_pages (metadata : option PdfMetadata) (ps : list PDFPage) :
  pages (saved_document (append_pages (set_metadata PDFDocument_create metadata) ps))
  = saved_pages ps.
Proof.
  unfold saved_document, append_pages. cbn [pages].
  now rewrite set_metadata_pages.
Qed.

(** C1, as the code has it.  When the cover file, if one is supplied,
    and every content file parse, [mergeAndWatermarkPdfs] returns the
    serialization of a document whose page count is the cover's page count
    (the supplied cover's own count; 1 for the synthesized default cover; 0
    with neither) plus the sum of the page counts of the content files
    when this number is positive, and 1 when it is 0: pdf-lib's [save] gives
    a document without pages one blank page.  The one other way for such a
    merge to end is the error of its catch block, when pdf-lib rejects the
    position or the size of a stamp for not being a number. *)
Theorem merge_page_count (coverFile : option File) (cover : option PDFDocument)
    (contentFiles : list File) (docs : list PDFDocument)
    (metadata : option PdfMetadata) (defaultCoverLogo : option File)
    (useDefaultCover : bool) :
  cover_parses coverFile cover ->
  all_parse contentFiles docs ->
  if strict_accepted docs
  then exists out : PDFDocument,
         outcome (mergeAndWatermarkPdfs coverFile contentFiles metadata
                    defaultCoverLogo useDefaultCover) = Return (save out) /\
         getPageCount out
         = Nat.max 1 (cover_page_count cover useDefaultCover
                      + sum_list (map getPageCount docs))
  else outcome (mergeAndWatermarkPdfs coverFile contentFiles metadata
                  defaultCoverLogo useDefaultCover) = Throw MERGE_ERROR.
Proof.
  intros Hc Hd.
  destruct (merge_run coverFile cover contentFiles docs metadata
              defaultCoverLogo useDefaultCover Hc Hd) as (cp & Hlen & _ & Hrun).
  destruct (strict_accepted docs); [|exact Hrun].
  eexists. split; [now rewrite Hrun|].
  unfold getPageCount at 1. rewrite merged_pages, saved_pages_length.
  now rewrite length_app, length_map, length_concat_sum, Hlen.
Qed.

Lemma contents_stamped_concat (docs : list PDFDocument) :
  map contents (concat (map (fun d => map strict_stamped (pages d)) docs))
  = concat (map (fun d => map contents (pages d)) docs).
Proof.
  induction docs as [|d docs IH]; [reflexivity|].
  cbn [map concat]. rewrite map_app, map_map, IH. reflexivity.
Qed.

(** C2 (order preservation).  For every list of content files that parse,
    in whatever order it is given, the pages of the merged document are the
    cover pages (those of the supplied cover, in their order) followed by
    the pages of the content files, file after file in list order and,
    within a file, in the file's page order; stamping leaves the content of
    each page as it was.  (A merge without any page is serialized with one
    blank page; and a merge in which pdf-lib rejects a stamp ends with the
    error of the catch block, without an output.) *)
Theorem merge_page_order (coverFile : option File) (cover : option PDFDocument)
    (contentFiles : list File) (docs : list PDFDocument)
    (metadata : option PdfMetadata) (defaultCoverLogo : option File)
    (useDefaultCover : bool) :
  cover_parses coverFile cover ->
  all_parse contentFiles docs ->
  if strict_accepted docs
  then exists (out : PDFDocument) (coverPages : list PDFPage),
         outcome (mergeAndWatermarkPdfs coverFile contentFiles metadata
                    defaultCoverLogo useDefaultCover) = Return (save out) /\
         pages out
         = saved_pages
             (coverPages
              ++ concat (map (fun d => map strict_stamped (pages d)) docs)) /\
         (forall c, cover = Some c -> coverPages = pages c) /\
         map contents
           (coverPages ++ concat (map (fun d => map strict_stamped (pages d)) docs))
         = map contents coverPages
           ++ concat (map (fun d => map contents (pages d)) docs)
  else outcome (mergeAndWatermarkPdfs coverFile contentFiles metadata
                  defaultCoverLogo useDefaultCover) = Throw MERGE_ERROR.
Proof.
  intros Hc Hd.
  destruct (merge_run coverFile cover contentFiles docs metadata
              defaultCoverLogo useDefaultCover Hc Hd) as (cp & _ & Hcov & Hrun).
  destruct (strict_accepted docs); [|exact Hrun].
  eexists. exists cp. split; [now rewrite Hrun|].
  rewrite merged_pages, concat_map, map_map.
  split; [reflexivity|]. split; [exact Hcov|].
  rewrite map_app. f_equal. apply contents_stamped_concat.
Qed.

(** C7 (supplied cover stays unwatermarked).  With a supplied cover file,
    the merged document starts with the cover's pages exactly as parsed (no
    drawing call added), and every content page carries exactly two more
    calls: the diagonal stamp at +60 degrees and the bottom stamp, none for
    the top or the crossed stamp; the default-cover flag and logo have no
    effect, the synthesizer not being invoked.  (A merge without any page is
    serialized with one blank page; and a merge in which pdf-lib rejects a
    stamp ends with the error of the catch block, without an output.) *)
Theorem merge_supplied_cover_unwatermarked (coverFile : File) (c : PDFDocument)
    (contentFiles : list File) (docs : list PDFDocument)
    (metadata : option PdfMetadata) (defaultCoverLogo : option File)
    (useDefaultCover : bool) :
  load (arrayBuffer coverFile) = Some c ->
  all_parse contentFiles docs ->
  mergeAndWatermarkPdfs (Some coverFile) contentFiles metadata
    defaultCoverLogo useDefaultCover
  = mergeAndWatermarkPdfs (Some coverFile) contentFiles metadata None false /\
  if strict_accepted docs
  then exists out : PDFDocument,
         outcome (mergeAndWatermarkPdfs (Some coverFile) contentFiles metadata
                    defaultCoverLogo useDefaultCover) = Return (save out) /\
         pages out
         = saved_pages
             (pages c ++
              map (fun p =>
                     record_calls p
                       [spec_rotated_stamp (pageWidth p) (pageHeight p) HelveticaBold
                          (hexToRgb "#808080") 0.2 60;
                        spec_edge_stamp (pageWidth p) 15 HelveticaBold
                          (hexToRgb "#808080") 0.2])
                  (concat (map pages docs)))
  else outcome (mergeAndWatermarkPdfs (Some coverFile) contentFiles metadata
                  defaultCoverLogo useDefaultCover) = Throw MERGE_ERROR.
Proof.
  intros Hc Hd. split; [reflexivity|].
  destruct (merge_run (Some coverFile) (Some c) contentFiles docs
              metadata defaultCoverLogo useDefaultCover Hc Hd)
    as (cp & _ & Hcov & Hrun).
  rewrite (Hcov c eq_refl) in Hrun.
  destruct (strict_accepted docs); [|exact Hrun].
  eexists. split; [now rewrite Hrun|].
  now rewrite merged_pages.
Qed.

(** ** The watermark engine on one page *)

Lemma draw_all_returns (page page' : PDFPage) (cs : list DrawCall) :
  outcome (draw_all page cs) = Return page' ->
  accepted cs = true /\ page' = record_calls page cs.
Proof.
  intros H. destruct (accepted cs) eqn:E.
  - rewrite (draw_all_accepted _ _ E) in H. now injection H as <-.
  - destruct (draw_all_rejected _ page E) as (e & He & _).
    rewrite He in H. discriminate H.
Qed.

(** C6 (geometry of the rotated stamps).  The engine issues exactly the
    calls of [spec_watermark_calls], in this order: the logo, the enabled
    rotated stamps (diagonal at +60 degrees, crossed at −60 degrees) and the
    enabled edge stamps; it stops at the first call that is rejected, by
    the font for a size that is not a number or by pdf-lib's assertions on
    the call, and a page that it returns carries them all.  The call for a
    rotated stamp at [angle] has font size
    [0.11 × min (pageWidth, pageHeight)] and origin
    [x = cx − (w/2·cosθ − h/2·sinθ)], [y = cy − (w/2·sinθ + h/2·cosθ)]: it
    is a function of the page size, the font, the colour, the opacity and
    the angle alone. *)
Theorem rotated_stamp_geometry (page : PDFPage) (font : PDFFont)
    (config : WatermarkConfig) (logo : option PDFImage) :
  applyWatermarkToPage page font config logo
  = draw_all page (spec_watermark_calls page font config logo) /\
  (forall page',
     outcome (applyWatermarkToPage page font config logo) = Return page' ->
     page' = record_calls page (spec_watermark_calls page font config logo)) /\
  forall angle : Z,
    let W := pageWidth page in
    let H := pageHeight page in
    let size := (0.11 * Math_min W H)%float in
    let w := widthOfTextAtSize font DEFAULT_WATERMARK_TEXT size in
    let h := heightAtSize font size in
    let theta := (num_of_Z angle * Math_PI / 180)%float in
    let cx := (W / 2)%float in
    let cy := (H / 2)%float in
    drawRotatedWatermark page W H font (hexToRgb (textColor config))
      (textOpacity config) angle
    = engine_draw page
        (DrawText DEFAULT_WATERMARK_TEXT
           (cx - (w / 2 * Math_cos theta - h / 2 * Math_sin theta))%float
           (cy - (w / 2 * Math_sin theta + h / 2 * Math_cos theta))%float
           size font (hexToRgb (textColor config))
           (Some (textOpacity config)) (Some angle) None).
Proof.
  split; [apply applyWatermarkToPage_draws|]. split.
  - intros page' H. rewrite applyWatermarkToPage_draws in H.
    now apply draw_all_returns in H.
  - intros angle. cbv zeta. now rewrite drawRotatedWatermark_spec.
Qed.

(** ** Text colour *)




(** ** Batch processing with a logo that does not decode *)

Lemma batch_logo_embed_fails (lf : File) :
  undecodable lf ->
  try_catch
    (image ← (if String.eqb (type lf) "image/jpeg"
                 || endsWith (toLowerCase (name lf)) ".jpg"
                 || endsWith (toLowerCase (name lf)) ".jpeg"
              then doc_embedJpg (arrayBuffer lf)
              else doc_embedPng (arrayBuffer lf));
     mret (Some image))
    (fun e => _ ← console_warn "Failed to embed logo"; mret None)
  = ([EvWarn "Failed to embed logo"], Return None).
Proof.
  intros [Hj Hp]. unfold doc_embedJpg, doc_embedPng. rewrite Hj, Hp.
  now destruct (_ || _ || _).
Qed.

Lemma batch_document_undecodable_logo (contentFile : File) (coverFile : option File)
    (config : WatermarkConfig) (metadata : option PdfMetadata) (lf : File) :
  logoFile config = Some lf ->
  undecodable lf ->
  batch_document contentFile coverFile config metadata
  = (EvWarn "Failed to embed logo"
       :: trace (batch_document contentFile coverFile (without_logo config) metadata),
     outcome (batch_document contentFile coverFile (without_logo config) metadata)).
Proof.
  intros Hl Hu. unfold batch_document at 1. rewrite Hl.
  rewrite (batch_logo_embed_fails lf Hu), bind_returned.
  unfold batch_document. cbn [logoFile without_logo]. rewrite mret_bind.
  reflexivity.
Qed.

(** C4, as the code has it.  When the bytes of the configured logo decode
    neither as JPEG nor as PNG, the failure of the embedding is caught: a
    warning is logged and [processBatchFile] proceeds exactly as with no
    logo, so that it ends as the logo-free run ends and draws no logo. *)
Theorem undecodable_logo_is_dropped (contentFile : File) (coverFile : option File)
    (config : WatermarkConfig) (metadata : option PdfMetadata) (lf : File) :
  logoFile config = Some lf ->
  undecodable lf ->
  processBatchFile contentFile coverFile config metadata
  = (EvWarn "Failed to embed logo"
       :: trace (processBatchFile contentFile coverFile (without_logo config) metadata),
     outcome (processBatchFile contentFile coverFile (without_logo config) metadata)).
Proof.
  intros Hl Hu. unfold processBatchFile.
  rewrite (batch_document_undecodable_logo _ _ _ _ lf Hl Hu).
  apply eff_eq.
  - rewrite !trace_bind. cbn [trace outcome fst snd]. reflexivity.
  - rewrite !outcome_bind. reflexivity.
Qed.

(** ** Post-merge combiner *)

Lemma combine_buffer_run (bytes : list byte) (i : nat) (d doc : PDFDocument) :
  load bytes = Some d ->
  combine_buffer bytes i doc = ([EvLoad bytes], Return (append_pages doc (pages d))).
Proof.
  intros H. unfold combine_buffer.
  rewrite (PDFDocument_load_ok _ _ H), bind_returned.
  now rewrite copyPages_all, mret_bind, add_pages_eq.
Qed.

Lemma combine_buffers_run (buffers : list (list byte)) (docs : list PDFDocument) :
  Forall2 (fun b d => load b = Some d) buffers docs ->
  forall (i : nat) (doc : PDFDocument),
    forEach_from i buffers combine_buffer doc
    = (map EvLoad buffers, Return (append_pages doc (concat (map pages docs)))).
Proof.
  induction 1 as [|b d buffers docs Hb _ IH]; intros i doc;
    cbn [forEach_from map concat].
  - now rewrite append_pages_nil.
  - rewrite (combine_buffer_run _ _ _ _ Hb), bind_returned, IH.
    cbn [trace outcome fst snd app]. now rewrite append_pages_app.
Qed.

(** The document of a combine: the pages of the parsed buffers, as
    parsed, in the order of the buffers; serialized with one blank page
    when there is none. *)
Lemma mergeProcessedFiles_run (buffers : list (list byte))
    (docs : list PDFDocument) :
  Forall2 (fun b d => load b = Some d) buffers docs ->
  mergeProcessedFiles buffers
  = (map EvLoad buffers,
     Return (save (saved_document
                     (append_pages
                        (setCreator "VTU Notes Merging System" PDFDocument_create)
                        (concat (map pages docs)))))).
Proof.
  intros H. unfold mergeProcessedFiles, combined_document, forEach.
  rewrite (combine_buffers_run _ _ H), bind_returned, PDFDocument_save_saved.
  cbn [trace outcome fst snd mret eff_ret]. now rewrite app_nil_r.
Qed.

(** C9, as the code has it.  For buffers [a], [b], [c] that parse,
    [combine ([a, b])] serializes the pages of [a] then those of [b],
    unchanged (no watermark, no rotation): [a.pageCount + b.pageCount]
    pages, or one blank page when that sum is 0.  When the parser reads
    this output back with its page count, [combine ([combine ([a, b]), c])]
    has [max (1, a.pageCount + b.pageCount) + c.pageCount] pages and
    [combine ([a, b, c])] has [max (1, a.pageCount + b.pageCount +
    c.pageCount)]: as many, as soon as [a] or [b] has a page. *)
Theorem combine_page_count (a b c : list byte) (da db dc : PDFDocument) :
  load a = Some da -> load b = Some db -> load c = Some dc ->
  exists ab : PDFDocument,
    outcome (mergeProcessedFiles [a; b]) = Return (save ab) /\
    pages ab = saved_pages (pages da ++ pages db) /\
    getPageCount ab = Nat.max 1 (getPageCount da + getPageCount db) /\
    forall ab' : PDFDocument,
      load (save ab) = Some ab' ->
      getPageCount ab' = getPageCount ab ->
      exists nested flat : PDFDocument,
        outcome (mergeProcessedFiles [save ab; c]) = Return (save nested) /\
        outcome (mergeProcessedFiles [a; b; c]) = Return (save flat) /\
        getPageCount nested
        = (Nat.max 1 (getPageCount da + getPageCount db) + getPageCount dc)%nat /\
        getPageCount flat
        = Nat.max 1 (getPageCount da + getPageCount db + getPageCount dc) /\
        ((0 < getPageCount da + getPageCount db)%nat ->
         getPageCount nested = getPageCount flat).
Proof.
  intros Ha Hb Hc.
  assert (Hab : Forall2 (fun b d => load b = Some d) [a; b] [da; db])
    by (repeat constructor; assumption).
  assert (Hflat : Forall2 (fun b d => load b = Some d) [a; b; c] [da; db; dc])
    by (repeat constructor; assumption).
  set (ab := saved_document
               (append_pages
                  (setCreator "VTU Notes Merging System" PDFDocument_create)
                  (pages da ++ pages db))).
  assert (Hcount : getPageCount ab
                   = Nat.max 1 (getPageCount da + getPageCount db)).
  { unfold getPageCount, ab. cbn [saved_document pages append_pages setCreator
                                  PDFDocument_create app].
    now rewrite saved_pages_length, length_app. }
  exists ab. split.
  { rewrite (mergeProcessedFiles_run _ _ Hab). cbn [outcome snd map concat].
    now rewrite app_nil_r. }
  split; [reflexivity|]. split; [exact Hcount|].
  intros ab' Hab' Cab'.
  assert (Hnested : Forall2 (fun b d => load b = Some d) [save ab; c] [ab'; dc])
    by (repeat constructor; assumption).
  eexists _, _.
  split; [now rewrite (mergeProcessedFiles_run _ _ Hnested)|].
  split; [now rewrite (mergeProcessedFiles_run _ _ Hflat)|].
  rewrite Hcount in Cab'. unfold getPageCount in *.
  cbn [saved_document pages append_pages setCreator PDFDocument_create map concat app].
  rewrite !app_nil_r, !saved_pages_length, !length_app, Cab'.
  split; [lia|]. split; [lia|]. lia.
Qed.

(** ** Editor compile *)

Lemma cache_sound_empty (sourceFiles : list FileWithId) :
  cache_sound sourceFiles ∅.
Proof. intros k d H. now rewrite lookup_empty in H. Qed.

Lemma cache_sound_insert (sourceFiles : list FileWithId)
    (loadedDocs : gmap string PDFDocument) (k : string) (f : FileWithId)
    (d : PDFDocument) :
  cache_sound sourceFiles loadedDocs ->
  find_source sourceFiles k = Some f ->
  load (arrayBuffer (file f)) = Some d ->
  cache_sound sourceFiles (<[k := d]> loadedDocs).
Proof.
  intros Hs Hf Hl k' d' H.
  destruct (decide (k = k')) as [<-|Hne].
  - rewrite lookup_insert_eq in H. injection H as <-. now exists f.
  - rewrite lookup_insert_ne in H by exact Hne. now apply Hs.
Qed.

Lemma has_source_find (sourceFiles : list FileWithId) (page : EditorPage) :
  has_source sourceFiles page = false <-> find_source sourceFiles (fileId page) = None.
Proof.
  unfold has_source, find_source.
  induction sourceFiles as [|f fs IH]; cbn [existsb List.find]; [tauto|].
  destruct (String.eqb (id f) (fileId page)); cbn [orb]; [|exact IH].
  split; discriminate.
Qed.

Lemma lookup_record_undefined (loadedDocs : gmap string PDFDocument) (k : string) :
  loadedDocs !! k = None -> k ∉ Object_prototype_keys ->
  lookup_record loadedDocs k = Undefined.
Proof.
  intros H Hn. unfold lookup_record. rewrite H.
  now rewrite bool_decide_eq_false_2.
Qed.

Lemma editor_step_skip (sourceFiles : list FileWithId) (page : EditorPage) (i : nat)
    (newPdf : PDFDocument) (loadedDocs : gmap string PDFDocument) :
  cache_sound sourceFiles loadedDocs ->
  has_source sourceFiles page = false ->
  fileId page ∉ Object_prototype_keys ->
  editor_step sourceFiles page i (newPdf, loadedDocs) = mret (newPdf, loadedDocs).
Proof.
  intros Hs Hm Hp. apply has_source_find in Hm.
  assert (Hc : loadedDocs !! fileId page = None).
  { destruct (loadedDocs !! fileId page) as [d|] eqn:E; [|reflexivity].
    destruct (Hs _ _ E) as (f & Hf & _). congruence. }
  unfold editor_step. rewrite (lookup_record_undefined _ _ Hc Hp).
  unfold find_source in Hm. now rewrite Hm.
Qed.

Lemma copy_editor_page_trace (newPdf srcDoc : PDFDocument) (page : EditorPage) :
  trace (copy_editor_page newPdf srcDoc page) = [].
Proof.
  unfold copy_editor_page, copyPages, setRotation.
  destruct (mapM _ _) as [[|q qs]|]; try reflexivity.
  rewrite mret_bind. now destruct (Z.rem _ 90 =? 0).
Qed.

Lemma copy_editor_page_compiled (newPdf srcDoc : PDFDocument) (page : EditorPage)
    (src : PDFPage) :
  page_at srcDoc (originalPageIndex page) = Some src ->
  Z.rem (Rotate src + rotation page) 90 = 0 ->
  copy_editor_page newPdf srcDoc page
  = mret (addPage newPdf
            (mkPage (pageWidth src) (pageHeight src) (Rotate src + rotation page)
                    (contents src) (calls src))).
Proof.
  intros Hp Hr. unfold copy_editor_page, copyPages, setRotation, getRotation.
  assert (Hm : mapM (page_at srcDoc) [originalPageIndex page] = Some [src])
    by (apply mapM_Some_2; repeat constructor; exact Hp).
  rewrite Hm, mret_bind.
  apply Z.eqb_eq in Hr. rewrite Hr. now rewrite mret_bind.
Qed.

Lemma lookup_record_cached (loadedDocs : gmap string PDFDocument) (k : string)
    (d : PDFDocument) :
  lookup_record loadedDocs k = Cached d -> loadedDocs !! k = Some d.
Proof.
  unfold lookup_record. destruct (loadedDocs !! k); [congruence|].
  now destruct (bool_decide _).
Qed.

Lemma lookup_record_not_cached (loadedDocs : gmap string PDFDocument) (k : string) :
  lookup_record loadedDocs k = Undefined -> loadedDocs !! k = None.
Proof. unfold lookup_record. now destruct (loadedDocs !! k). Qed.

(** What one step of the loop does to the cache and to the trace: either
    nothing is parsed and the cache is kept, or the source of the page,
    absent from the cache, is parsed once and then cached. *)
Lemma editor_step_cases (sourceFiles : list FileWithId) (page : EditorPage) (i : nat)
    (newPdf : PDFDocument) (loadedDocs : gmap string PDFDocument) :
  let step := editor_step sourceFiles page i (newPdf, loadedDocs) in
  (trace step = [] /\
   ((exists e, outcome step = Throw e) \/
    (exists newPdf', outcome step = Return (newPdf', loadedDocs))))
  \/
  (loadedDocs !! fileId page = None /\
   trace step = [EvLoad (source_bytes sourceFiles (fileId page))] /\
   ((exists e, outcome step = Throw e) \/
    (exists newPdf' f d,
        find_source sourceFiles (fileId page) = Some f /\
        load (arrayBuffer (file f)) = Some d /\
        outcome step = Return (newPdf', <[fileId page := d]> loadedDocs)))).
Proof.
  cbv zeta. unfold editor_step.
  destruct (lookup_record loadedDocs (fileId page)) as [srcDoc| |] eqn:El.
  - left. rewrite trace_bind, outcome_bind, copy_editor_page_trace.
    destruct (outcome (copy_editor_page newPdf srcDoc page)) as [newPdf'|e];
      (split; [reflexivity|]); [right; now exists newPdf' | left; now exists e].
  - left. split; [reflexivity|]. left. now exists TypeError.
  - apply lookup_record_not_cached in El.
    unfold source_bytes, find_source.
    destruct (List.find _ sourceFiles) as [f|] eqn:Ef.
    + right. split; [exact El|].
      destruct (load (arrayBuffer (file f))) as [d|] eqn:Ed.
      * rewrite (PDFDocument_load_ok _ _ Ed), bind_returned.
        cbn [trace outcome fst snd].
        rewrite trace_bind, outcome_bind, copy_editor_page_trace.
        destruct (outcome (copy_editor_page newPdf d page)) as [newPdf'|e];
          (split; [reflexivity|]);
          [right; now exists newPdf', f, d | left; now exists e].
      * rewrite (PDFDocument_load_fail _ Ed).
        split; [reflexivity|]. left. now exists LoadFailure.
    + left. split; [reflexivity|]. right. now exists newPdf.
Qed.

Lemma editor_step_sound (sourceFiles : list FileWithId) (page : EditorPage) (i : nat)
    (newPdf newPdf' : PDFDocument) (loadedDocs loadedDocs' : gmap string PDFDocument) :
  cache_sound sourceFiles loadedDocs ->
  outcome (editor_step sourceFiles page i (newPdf, loadedDocs))
  = Return (newPdf', loadedDocs') ->
  cache_sound sourceFiles loadedDocs'.
Proof.
  intros Hs Ho.
  destruct (editor_step_cases sourceFiles page i newPdf loadedDocs)
    as [(_ & [[e He]|[p Hp]]) | (_ & _ & [[e He]|(p & f & d & Hf & Hd & Hp)])];
    cbv zeta in *; try congruence.
  - rewrite Hp in Ho. now injection Ho as _ <-.
  - rewrite Hp in Ho. injection Ho as _ <-. now apply cache_sound_insert with f.
Qed.

(** Pages whose source is missing are passed over. *)
Lemma editor_loop_skips (sourceFiles : list FileWithId) (editorPages : list EditorPage) :
  (forall p, In p editorPages -> has_source sourceFiles p = false ->
             fileId p ∉ Object_prototype_keys) ->
  forall (i j : nat) (newPdf : PDFDocument) (loadedDocs : gmap string PDFDocument),
    cache_sound sourceFiles loadedDocs ->
    forEach_from i editorPages (editor_step sourceFiles) (newPdf, loadedDocs)
    = forEach_from j (List.filter (has_source sourceFiles) editorPages)
        (editor_step sourceFiles) (newPdf, loadedDocs).
Proof.
  induction editorPages as [|p eps IH]; intros Hp i j newPdf loadedDocs Hs;
    [reflexivity|].
  cbn [forEach_from List.filter].
  assert (Hp' : forall q, In q eps -> has_source sourceFiles q = false ->
                          fileId q ∉ Object_prototype_keys)
    by (intros q Hq; apply Hp; now right).
  destruct (has_source sourceFiles p) eqn:Eh.
  - cbn [forEach_from].
    change (editor_step sourceFiles p j) with (editor_step sourceFiles p i).
    apply bind_cong. intros [newPdf' loadedDocs'] Ho.
    apply IH; [exact Hp'|]. eapply editor_step_sound; eassumption.
  - rewrite editor_step_skip, mret_bind; [| exact Hs | exact Eh |].
    + now apply IH.
    + apply Hp; [now left | exact Eh].
Qed.

Lemma lookup_record_inherited (loadedDocs : gmap string PDFDocument) (k : string) :
  lookup_record loadedDocs k = Inherited -> k ∈ Object_prototype_keys.
Proof.
  unfold lookup_record. destruct (loadedDocs !! k); [discriminate|].
  case_bool_decide; [done | discriminate].
Qed.

Lemma compiled_page_inv (sourceFiles : list FileWithId) (page : EditorPage)
    (q : PDFPage) :
  compiled_page sourceFiles page = Some q ->
  exists f d src,
    find_source sourceFiles (fileId page) = Some f /\
    load (arrayBuffer (file f)) = Some d /\
    page_at d (originalPageIndex page) = Some src /\
    Z.rem (Rotate src + rotation page) 90 = 0 /\
    q = mkPage (pageWidth src) (pageHeight src) (Rotate src + rotation page)
               (contents src) (calls src).
Proof.
  unfold compiled_page, source_page. intros H.
  destruct (find_source sourceFiles (fileId page)) as [f|] eqn:Ef; [|discriminate].
  cbn in H. destruct (load (arrayBuffer (file f))) as [d|] eqn:Ed; [|discriminate].
  cbn in H.
  destruct (page_at d (originalPageIndex page)) as [src|] eqn:Es; [|discriminate].
  cbn in H.
  destruct (Z.eqb_spec (Z.rem (Rotate src + rotation page) 90) 0) as [Hr|];
    [|discriminate].
  injection H as <-. now exists f, d, src.
Qed.

Lemma editor_step_compiles (sourceFiles : list FileWithId) (page : EditorPage)
    (i : nat) (newPdf : PDFDocument) (loadedDocs : gmap string PDFDocument)
    (q : PDFPage) :
  cache_sound sourceFiles loadedDocs ->
  fileId page ∉ Object_prototype_keys ->
  compiled_page sourceFiles page = Some q ->
  exists loadedDocs',
    outcome (editor_step sourceFiles page i (newPdf, loadedDocs))
    = Return (addPage newPdf q, loadedDocs') /\
    cache_sound sourceFiles loadedDocs'.
Proof.
  intros Hs Hp Hq.
  destruct (compiled_page_inv _ _ _ Hq) as (f & d & src & Hf & Hd & Hsrc & Hr & ->).
  unfold editor_step.
  destruct (lookup_record loadedDocs (fileId page)) as [d'| |] eqn:El.
  - apply lookup_record_cached in El.
    destruct (Hs _ _ El) as (f' & Hf' & Hd').
    assert (f' = f) by congruence. subst f'.
    assert (d' = d) by congruence. subst d'.
    exists loadedDocs. split; [|exact Hs].
    now rewrite (copy_editor_page_compiled _ _ _ _ Hsrc Hr), mret_bind.
  - now apply lookup_record_inherited in El.
  - unfold find_source in Hf. rewrite Hf.
    exists (<[fileId page := d]> loadedDocs).
    split; [|now apply cache_sound_insert with f].
    rewrite (PDFDocument_load_ok _ _ Hd), bind_returned. cbn [outcome snd].
    now rewrite (copy_editor_page_compiled _ _ _ _ Hsrc Hr), mret_bind.
Qed.

Lemma editor_loop_compiles (sourceFiles : list FileWithId)
    (editorPages : list EditorPage) :
  (forall p, In p editorPages -> fileId p ∉ Object_prototype_keys) ->
  forall (ps : list PDFPage) (i : nat) (newPdf : PDFDocument)
         (loadedDocs : gmap string PDFDocument),
    cache_sound sourceFiles loadedDocs ->
    Forall2 (fun p q => compiled_page sourceFiles p = Some q)
            (List.filter (has_source sourceFiles) editorPages) ps ->
    exists loadedDocs',
      outcome (forEach_from i editorPages (editor_step sourceFiles)
                 (newPdf, loadedDocs))
      = Return (append_pages newPdf ps, loadedDocs').
Proof.
  induction editorPages as [|p eps IH]; intros Hp ps i newPdf loadedDocs Hs Hc.
  - inversion Hc. subst. exists loadedDocs. cbn. now rewrite append_pages_nil.
  - assert (Hp' : forall q, In q eps -> fileId q ∉ Object_prototype_keys)
      by (intros q Hq; apply Hp; now right).
    cbn [forEach_from List.filter] in *.
    destruct (has_source sourceFiles p) eqn:Eh.
    + inversion Hc as [|? q ? qs Hq Hqs]. subst.
      destruct (editor_step_compiles sourceFiles p i newPdf loadedDocs q Hs)
        as (loadedDocs1 & Ho & Hs1); [apply Hp; now left | exact Hq |].
      destruct (IH Hp' qs (S i) (addPage newPdf q) loadedDocs1 Hs1 Hqs)
        as (loadedDocs' & Ho').
      exists loadedDocs'. rewrite outcome_bind, Ho, Ho'.
      unfold append_pages, addPage. cbn. now rewrite <- app_assoc.
    + rewrite editor_step_skip, mret_bind; [| exact Hs | exact Eh |].
      * now apply IH.
      * apply Hp. now left.
Qed.

Lemma find_source_id (sourceFiles : list FileWithId) (k : string) (f : FileWithId) :
  find_source sourceFiles k = Some f -> id f = k.
Proof.
  unfold find_source. intros H. apply find_some in H as [_ H].
  now apply String.eqb_eq in H.
Qed.

(** The files of [parsed_sources] are the files of the pages whose id was
    not seen. *)
Lemma parsed_sources_elem (sourceFiles : list FileWithId)
    (editorPages : list EditorPage) :
  forall (seen : list string) (f : FileWithId),
    f ∈ parsed_sources sourceFiles seen editorPages <->
    exists p, p ∈ editorPages /\ (fileId p ∉ seen) /\
              find_source sourceFiles (fileId p) = Some f.
Proof.
  induction editorPages as [|p0 eps IH]; intros seen f; cbn [parsed_sources].
  - split; [intros H; now apply elem_of_nil in H|].
    intros (p & H & _). now apply elem_of_nil in H.
  - case_bool_decide as Hs.
    + rewrite IH. split.
      * intros (p & Hp & Hn & Hf). exists p. split; [apply elem_of_cons; now right|].
        now split.
      * intros (p & Hp & Hn & Hf). apply elem_of_cons in Hp as [->|Hp]; [done|].
        now exists p.
    + destruct (find_source sourceFiles (fileId p0)) as [f0|] eqn:E0.
      * rewrite elem_of_cons, IH. split.
        -- intros [->|(p & Hp & Hn & Hf)].
           ++ exists p0. split; [apply elem_of_cons; now left|]. now split.
           ++ exists p. split; [apply elem_of_cons; now right|].
              split; [|exact Hf]. intros Hin. apply Hn, elem_of_cons. now right.
        -- intros (p & Hp & Hn & Hf).
           destruct (decide (fileId p = fileId p0)) as [Heq|Hne].
           ++ left. rewrite Heq in Hf. congruence.
           ++ right. apply elem_of_cons in Hp as [->|Hp]; [done|].
              exists p. split; [exact Hp|]. split; [|exact Hf].
              intros Hin. apply elem_of_cons in Hin as [Hin|Hin]; [done|]. now apply Hn.
      * rewrite IH. split.
        -- intros (p & Hp & Hn & Hf). exists p.
           split; [apply elem_of_cons; now right|]. now split.
        -- intros (p & Hp & Hn & Hf). apply elem_of_cons in Hp as [->|Hp]; [congruence|].
           now exists p.
Qed.

(** No source id occurs twice among the files of [parsed_sources]. *)
Lemma parsed_sources_NoDup (sourceFiles : list FileWithId)
    (editorPages : list EditorPage) :
  forall seen : list string,
    NoDup (map id (parsed_sources sourceFiles seen editorPages)).
Proof.
  induction editorPages as [|p0 eps IH]; intros seen; cbn [parsed_sources].
  - apply NoDup_nil_2.
  - case_bool_decide as Hs; [apply IH|].
    destruct (find_source sourceFiles (fileId p0)) as [f0|] eqn:E0; [|apply IH].
    cbn [map]. apply NoDup_cons. split; [|apply IH].
    intros Hin. apply list_elem_of_fmap in Hin as (f & Hid & Hf).
    apply parsed_sources_elem in Hf as (p & _ & Hn & Hf).
    apply find_source_id in Hf. apply find_source_id in E0.
    apply Hn, elem_of_cons. left. congruence.
Qed.

(** What one step of the loop parses: nothing when the source of the page
    is cached or is not supplied; otherwise the supplied file, once, which
    is cached when the step returns. *)
Lemma editor_step_loads (sourceFiles : list FileWithId) (page : EditorPage) (i : nat)
    (newPdf : PDFDocument) (loadedDocs : gmap string PDFDocument) :
  let step := editor_step sourceFiles page i (newPdf, loadedDocs) in
  match loadedDocs !! fileId page with
  | Some _ =>
      trace step = [] /\
      ((exists e, outcome step = Throw e) \/
       (exists newPdf', outcome step = Return (newPdf', loadedDocs)))
  | None =>
      match find_source sourceFiles (fileId page) with
      | Some f =>
          (trace step = [] /\ exists e, outcome step = Throw e) \/
          (trace step = [EvLoad (arrayBuffer (file f))] /\
           ((exists e, outcome step = Throw e) \/
            (exists newPdf' d,
                outcome step = Return (newPdf', <[fileId page := d]> loadedDocs))))
      | None =>
          trace step = [] /\
          ((exists e, outcome step = Throw e) \/
           outcome step = Return (newPdf, loadedDocs))
      end
  end.
Proof.
  cbv zeta. unfold editor_step, lookup_record, find_source.
  destruct (loadedDocs !! fileId page) as [srcDoc|] eqn:El.
  - rewrite trace_bind, outcome_bind, copy_editor_page_trace.
    destruct (outcome (copy_editor_page newPdf srcDoc page)) as [newPdf'|e];
      (split; [reflexivity|]); [right; now exists newPdf' | left; now exists e].
  - case_bool_decide as Hi.
    + destruct (List.find _ sourceFiles) as [f|].
      * left. split; [reflexivity|]. now exists TypeError.
      * split; [reflexivity|]. left. now exists TypeError.
    + destruct (List.find _ sourceFiles) as [f|] eqn:Ef.
      * right. destruct (load (arrayBuffer (file f))) as [d|] eqn:Ed.
        -- rewrite (PDFDocument_load_ok _ _ Ed), bind_returned.
           cbn [trace outcome fst snd].
           rewrite trace_bind, outcome_bind, copy_editor_page_trace.
           destruct (outcome (copy_editor_page newPdf d page)) as [newPdf'|e];
             (split; [reflexivity|]);
             [right; now exists newPdf', d | left; now exists e].
        -- rewrite (PDFDocument_load_fail _ Ed).
           split; [reflexivity|]. left. now exists LoadFailure.
      * split; [reflexivity|]. now right.
Qed.

(** The parser calls of the loop are calls of [parsed_sources], from the
    first one on, and all of them when the loop returns. *)
Lemma editor_loop_loads (sourceFiles : list FileWithId)
    (editorPages : list EditorPage) :
  forall (i : nat) (newPdf : PDFDocument) (loadedDocs : gmap string PDFDocument)
         (seen : list string),
    (forall k, k ∈ seen <-> is_Some (loadedDocs !! k)) ->
    trace (forEach_from i editorPages (editor_step sourceFiles) (newPdf, loadedDocs))
      `prefix_of` parser_calls (parsed_sources sourceFiles seen editorPages) /\
    ((exists r, outcome (forEach_from i editorPages (editor_step sourceFiles)
                           (newPdf, loadedDocs)) = Return r) ->
     trace (forEach_from i editorPages (editor_step sourceFiles) (newPdf, loadedDocs))
     = parser_calls (parsed_sources sourceFiles seen editorPages)).
Proof.
  induction editorPages as [|p eps IH]; intros i newPdf loadedDocs seen Hseen.
  - split; [apply prefix_nil | reflexivity].
  - cbn [forEach_from parsed_sources]. rewrite trace_bind, outcome_bind.
    pose proof (editor_step_loads sourceFiles p i newPdf loadedDocs) as Hstep.
    cbv zeta in Hstep.
    destruct (loadedDocs !! fileId p) as [srcDoc|] eqn:El.
    + rewrite bool_decide_eq_true_2 by (apply Hseen; rewrite El; now eexists).
      destruct Hstep as [-> [[e ->]|[newPdf' ->]]].
      * split; [apply prefix_nil | intros [r Hr]; discriminate Hr].
      * apply IH, Hseen.
    + rewrite bool_decide_eq_false_2
        by (intros Hin; apply Hseen in Hin; rewrite El in Hin; now destruct Hin).
      destruct (find_source sourceFiles (fileId p)) as [f|].
      * destruct Hstep as [[-> [e ->]] | [-> [[e ->]|(newPdf' & d & ->)]]].
        -- split; [apply prefix_nil | intros [r Hr]; discriminate Hr].
        -- split; [|intros [r Hr]; discriminate Hr].
           cbn [parser_calls map app]. apply prefix_cons, prefix_nil.
        -- assert (Hseen' : forall k, k ∈ fileId p :: seen
                                      <-> is_Some (<[fileId p := d]> loadedDocs !! k)).
           { intros k. rewrite elem_of_cons, lookup_insert_is_Some, Hseen.
             destruct (decide (fileId p = k)); intuition congruence. }
           destruct (IH (S i) newPdf' _ _ Hseen') as [Hpre Hall].
           cbn [parser_calls map app]. split.
           ++ now apply prefix_cons.
           ++ intros Hr. f_equal. now apply Hall.
      * destruct Hstep as [-> [[e ->]| ->]].
        -- split; [apply prefix_nil | intros [r Hr]; discriminate Hr].
        -- apply IH, Hseen.
Qed.

Lemma buildPdfFromEditor_trace (editorPages : list EditorPage)
    (sourceFiles : list FileWithId) :
  trace (buildPdfFromEditor editorPages sourceFiles)
  = trace (editor_document editorPages sourceFiles).
Proof.
  unfold buildPdfFromEditor. rewrite trace_bind.
  destruct (outcome (editor_document editorPages sourceFiles)) as [[newPdf c]|e];
    cbn; now rewrite app_nil_r.
Qed.

(** C3, as the code has it.  An editor page whose source id is absent from
    the supplied source list (and is not a name every object inherits) is
    passed over: the compile proceeds exactly as on the list without such
    pages, and raises no error on their account. *)
Theorem editor_skips_missing_sources (editorPages : list EditorPage)
    (sourceFiles : list FileWithId) :
  (forall p, In p editorPages -> has_source sourceFiles p = false ->
             fileId p ∉ Object_prototype_keys) ->
  buildPdfFromEditor editorPages sourceFiles
  = buildPdfFromEditor (List.filter (has_source sourceFiles) editorPages) sourceFiles.
Proof.
  intros Hp. unfold buildPdfFromEditor, editor_document, forEach.
  now rewrite (editor_loop_skips sourceFiles editorPages Hp 0 0
                 PDFDocument_create ∅ (cache_sound_empty sourceFiles)).
Qed.

(** C5, as the code has it.  When every editor page that has a source
    points at an existing page of it and the rotations add up to multiples
    of 90, the compile returns the document made of those pages, each with
    its rotation set to [currentRotation + rotationDelta]: the sum itself,
    which is congruent to the normalized value modulo 360 but is not
    reduced to it. *)
Theorem editor_rotation_is_sum (editorPages : list EditorPage)
    (sourceFiles : list FileWithId) (ps : list PDFPage) :
  (forall p, In p editorPages -> fileId p ∉ Object_prototype_keys) ->
  Forall2 (fun p q => compiled_page sourceFiles p = Some q)
          (List.filter (has_source sourceFiles) editorPages) ps ->
  outcome (buildPdfFromEditor editorPages sourceFiles)
  = Return (PDFDocument_save (append_pages PDFDocument_create ps)) /\
  Forall2 (fun p q => exists src,
             source_page sourceFiles p = Some src /\
             Rotate q = Rotate src + rotation p /\
             Rotate q mod 360 = (Rotate src + rotation p) mod 360)
          (List.filter (has_source sourceFiles) editorPages) ps.
Proof.
  intros Hp Hc. split.
  - destruct (editor_loop_compiles sourceFiles editorPages Hp ps 0
                PDFDocument_create ∅ (cache_sound_empty sourceFiles) Hc)
      as (loadedDocs' & Ho).
    unfold buildPdfFromEditor, editor_document, forEach.
    now rewrite outcome_bind, Ho.
  - eapply Forall2_impl; [exact Hc|]. intros p q Hq.
    unfold compiled_page in Hq.
    destruct (source_page sourceFiles p) as [src|]; [|discriminate].
    cbn in Hq. destruct (Z.rem _ 90 =? 0); [|discriminate].
    injection Hq as <-. exists src. cbn. auto.
Qed.

(** C8 (each source parsed at most once).  An editor compile that returns
    calls the parser exactly once for each distinct source id that an
    editor page references and that is supplied — on the bytes of that
    source, in the order of first reference, however many pages reference
    it — and emits nothing else; a compile that fails has made the first
    of these calls only.  [parsed_sources] lists these sources: no id
    twice, and a source is listed exactly when a page references it. *)
Theorem editor_parses_each_source_once (editorPages : list EditorPage)
    (sourceFiles : list FileWithId) :
  NoDup (map id (parsed_sources sourceFiles [] editorPages)) /\
  (forall f : FileWithId,
     f ∈ parsed_sources sourceFiles [] editorPages <->
     exists p, p ∈ editorPages /\
               find_source sourceFiles (fileId p) = Some f) /\
  trace (buildPdfFromEditor editorPages sourceFiles)
    `prefix_of` parser_calls (parsed_sources sourceFiles [] editorPages) /\
  ((exists bytes,
       outcome (buildPdfFromEditor editorPages sourceFiles) = Return bytes) ->
   trace (buildPdfFromEditor editorPages sourceFiles)
   = parser_calls (parsed_sources sourceFiles [] editorPages)).
Proof.
  split; [apply parsed_sources_NoDup|]. split.
  { intros f. rewrite parsed_sources_elem. split.
    - intros (p & Hp & _ & Hf). now exists p.
    - intros (p & Hp & Hf). exists p. split; [exact Hp|]. split; [|exact Hf].
      intros H. now apply elem_of_nil in H. }
  assert (Hseen : forall k : string,
             k ∈ @nil string <-> is_Some ((∅ : gmap string PDFDocument) !! k)).
  { intros k. rewrite lookup_empty. split.
    - intros H. now apply elem_of_nil in H.
    - intros [d Hd]. discriminate Hd. }
  destruct (editor_loop_loads sourceFiles editorPages 0 PDFDocument_create ∅ []
              Hseen) as [Hpre Hall].
  rewrite buildPdfFromEditor_trace. unfold editor_document, forEach.
  split; [exact Hpre|].
  intros [bytes Hb]. apply Hall.
  unfold buildPdfFromEditor, editor_document, forEach in Hb.
  rewrite outcome_bind in Hb.
  destruct (outcome (forEach_from 0 editorPages (editor_step sourceFiles)
                       (PDFDocument_create, ∅))) as [r|e]; [now exists r | discriminate Hb].
Qed.

End Properties.

(** * The properties on the sample inputs *)

Lemma sample_round_trip (d : PDFDocument) :
  exists d', sample_load (sample_save d) = Some d' /\
             getPageCount d' = getPageCount d.
Proof.
  eexists. split; [reflexivity|].
  unfold getPageCount. cbn [pages]. now rewrite !length_map.
Qed.

Lemma ghost_not_inherited : "ghost" ∉ Object_prototype_keys.
Proof. apply (bool_decide_unpack (_ ∉ _)). reflexivity. Qed.

Lemma f1_not_inherited : "f1" ∉ Object_prototype_keys.
Proof. apply (bool_decide_unpack (_ ∉ _)). reflexivity. Qed.


Lemma sample_files_accepted :
  strict_accepted (platform := sample_platform) [sample_doc "abc"; sample_doc "d"]
  = true.
Proof. vm_compute. reflexivity. Qed.

(** C1: with no cover, no default cover and no content file the merge
    returns a document that reads back with one page, the blank page that
    saving adds, not with none. *)
Lemma merge_page_count_counterexample :
  ~ (forall (out : list byte) (d : PDFDocument),
       outcome (mergeAndWatermarkPdfs (platform := sample_platform)
                  None [] None None false) = Return out ->
       sample_load out = Some d ->
       getPageCount d
       = (cover_page_count None false + sum_list (map getPageCount []))%nat).
Proof.
  intros H. specialize (H _ _ eq_refl eq_refl). vm_compute in H. discriminate H.
Qed.

(** C1 on a two-page cover and content files of three pages and one. *)
Lemma merge_page_count_witness :
  exists out : PDFDocument,
    outcome (mergeAndWatermarkPdfs (platform := sample_platform)
               (Some cover_2) [content_3; content_1] None None false)
    = Return (sample_save out) /\
    getPageCount out = 6%nat.
Proof.
  pose proof (merge_page_count (platform := sample_platform)
                (Some cover_2) (Some (sample_doc "AB")) [content_3; content_1]
                [sample_doc "abc"; sample_doc "d"] None None false
                eq_refl ltac:(repeat constructor)) as H.
  rewrite sample_files_accepted in H. exact H.
Defined.

(** C1 with nothing to merge, and with one content file that has no
    page: one page, labelled [0] by the stand-in serializer. *)
Example merge_nothing_run :
  mergeAndWatermarkPdfs (platform := sample_platform) None [] None None false
  = ([EvProgress 15; EvProgress 95; EvProgress 100], Return (pdf_bytes "0")) /\
  outcome (mergeAndWatermarkPdfs (platform := sample_platform)
             None [empty_file] None None false)
  = Return (pdf_bytes "0").
Proof. split; vm_compute; reflexivity. Qed.

(** C2 on the same files, without a cover. *)
Lemma merge_page_order_witness :
  exists (out : PDFDocument) (coverPages : list PDFPage),
    outcome (mergeAndWatermarkPdfs (platform := sample_platform)
               None [content_3; content_1] None None false)
    = Return (sample_save out) /\
    pages out
    = saved_pages
        (coverPages ++
         concat (map (fun d => map (strict_stamped (platform := sample_platform))
                                   (pages d))
                     [sample_doc "abc"; sample_doc "d"])) /\
    (forall c, None = Some c -> coverPages = pages c) /\
    map contents
      (coverPages ++
       concat (map (fun d => map (strict_stamped (platform := sample_platform))
                                 (pages d))
                   [sample_doc "abc"; sample_doc "d"]))
    = map contents coverPages ++ ["a"; "b"; "c"; "d"].
Proof.
  pose proof (merge_page_order (platform := sample_platform)
                None None [content_3; content_1]
                [sample_doc "abc"; sample_doc "d"] None None false
                I ltac:(repeat constructor)) as H.
  rewrite sample_files_accepted in H. exact H.
Defined.

(** C7 on the scenario of the specification: a two-page cover, content
    files of three pages and of one page. *)
Lemma merge_supplied_cover_unwatermarked_witness :
  mergeAndWatermarkPdfs (platform := sample_platform)
    (Some cover_2) [content_3; content_1] None (Some png_logo) true
  = mergeAndWatermarkPdfs (platform := sample_platform)
      (Some cover_2) [content_3; content_1] None None false /\
  exists out : PDFDocument,
    outcome (mergeAndWatermarkPdfs (platform := sample_platform)
               (Some cover_2) [content_3; content_1] None (Some png_logo) true)
    = Return (sample_save out) /\
    pages out
    = saved_pages
        (pages (sample_doc "AB") ++
         map (fun p =>
                record_calls p
                  [spec_rotated_stamp (platform := sample_platform)
                     (pageWidth p) (pageHeight p) HelveticaBold
                     (hexToRgb "#808080") 0.2 60;
                   spec_edge_stamp (platform := sample_platform)
                     (pageWidth p) 15 HelveticaBold (hexToRgb "#808080") 0.2])
             (concat (map pages [sample_doc "abc"; sample_doc "d"]))).
Proof.
  pose proof (merge_supplied_cover_unwatermarked (platform := sample_platform)
                cover_2 (sample_doc "AB") [content_3; content_1]
                [sample_doc "abc"; sample_doc "d"] None (Some png_logo) true
                eq_refl ltac:(repeat constructor)) as H.
  rewrite sample_files_accepted in H. exact H.
Defined.

(** The scenario, evaluated: six pages, the first two without any drawing
    call, the other four with the diagonal and the bottom stamp. *)
Example merge_scenario_six_pages :
  match outcome (merge_document (platform := sample_platform)
                   (Some cover_2) [content_3; content_1] None None false) with
  | Return out =>
      map contents (pages out) = ["A"; "B"; "a"; "b"; "c"; "d"] /\
      map (fun p => map (fun c => match c with
                                  | DrawText _ _ y _ _ _ _ rotate _ => Some (y, rotate)
                                  | _ => None
                                  end) (calls p)) (pages out)
      = [[]; [];
         [Some (162.98221545521051%float, Some 60); Some (15%float, None)];
         [Some (162.98221545521051%float, Some 60); Some (15%float, None)];
         [Some (162.98221545521051%float, Some 60); Some (15%float, None)];
         [Some (162.98221545521051%float, Some 60); Some (15%float, None)]]
  | Throw _ => False
  end.
Proof. vm_compute. split; reflexivity. Qed.

(** C6 on an A4 page with every stamp enabled: the engine returns the page
    with its four stamps, the first two rotated. *)
Example rotated_stamp_geometry_run :
  applyWatermarkToPage (platform := sample_platform) (sample_page "a")
    HelveticaBold (all_stamps_config None) None
  = mret (record_calls (sample_page "a")
            (spec_watermark_calls (platform := sample_platform) (sample_page "a")
               HelveticaBold (all_stamps_config None) None)) /\
  map (fun c => match c with
                | DrawText _ _ _ size _ _ _ rotate _ => Some (size, rotate)
                | _ => None
                end)
      (spec_watermark_calls (platform := sample_platform) (sample_page "a")
         HelveticaBold (all_stamps_config None) None)
  = [Some ((0.11 * 595.28)%float, Some 60); Some ((0.11 * 595.28)%float, Some (-60));
     Some (10%float, None); Some (10%float, None)].
Proof. split; vm_compute; reflexivity. Qed.


(** With the colour name [red]: a text opacity of 1.5 fails pdf-lib's
    range assertion; and, with opacities within [0, 1], a logo of width 0
    gives a width that is not a number. *)
Example bad_text_color_run :
  applyWatermarkToPage (platform := sample_platform) (sample_page "a")
    HelveticaBold overdone_config None
  = throw AssertionFailure /\
  applyWatermarkToPage (platform := sample_platform) (sample_page "a")
    HelveticaBold (all_stamps_config None) (Some (mkImage 0 100))
  = throw TypeError.
Proof. split; vm_compute; reflexivity. Qed.


(** C4: a GIF logo is undecodable, yet the batch run returns a document. *)
Lemma undecodable_logo_counterexample :
  ~ (undecodable (platform := sample_platform) gif_logo ->
     exists e, outcome (processBatchFile (platform := sample_platform)
                          content_1 None (all_stamps_config (Some gif_logo)) None)
               = Throw e).
Proof.
  intros H. destruct H as [e He]; [split; reflexivity|].
  vm_compute in He. discriminate He.
Qed.

Lemma undecodable_logo_is_dropped_witness :
  processBatchFile (platform := sample_platform) content_1 None
    (all_stamps_config (Some gif_logo)) None
  = (EvWarn "Failed to embed logo"
       :: trace (processBatchFile (platform := sample_platform) content_1 None
                   (without_logo (all_stamps_config (Some gif_logo))) None),
     outcome (processBatchFile (platform := sample_platform) content_1 None
                (without_logo (all_stamps_config (Some gif_logo))) None)).
Proof.
  apply (undecodable_logo_is_dropped (platform := sample_platform) content_1 None
           (all_stamps_config (Some gif_logo)) None gif_logo).
  - reflexivity.
  - split; reflexivity.
Defined.

(** The batch run with the GIF logo, evaluated: a warning, one page, and
    on it four text calls and no image. *)
Example batch_gif_logo_run :
  match batch_document (platform := sample_platform) content_1 None
          (all_stamps_config (Some gif_logo)) None with
  | (events, Return out) =>
      events = [EvWarn "Failed to embed logo";
                EvLoad (pdf_bytes "d")] /\
      map (fun p => map (fun c => match c with
                                  | DrawText _ _ _ _ _ _ _ _ _ => "text"
                                  | DrawImage _ _ _ _ _ _ => "image"
                                  | _ => "other"
                                  end) (calls p)) (pages out)
      = [["text"; "text"; "text"; "text"]]
  | (_, Throw _) => False
  end.
Proof. vm_compute. split; reflexivity. Qed.

(** C9: two buffers without a page combine to a document of one page, not
    of none; and combined with a third buffer of one page, nested, they give
    two pages, where the flat combine of the three gives one. *)
Lemma combine_page_count_counterexample :
  ~ (forall (a b ab : list byte) (da db dab : PDFDocument),
       sample_load a = Some da -> sample_load b = Some db ->
       outcome (mergeProcessedFiles (platform := sample_platform) [a; b])
       = Return ab ->
       sample_load ab = Some dab ->
       getPageCount dab = (getPageCount da + getPageCount db)%nat) /\
  ~ (forall (a b c ab nested flat : list byte) (dnested dflat : PDFDocument),
       outcome (mergeProcessedFiles (platform := sample_platform) [a; b])
       = Return ab ->
       outcome (mergeProcessedFiles (platform := sample_platform) [ab; c])
       = Return nested ->
       outcome (mergeProcessedFiles (platform := sample_platform) [a; b; c])
       = Return flat ->
       sample_load nested = Some dnested ->
       sample_load flat = Some dflat ->
       getPageCount dnested = getPageCount dflat).
Proof.
  split; intros H.
  - specialize (H (pdf_bytes "") (pdf_bytes "") _ _ _ _
                  eq_refl eq_refl eq_refl eq_refl).
    vm_compute in H. discriminate H.
  - specialize (H (pdf_bytes "") (pdf_bytes "") (pdf_bytes "0") _ _ _ _ _
                  eq_refl eq_refl eq_refl eq_refl eq_refl).
    vm_compute in H. discriminate H.
Qed.

Example combine_empty_buffers_run :
  mergeProcessedFiles (platform := sample_platform) [pdf_bytes ""; pdf_bytes ""]
  = ([EvLoad (pdf_bytes ""); EvLoad (pdf_bytes "")], Return (pdf_bytes "0")) /\
  outcome (mergeProcessedFiles (platform := sample_platform)
             [pdf_bytes "0"; pdf_bytes ""]) = Return (pdf_bytes "0") /\
  outcome (mergeProcessedFiles (platform := sample_platform)
             [pdf_bytes "0"; pdf_bytes "0"]) = Return (pdf_bytes "00") /\
  outcome (mergeProcessedFiles (platform := sample_platform)
             [pdf_bytes ""; pdf_bytes ""; pdf_bytes "0"]) = Return (pdf_bytes "0").
Proof. vm_compute. repeat split; reflexivity. Qed.

(** C9 on three sample buffers. *)
Lemma combine_page_count_witness :
  exists ab : PDFDocument,
    outcome (mergeProcessedFiles (platform := sample_platform)
               [pdf_bytes "ab"; pdf_bytes "cde"]) = Return (sample_save ab) /\
    pages ab = saved_pages (pages (sample_doc "ab") ++ pages (sample_doc "cde")) /\
    getPageCount ab = 5%nat /\
    forall ab' : PDFDocument,
      sample_load (sample_save ab) = Some ab' ->
      getPageCount ab' = getPageCount ab ->
      exists nested flat : PDFDocument,
        outcome (mergeProcessedFiles (platform := sample_platform)
                   [sample_save ab; pdf_bytes "f"]) = Return (sample_save nested) /\
        outcome (mergeProcessedFiles (platform := sample_platform)
                   [pdf_bytes "ab"; pdf_bytes "cde"; pdf_bytes "f"])
        = Return (sample_save flat) /\
        getPageCount nested = 6%nat /\
        getPageCount flat = 6%nat /\
        ((0 < 5)%nat -> getPageCount nested = getPageCount flat).
Proof.
  exact (combine_page_count (platform := sample_platform)
           (pdf_bytes "ab") (pdf_bytes "cde") (pdf_bytes "f")
           (sample_doc "ab") (sample_doc "cde") (sample_doc "f")
           eq_refl eq_refl eq_refl).
Defined.

(** C3: the second editor page references a source that is not supplied,
    yet the compile returns, with the first page only. *)
Lemma editor_missing_source_counterexample :
  ~ ((exists p, In p [page_of_f1 0 0; page_of_ghost] /\
                has_source [editor_source] p = false) ->
     exists e, outcome (buildPdfFromEditor (platform := sample_platform)
                          [page_of_f1 0 0; page_of_ghost] [editor_source])
               = Throw e).
Proof.
  intros H. destruct H as [e He].
  - exists page_of_ghost. split; [right; now left | reflexivity].
  - vm_compute in He. discriminate He.
Qed.

Example editor_missing_source_run :
  buildPdfFromEditor (platform := sample_platform)
    [page_of_f1 0 0; page_of_ghost] [editor_source]
  = ([EvLoad (pdf_bytes "abcd")], Return (pdf_bytes "a")).
Proof. vm_compute. reflexivity. Qed.

Lemma editor_skips_missing_sources_witness :
  buildPdfFromEditor (platform := sample_platform)
    [page_of_f1 0 0; page_of_ghost] [editor_source]
  = buildPdfFromEditor (platform := sample_platform) [page_of_f1 0 0] [editor_source].
Proof.
  apply (editor_skips_missing_sources (platform := sample_platform)
           [page_of_f1 0 0; page_of_ghost] [editor_source]).
  intros p [<-|[<-|[]]] Hs.
  - discriminate Hs.
  - exact ghost_not_inherited.
Defined.

(** C5: the third page of the source is stored with a rotation of 270;
    rotated by a further 90 it is stored with 360, not with 0. *)
Lemma editor_rotation_counterexample :
  ~ (forall out cache,
       outcome (editor_document (platform := sample_platform)
                  [page_of_f1 2 90] [editor_source]) = Return (out, cache) ->
       Forall2 (fun p q => exists src,
                  source_page (platform := sample_platform) [editor_source] p
                  = Some src /\
                  Rotate q = (Rotate src + rotation p) mod 360)
               [page_of_f1 2 90] (pages out)).
Proof.
  intros H.
  specialize (H _ _ eq_refl).
  inversion H as [|p q ps qs (src & Hsrc & Hrot) _]. subst.
  vm_compute in Hsrc. injection Hsrc as <-.
  vm_compute in Hrot. discriminate Hrot.
Qed.

Lemma editor_rotation_is_sum_witness :
  outcome (buildPdfFromEditor (platform := sample_platform)
             [page_of_f1 2 90; page_of_ghost; page_of_f1 0 90] [editor_source])
  = Return (PDFDocument_save (platform := sample_platform)
              (append_pages PDFDocument_create
                 [mkPage 595.28 841.89 360 "c" []; mkPage 595.28 841.89 180 "a" []])) /\
  Forall2 (fun p q => exists src,
             source_page (platform := sample_platform) [editor_source] p = Some src /\
             Rotate q = Rotate src + rotation p /\
             Rotate q mod 360 = (Rotate src + rotation p) mod 360)
          [page_of_f1 2 90; page_of_f1 0 90]
          [mkPage 595.28 841.89 360 "c" []; mkPage 595.28 841.89 180 "a" []].
Proof.
  apply (editor_rotation_is_sum (platform := sample_platform)
           [page_of_f1 2 90; page_of_ghost; page_of_f1 0 90] [editor_source]
           [mkPage 595.28 841.89 360 "c" []; mkPage 595.28 841.89 180 "a" []]).
  - intros p [<-|[<-|[<-|[]]]];
      [exact f1_not_inherited | exact ghost_not_inherited | exact f1_not_inherited].
  - repeat constructor.
Defined.

(** C8 on five editor pages that reference one source file: the file is
    parsed exactly once. *)
Example editor_five_pages_one_parse :
  parsed_sources [editor_source] []
    [page_of_f1 0 0; page_of_f1 3 90; page_of_f1 1 0; page_of_f1 0 180;
     page_of_f1 2 270]
  = [editor_source] /\
  buildPdfFromEditor (platform := sample_platform)
    [page_of_f1 0 0; page_of_f1 3 90; page_of_f1 1 0; page_of_f1 0 180;
     page_of_f1 2 270]
    [editor_source]
  = ([EvLoad (pdf_bytes "abcd")], Return (pdf_bytes "adbac")).
Proof. split; vm_compute; reflexivity. Qed.

(** C1 with the synthesized default cover: one cover page, whether its
    logo decodes or not, before the four content pages. *)
Example merge_default_cover_run :
  forall logo : option File,
    In logo [None; Some png_logo; Some gif_logo] ->
    match outcome (merge_document (platform := sample_platform)
                     None [content_3; content_1] None logo true) with
    | Return out =>
        getPageCount out = 5%nat /\
        map contents (pages out) = [""; "a"; "b"; "c"; "d"]
    | Throw _ => False
    end.
Proof.
  intros logo [<-|[<-|[<-|[]]]]; vm_compute; split; reflexivity.
Qed.

(** * Further properties of the service *)

Section ServiceProperties.
Context {platform : Platform}.

(** ** Failure of a merge *)

Lemma merge_content_file_unparsed (total i : nat) (font : PDFFont) (f : File)
    (doc : PDFDocument) :
  load (arrayBuffer f) = None ->
  merge_content_file total font f i doc = ([EvLoad (arrayBuffer f)], Throw LoadFailure).
Proof.
  intros H. unfold merge_content_file. now rewrite (PDFDocument_load_fail _ H).
Qed.

Lemma merge_contents_throw (total : nat) (files : list File) :
  (exists f, In f files /\ load (arrayBuffer f) = None) ->
  forall (i : nat) (doc : PDFDocument),
  exists e,
    outcome (forEach_from i files (merge_content_file total HelveticaBold) doc)
    = Throw e.
Proof.
  induction files as [|f files IH]; intros (g & Hg & Hn) i doc; [destruct Hg|].
  cbn [forEach_from]. rewrite outcome_bind.
  destruct (outcome (merge_content_file total HelveticaBold f i doc))
    as [doc'|e] eqn:E; [|now exists e].
  apply IH. destruct Hg as [->|Hg]; [|now exists g].
  rewrite (merge_content_file_unparsed _ _ _ _ _ Hn) in E. discriminate E.
Qed.

Lemma merge_document_throw (coverFile : option File) (contentFiles : list File)
    (metadata : option PdfMetadata) (logo : option File) (useDefaultCover : bool) :
  (exists f, (coverFile = Some f \/ In f contentFiles) /\
             load (arrayBuffer f) = None) ->
  exists t e,
    merge_document coverFile contentFiles metadata logo useDefaultCover
    = (t, Throw e).
Proof.
  intros (f & Hf & Hn).
  assert (H : exists e,
             outcome (merge_document coverFile contentFiles metadata logo
                        useDefaultCover) = Throw e).
  { destruct Hf as [Hf|Hf]; unfold merge_document; rewrite outcome_bind.
    - subst coverFile. rewrite outcome_bind. cbn [onProgress emit outcome snd].
      rewrite outcome_bind, (PDFDocument_load_fail _ Hn). cbn. now exists LoadFailure.
    - match goal with |- context [match outcome ?m with _ => _ end] =>
        destruct (outcome m) as [doc|e] end; [|now exists e].
      rewrite outcome_bind. cbn [onProgress emit outcome snd].
      apply merge_contents_throw. now exists f. }
  destruct H as [e He].
  destruct (merge_document coverFile contentFiles metadata logo useDefaultCover)
    as [t o]. cbn in He. subst o. now exists t, e.
Qed.

(** X1 (a merge is all or nothing).  When the supplied cover or any content
    file fails to parse, [mergeAndWatermarkPdfs] returns no bytes: it throws
    the one generic error, whatever the parser raised, and its last act is
    the [console.error] of the catch block. *)
Theorem merge_fails_as_a_whole (coverFile : option File) (contentFiles : list File)
    (metadata : option PdfMetadata) (defaultCoverLogo : option File)
    (useDefaultCover : bool) :
  (exists f, (coverFile = Some f \/ In f contentFiles) /\
             load (arrayBuffer f) = None) ->
  outcome (mergeAndWatermarkPdfs coverFile contentFiles metadata defaultCoverLogo
             useDefaultCover)
  = Throw (JsError "Failed to process PDFs. Ensure files are valid.") /\
  last (trace (mergeAndWatermarkPdfs coverFile contentFiles metadata
                 defaultCoverLogo useDefaultCover))
  = Some (EvError "Merge error").
Proof.
  intros H.
  destruct (merge_document_throw coverFile contentFiles metadata defaultCoverLogo
              useDefaultCover H) as (t & e & He).
  rewrite (merge_throws _ _ _ _ _ _ _ He). split; [reflexivity|].
  cbn [trace fst]. apply last_snoc.
Qed.

(** ** The cover page synthesizer, in full *)

(** X2 (the synthesized cover).  [generateDefaultCoverPage] never throws:
    it appends exactly one blank-based A4 page (595.28 × 841.89, unrotated)
    after the pages the document has, and leaves those and the metadata as
    they are.  A logo file that its decoder rejects costs a warning only;
    the page carries one image call when the logo decodes and none
    otherwise. *)
Theorem default_cover_is_one_a4_page (doc : PDFDocument) (logo : option File) :
  exists page,
    generateDefaultCoverPage doc logo = (cover_warnings logo, Return (addPage doc page)) /\
    pageWidth page = 595.28%float /\ pageHeight page = 841.89%float /\
    Rotate page = 0 /\ contents page = "" /\
    length (List.filter is_image_call (calls page))
    = match logo with
      | Some lf => cover_image_calls lf
      | None => 0%nat
      end.
Proof.
  pose proof (generateDefaultCoverPage_cases doc logo) as H.
  destruct (generateDefaultCoverPage doc logo) as [t [d|e]]; [|contradiction].
  destruct H as (-> & page & -> & H). now exists page.
Qed.

(** ** The events of a successful merge *)

Lemma merge_trace (coverFile : option File) (cover : option PDFDocument)
    (contentFiles : list File) (docs : list PDFDocument)
    (metadata : option PdfMetadata) (logo : option File) (useDefaultCover : bool) :
  cover_parses coverFile cover -> all_parse contentFiles docs ->
  if strict_accepted docs
  then trace (mergeAndWatermarkPdfs coverFile contentFiles metadata logo
                useDefaultCover)
       = merge_events coverFile contentFiles logo useDefaultCover
  else outcome (mergeAndWatermarkPdfs coverFile contentFiles metadata logo
                  useDefaultCover)
       = Throw MERGE_ERROR.
Proof.
  intros Hc Hd.
  destruct (merge_run coverFile cover contentFiles docs metadata logo
              useDefaultCover Hc Hd) as (cp & _ & _ & Hrun).
  destruct (strict_accepted docs); [now rewrite Hrun | exact Hrun].
Qed.

Lemma progress_of_content_events (total : nat) (files : list File) (i : nat) :
  progress_of (content_events total i files)
  = map (content_progress total) (seq i (length files)).
Proof.
  revert i. induction files as [|f files IH]; intros i; [reflexivity|].
  cbn [content_events length seq map]. unfold progress_of in *.
  cbn [omap list_omap]. now rewrite IH.
Qed.

Lemma loads_of_content_events (total : nat) (files : list File) (i : nat) :
  loads_of (content_events total i files) = map arrayBuffer files.
Proof.
  revert i. induction files as [|f files IH]; intros i; [reflexivity|].
  cbn [content_events map]. unfold loads_of in *.
  cbn [omap list_omap]. now rewrite IH.
Qed.

Lemma progress_of_cover_warnings (logo : option File) :
  progress_of (cover_warnings logo) = [].
Proof.
  unfold cover_warnings. destruct logo as [lf|]; [|reflexivity].
  now destruct (decode_logo _ lf).
Qed.

Lemma loads_of_cover_warnings (logo : option File) :
  loads_of (cover_warnings logo) = [].
Proof.
  unfold cover_warnings. destruct logo as [lf|]; [|reflexivity].
  now destruct (decode_logo _ lf).
Qed.

Lemma progress_of_merge_events (coverFile : option File) (contentFiles : list File)
    (logo : option File) (useDefaultCover : bool) :
  progress_of (merge_events coverFile contentFiles logo useDefaultCover)
  = match coverFile with
    | Some _ => [5%float]
    | None => if useDefaultCover then [5%float] else []
    end
    ++ [15%float]
    ++ map (content_progress (length contentFiles)) (seq 0 (length contentFiles))
    ++ [95%float; 100%float].
Proof.
  unfold merge_events, cover_events, progress_of. rewrite !omap_app.
  fold (progress_of (content_events (length contentFiles) 0 contentFiles)).
  rewrite progress_of_content_events. f_equal.
  destruct coverFile as [cf|]; [reflexivity|].
  destruct useDefaultCover; [|reflexivity].
  cbn [omap list_omap]. fold (progress_of (cover_warnings logo)).
  now rewrite progress_of_cover_warnings.
Qed.

Lemma loads_of_merge_events (coverFile : option File) (contentFiles : list File)
    (logo : option File) (useDefaultCover : bool) :
  loads_of (merge_events coverFile contentFiles logo useDefaultCover)
  = match coverFile with Some f => [arrayBuffer f] | None => [] end
    ++ map arrayBuffer contentFiles.
Proof.
  unfold merge_events, cover_events, loads_of. rewrite !omap_app.
  fold (loads_of (content_events (length contentFiles) 0 contentFiles)).
  rewrite loads_of_content_events. cbn [omap list_omap]. rewrite !app_nil_r.
  f_equal.
  destruct coverFile as [cf|]; [reflexivity|].
  destruct useDefaultCover; [|reflexivity].
  cbn [omap list_omap]. fold (loads_of (cover_warnings logo)).
  now rewrite loads_of_cover_warnings.
Qed.

(** X3 (progress of a merge).  When every input file parses, the
    percentages that [mergeAndWatermarkPdfs] reports are, in this order: 5
    when there is a cover (supplied or synthesized), 15, then
    [15 + (i + 1) × (80 / n)] after the content file at each position [i] of
    the [n] files, then 95 and, last of all, 100.  The one other way for
    such a merge to end is the generic error, when pdf-lib rejects a stamp
    whose position or size is not a number. *)
Theorem merge_progress_reports (coverFile : option File)
    (cover : option PDFDocument) (contentFiles : list File)
    (docs : list PDFDocument) (metadata : option PdfMetadata)
    (defaultCoverLogo : option File) (useDefaultCover : bool) :
  cover_parses coverFile cover ->
  all_parse contentFiles docs ->
  if strict_accepted docs
  then progress_of (trace (mergeAndWatermarkPdfs coverFile contentFiles metadata
                             defaultCoverLogo useDefaultCover))
       = match coverFile with
         | Some _ => [5%float]
         | None => if useDefaultCover then [5%float] else []
         end
         ++ [15%float]
         ++ map (content_progress (length contentFiles))
                (seq 0 (length contentFiles))
         ++ [95%float; 100%float]
  else outcome (mergeAndWatermarkPdfs coverFile contentFiles metadata
                  defaultCoverLogo useDefaultCover)
       = Throw MERGE_ERROR.
Proof.
  intros Hc Hd.
  pose proof (merge_trace coverFile cover contentFiles docs metadata
                defaultCoverLogo useDefaultCover Hc Hd) as H.
  destruct (strict_accepted docs); [|exact H].
  rewrite H. apply progress_of_merge_events.
Qed.

(** X4 (each input parsed once, in order).  When every input file parses,
    a merge calls the parser exactly once per file: on the supplied cover
    first, then on the content files in list order.  The one other way for
    such a merge to end is the generic error, when pdf-lib rejects a stamp
    whose position or size is not a number. *)
Theorem merge_parses_each_file_once (coverFile : option File)
    (cover : option PDFDocument) (contentFiles : list File)
    (docs : list PDFDocument) (metadata : option PdfMetadata)
    (defaultCoverLogo : option File) (useDefaultCover : bool) :
  cover_parses coverFile cover ->
  all_parse contentFiles docs ->
  if strict_accepted docs
  then loads_of (trace (mergeAndWatermarkPdfs coverFile contentFiles metadata
                          defaultCoverLogo useDefaultCover))
       = match coverFile with Some f => [arrayBuffer f] | None => [] end
         ++ map arrayBuffer contentFiles
  else outcome (mergeAndWatermarkPdfs coverFile contentFiles metadata
                  defaultCoverLogo useDefaultCover)
       = Throw MERGE_ERROR.
Proof.
  intros Hc Hd.
  pose proof (merge_trace coverFile cover contentFiles docs metadata
                defaultCoverLogo useDefaultCover Hc Hd) as H.
  destruct (strict_accepted docs); [|exact H].
  rewrite H. apply loads_of_merge_events.
Qed.

(** ** The watermark engine: what it touches and what it checks *)

Lemma spec_watermark_calls_length (page : PDFPage) (font : PDFFont)
    (config : WatermarkConfig) (logo : option PDFImage) :
  (length (spec_watermark_calls page font config logo) <= 5)%nat.
Proof.
  unfold spec_watermark_calls.
  destruct logo, (diagonal config), (crossed config), (bottom config), (top config);
    cbn; lia.
Qed.

(** X5 (the engine only appends drawing calls).  Whatever the
    configuration and the logo, [applyWatermarkToPage] logs nothing and
    either throws what pdf-lib throws on a call it rejects — a type error
    for an option that is not a number, its assertion failure for an
    opacity outside [0, 1] — or returns the page with its size, rotation
    and content unchanged and with at most five calls added after the calls
    it had. *)
Theorem watermark_only_appends (page : PDFPage) (font : PDFFont)
    (config : WatermarkConfig) (logo : option PDFImage) :
  trace (applyWatermarkToPage page font config logo) = [] /\
  match outcome (applyWatermarkToPage page font config logo) with
  | Return page' =>
      pageWidth page' = pageWidth page /\ pageHeight page' = pageHeight page /\
      Rotate page' = Rotate page /\ contents page' = contents page /\
      exists added, calls page' = calls page ++ added /\ (length added <= 5)%nat
  | Throw e => e = TypeError \/ e = AssertionFailure
  end.
Proof.
  rewrite applyWatermarkToPage_draws.
  destruct (accepted (spec_watermark_calls page font config logo)) eqn:E.
  - rewrite (draw_all_accepted _ _ E). split; [reflexivity|].
    cbn [outcome mret eff_ret snd record_calls pageWidth pageHeight Rotate contents
         calls].
    repeat (split; [reflexivity|]).
    eexists. split; [reflexivity | apply spec_watermark_calls_length].
  - destruct (draw_all_rejected _ page E) as (e & -> & He).
    split; [reflexivity | exact He].
Qed.

Lemma rotated_stamp_rejected (W H : number) (font : PDFFont) (color : Color)
    (opacity : number) (angle : Z) (e : Exn) :
  assertRange (Some opacity) = Some e ->
  call_check (spec_rotated_stamp W H font color opacity angle) = Some e.
Proof.
  intros He. unfold spec_rotated_stamp. cbn [call_check first_failure].
  now rewrite He.
Qed.

Lemma rotated_stamp_check (W H : number) (font : PDFFont) (color : Color)
    (opacity : number) (angle : Z) (e : Exn) :
  assertRange (Some opacity) = Some e ->
  engine_check (spec_rotated_stamp W H font color opacity angle)
  = Some (if is_number (0.11 * Math_min W H)%float then e else TypeError).
Proof.
  intros He.
  pose proof (rotated_stamp_rejected W H font color opacity angle e He) as Hc.
  unfold spec_rotated_stamp in *. cbn [engine_check first_failure]. rewrite Hc.
  unfold assertNumber. now destruct (is_number _).
Qed.

Lemma draw_all_first_rejected (page : PDFPage) (c : DrawCall)
    (rest : list DrawCall) (e : Exn) :
  engine_check c = Some e -> draw_all page (c :: rest) = throw e.
Proof. intros H. cbn [draw_all]. unfold engine_draw. now rewrite H. Qed.

(** X6 (the engine checks only what it draws).  With the four stamps off
    and no logo the page is returned as it is, whatever the opacities.
    With a rotated stamp on and no logo, a text opacity that pdf-lib's
    range assertion rejects makes the engine throw what that assertion
    throws: a type error when the opacity is not a number, the assertion
    failure when it is a number outside [0, 1] (on a page whose size gives
    a stamp size that is not a number, the font throws a type error before
    that).  With a logo, whose call comes first, the engine throws as well,
    one or the other. *)
Theorem engine_checks_what_it_draws (page : PDFPage) (font : PDFFont)
    (config : WatermarkConfig) (logo : option PDFImage) :
  (diagonal config = false -> crossed config = false ->
   bottom config = false -> top config = false ->
   applyWatermarkToPage page font config None = mret page) /\
  (forall e : Exn,
     assertRange (Some (textOpacity config)) = Some e ->
     diagonal config || crossed config = true ->
     applyWatermarkToPage page font config None
     = throw (if is_number (0.11 * Math_min (pageWidth page) (pageHeight page))%float
              then e else TypeError) /\
     exists e', applyWatermarkToPage page font config logo = throw e' /\
                (e' = TypeError \/ e' = AssertionFailure)).
Proof.
  split.
  - intros Hd Hc Hb Ht. rewrite applyWatermarkToPage_draws.
    unfold spec_watermark_calls. now rewrite Hd, Hc, Hb, Ht.
  - intros e He Hf. rewrite !applyWatermarkToPage_draws. split.
    + unfold spec_watermark_calls. cbn [app].
      destruct (diagonal config), (crossed config); try discriminate Hf;
        cbn [app]; apply draw_all_first_rejected, rotated_stamp_check, He.
    + apply draw_all_rejected. unfold accepted, spec_watermark_calls.
      rewrite forallb_app. apply andb_false_intro2.
      destruct (diagonal config), (crossed config); try discriminate Hf;
        cbn [app forallb]; unfold call_ok;
        now rewrite (rotated_stamp_rejected _ _ _ _ _ _ _ He).
Qed.

(** X7 (the footer opacity is clamped).  The opacity of the bottom and top
    stamps, [Math.min (opacity + 0.4, 1)], is never above 1, whatever
    [opacity] is. *)
Theorem boosted_opacity_at_most_one (opacity : number) :
  PrimFloat.ltb 1 (Math_min (opacity + 0.4) 1)%float = false.
Proof.
  unfold Math_min.
  destruct (PrimFloat.is_nan (opacity + 0.4) || PrimFloat.is_nan 1); [reflexivity|].
  destruct (PrimFloat.ltb (opacity + 0.4) 1) eqn:Hlt; [now apply ltb_asym|].
  destruct (PrimFloat.ltb 1 (opacity + 0.4)) eqn:Hgt; [reflexivity|].
  now destruct (PrimFloat.get_sign (opacity + 0.4)).
Qed.

(** ** Batch processing *)

Lemma batch_logo_stage (config : WatermarkConfig) :
  match logoFile config with
  | Some logoFile =>
      try_catch
        (let logoBytes := arrayBuffer logoFile in
         image ← (if String.eqb (type logoFile) "image/jpeg"
                     || endsWith (toLowerCase (name logoFile)) ".jpg"
                     || endsWith (toLowerCase (name logoFile)) ".jpeg"
                  then doc_embedJpg logoBytes
                  else doc_embedPng logoBytes);
         mret (Some image))
        (fun e => _ ← console_warn "Failed to embed logo"; mret None)
  | None => mret None
  end
  = (batch_warnings config, Return (batch_logo config)).
Proof.
  unfold batch_warnings, batch_logo, decode_logo, batch_selects_jpeg,
    doc_embedJpg, doc_embedPng.
  destruct (logoFile config) as [lf|]; [|reflexivity].
  destruct (_ || _ || _).
  - now destruct (embedJpg (arrayBuffer lf)).
  - now destruct (embedPng (arrayBuffer lf)).
Qed.

Lemma set_metadata_info (metadata : option PdfMetadata) :
  Title (set_metadata PDFDocument_create metadata) = expected_title metadata /\
  Author (set_metadata PDFDocument_create metadata) = expected_author metadata /\
  Creator (set_metadata PDFDocument_create metadata) = expected_creator metadata /\
  Producer (set_metadata PDFDocument_create metadata) = Some PDF_LIB.
Proof.
  unfold set_metadata, expected_title, expected_author, expected_creator.
  destruct metadata as [m|]; [|now repeat split].
  destruct (truthy_string (title m)), (truthy_string (author m)); now repeat split.
Qed.

Lemma batch_document_run (contentFile : File) (coverFile : option File)
    (cover : option PDFDocument) (d : PDFDocument) (config : WatermarkConfig)
    (metadata : option PdfMetadata) :
  cover_parses coverFile cover ->
  load (arrayBuffer contentFile) = Some d ->
  if batch_accepted config d
  then batch_document contentFile coverFile config metadata
       = (batch_events contentFile coverFile config,
          Return (append_pages (set_metadata PDFDocument_create metadata)
                    (match cover with Some c => pages c | None => [] end
                     ++ map (batch_stamped config) (pages d))))
  else exists e,
         batch_document contentFile coverFile config metadata
         = (batch_events contentFile coverFile config, Throw e) /\
         (e = TypeError \/ e = AssertionFailure).
Proof.
  intros Hc Hd. unfold batch_document, batch_events, batch_accepted.
  rewrite batch_logo_stage, bind_returned. cbn beta.
  unfold add_watermarked_pages, forEach.
  assert (Hw := fun doc => add_watermarked_from HelveticaBold config
                             (batch_logo config) (pages d) 0%nat doc).
  destruct coverFile as [cf|], cover as [c|]; cbn in Hc; try contradiction.
  - rewrite (PDFDocument_load_ok _ _ Hc), bind_returned, copyPages_all, mret_bind,
      add_pages_eq. cbn [mret eff_ret trace outcome fst snd]. rewrite bind_returned.
    rewrite (PDFDocument_load_ok _ _ Hd), bind_returned, copyPages_all, mret_bind.
    specialize (Hw (append_pages (set_metadata PDFDocument_create metadata)
                      (pages c))).
    destruct (forallb _ (pages d)).
    + rewrite Hw. cbn [mret eff_ret trace outcome fst snd app].
      now rewrite append_pages_app.
    + destruct Hw as (e & -> & He). exists e. split; [reflexivity | exact He].
  - rewrite mret_bind.
    rewrite (PDFDocument_load_ok _ _ Hd), bind_returned, copyPages_all, mret_bind.
    specialize (Hw (set_metadata PDFDocument_create metadata)).
    destruct (forallb _ (pages d)).
    + rewrite Hw. reflexivity.
    + destruct Hw as (e & -> & He). exists e. split; [reflexivity | exact He].
Qed.


(** X9 (the two logo paths disagree on the decoder).  For a logo file whose
    MIME type is not [image/jpeg] and whose name ends in [.jpeg], or in
    [.JPG] in upper case, and whose bytes are a JPEG image: the batch mode
    decodes it as JPEG, without a warning, and stamps every content page
    with it when pdf-lib accepts the stamps (and throws pdf-lib's error
    when not, as for an image of width 0); the cover synthesizer tries it
    as PNG, warns, and returns a cover page without any image call. *)
Theorem logo_decoders_disagree (contentFile : File) (d doc : PDFDocument)
    (config : WatermarkConfig) (lf : File) (image : PDFImage) :
  logoFile config = Some lf ->
  String.eqb (type lf) "image/jpeg" = false ->
  endsWith (name lf) ".jpg" = false ->
  endsWith (toLowerCase (name lf)) ".jpg"
  || endsWith (toLowerCase (name lf)) ".jpeg" = true ->
  embedJpg (arrayBuffer lf) = Some image ->
  embedPng (arrayBuffer lf) = None ->
  load (arrayBuffer contentFile) = Some d ->
  batch_logo config = Some image /\
  (if forallb (fun p => accepted (spec_watermark_calls p HelveticaBold config
                                    (Some image))) (pages d)
   then exists out : PDFDocument,
          processBatchFile contentFile None config None
          = ([EvLoad (arrayBuffer contentFile)], Return (save out)) /\
          pages out
          = saved_pages
              (map (fun p => record_calls p
                               (spec_watermark_calls p HelveticaBold config
                                  (Some image))) (pages d))
   else exists e : Exn,
          processBatchFile contentFile None config None
          = ([EvLoad (arrayBuffer contentFile)], Throw e) /\
          (e = TypeError \/ e = AssertionFailure)) /\
  exists page : PDFPage,
    generateDefaultCoverPage doc (Some lf)
    = ([EvWarn "Failed to embed logo for default cover"],
       Return (addPage doc page)) /\
    List.filter is_image_call (calls page) = [].
Proof.
  intros Hl Ht Hj Hlow Hjpg Hpng Hd.
  assert (Hb : batch_logo config = Some image).
  { unfold batch_logo, decode_logo, batch_selects_jpeg.
    rewrite Hl, Ht. cbn [orb]. now rewrite Hlow. }
  assert (Hw : batch_events contentFile None config
               = [EvLoad (arrayBuffer contentFile)]).
  { unfold batch_events, batch_warnings, decode_logo, batch_selects_jpeg.
    rewrite Hl, Ht. cbn [orb]. now rewrite Hlow, Hjpg. }
  split; [exact Hb|]. split.
  - pose proof (batch_document_run contentFile None None d config None I Hd)
      as Hrun.
    unfold batch_accepted, batch_stamped in Hrun. rewrite Hb, Hw in Hrun.
    unfold processBatchFile.
    destruct (forallb _ (pages d)).
    + rewrite Hrun, bind_returned, PDFDocument_save_saved.
      eexists. split; [reflexivity|].
      now rewrite merged_pages.
    + destruct Hrun as (e & -> & He). exists e. split; [reflexivity | exact He].
  - pose proof (generateDefaultCoverPage_cases doc (Some lf)) as H.
    destruct (generateDefaultCoverPage doc (Some lf)) as [t [d'|e]]; [|contradiction].
    destruct H as (-> & page & -> & _ & _ & _ & _ & Hn).
    exists page. unfold cover_warnings, cover_image_calls, decode_logo,
      cover_selects_jpeg in *.
    rewrite Ht, Hj in *. cbn [orb] in *. rewrite Hpng in *.
    split; [reflexivity|]. now apply length_zero_iff_nil.
Qed.

(** ** The combiner on any number of buffers *)

(** X10 (combining any number of buffers).  When every buffer parses,
    [mergeProcessedFiles] parses each buffer once, in order, and returns the
    serialization of a document whose pages are those of the buffers, as
    parsed, buffer after buffer, or one blank A4 page when the buffers have
    no page at all, as on an empty list; the document carries the creator
    string, pdf-lib's producer string and neither title nor author,
    whatever the inputs carried. *)
Theorem combine_any_number (buffers : list (list byte)) (docs : list PDFDocument) :
  Forall2 (fun b d => load b = Some d) buffers docs ->
  exists out : PDFDocument,
    mergeProcessedFiles buffers = (map EvLoad buffers, Return (save out)) /\
    pages out = saved_pages (concat (map pages docs)) /\
    (concat (map pages docs) = [] -> pages out = [blank_page 595.28 841.89]) /\
    Title out = None /\ Author out = None /\
    Creator out = Some "VTU Notes Merging System" /\
    Producer out = Some PDF_LIB.
Proof.
  intros H. rewrite (mergeProcessedFiles_run _ _ H).
  eexists. split; [reflexivity|].
  cbn [saved_document pages append_pages setCreator PDFDocument_create app
       Title Author Creator Producer].
  split; [reflexivity|]. split; [now intros ->|]. now repeat split.
Qed.

(** X11 (a buffer that does not parse).  When the buffers before it parse
    and one does not, [mergeProcessedFiles] throws the parser's failure as
    it is, after parsing exactly the buffers up to that one: the later
    buffers are never parsed and no bytes are returned. *)
Theorem combine_stops_at_bad_buffer (good : list (list byte))
    (docs : list PDFDocument) (bad : list byte) (rest : list (list byte)) :
  Forall2 (fun b d => load b = Some d) good docs ->
  load bad = None ->
  mergeProcessedFiles (good ++ bad :: rest)
  = (map EvLoad (good ++ [bad]), Throw LoadFailure).
Proof.
  intros Hg Hb. unfold mergeProcessedFiles, combined_document, forEach.
  generalize (setCreator "VTU Notes Merging System" PDFDocument_create).
  generalize 0%nat.
  induction Hg as [|b d good docs Hbd _ IH]; intros i doc; cbn [app forEach_from map].
  - unfold combine_buffer. now rewrite (PDFDocument_load_fail _ Hb).
  - rewrite (combine_buffer_run _ _ _ _ Hbd), bind_returned.
    specialize (IH (S i) (append_pages doc (pages d))).
    destruct (forEach_from (S i) (good ++ bad :: rest) combine_buffer
                (append_pages doc (pages d)) ≫= _) as [t o] eqn:E.
    injection IH as -> ->.
    assert (E' : forEach_from (S i) (good ++ bad :: rest) combine_buffer
                   (append_pages doc (pages d))
                 = (map EvLoad (good ++ [bad]), Throw LoadFailure)).
    { destruct (forEach_from (S i) (good ++ bad :: rest) combine_buffer
                  (append_pages doc (pages d))) as [t' [a|e]].
      - unfold mbind, eff_bind in E. cbn in E. discriminate E.
      - unfold mbind, eff_bind in E. now injection E as -> ->. }
    now rewrite E'.
Qed.

(** ** Metadata of a merge *)

(** X12 (metadata of a merged document).  When every input file parses
    and pdf-lib accepts the stamps, the merged document carries the title
    and the author of the metadata argument when these are non-empty, and
    neither otherwise; its creator is the service's name whenever metadata
    is given and, with no metadata, the name that pdf-lib enters when it
    creates a document; its producer is pdf-lib's in every case.  Nothing of
    this comes from the input documents. *)
Theorem merge_metadata (coverFile : option File) (cover : option PDFDocument)
    (contentFiles : list File) (docs : list PDFDocument)
    (metadata : option PdfMetadata) (defaultCoverLogo : option File)
    (useDefaultCover : bool) :
  cover_parses coverFile cover ->
  all_parse contentFiles docs ->
  if strict_accepted docs
  then exists out : PDFDocument,
         outcome (mergeAndWatermarkPdfs coverFile contentFiles metadata
                    defaultCoverLogo useDefaultCover) = Return (save out) /\
         Title out = expected_title metadata /\
         Author out = expected_author metadata /\
         Creator out = expected_creator metadata /\
         Producer out = Some PDF_LIB /\
         (metadata = None ->
          Title out = None /\ Author out = None /\
          Creator out = Some "pdf-lib (https://github.com/Hopding/pdf-lib)")
  else outcome (mergeAndWatermarkPdfs coverFile contentFiles metadata
                  defaultCoverLogo useDefaultCover)
       = Throw MERGE_ERROR.
Proof.
  intros Hc Hd.
  destruct (merge_run coverFile cover contentFiles docs metadata defaultCoverLogo
              useDefaultCover Hc Hd) as (cp & _ & _ & Hrun).
  destruct (strict_accepted docs); [|exact Hrun].
  eexists. split; [now rewrite Hrun|].
  unfold saved_document, append_pages. cbn [Title Author Creator Producer].
  destruct (set_metadata_info metadata) as (Ht & Ha & Hcr & Hp).
  repeat (split; [assumption|]).
  intros ->. now repeat split.
Qed.

(** ** Colours: the optional [#] and the case of the digits *)

Lemma lower_char_hex (c : ascii) :
  is_hex_digit (lower_char c) = is_hex_digit c /\
  Ascii.eqb (lower_char c) "#" = Ascii.eqb c "#" /\
  (is_hex_digit c = true -> hex_value (lower_char c) = hex_value c).
Proof. destruct c as [[] [] [] [] [] [] [] []]; vm_compute; intuition congruence. Qed.

Lemma hex_groups_lower (s : string) :
  match hex_groups s with
  | Some (r, g, b) =>
      exists r' g' b',
        hex_groups (toLowerCase s) = Some (r', g', b') /\
        parseInt16 r' = parseInt16 r /\ parseInt16 g' = parseInt16 g /\
        parseInt16 b' = parseInt16 b
  | None => hex_groups (toLowerCase s) = None
  end.
Proof.
  destruct s as [|a [|b [|c [|d [|e [|f [|x r]]]]]]]; try reflexivity.
  cbn [toLowerCase]. unfold hex_groups. cbn [forallb].
  destruct (lower_char_hex a) as (-> & _ & Ha), (lower_char_hex b) as (-> & _ & Hb),
    (lower_char_hex c) as (-> & _ & Hc), (lower_char_hex d) as (-> & _ & Hd),
    (lower_char_hex e) as (-> & _ & He), (lower_char_hex f) as (-> & _ & Hf).
  destruct (is_hex_digit a); [|reflexivity].
  destruct (is_hex_digit b); [|reflexivity].
  destruct (is_hex_digit c); [|reflexivity].
  destruct (is_hex_digit d); [|reflexivity].
  destruct (is_hex_digit e); [|reflexivity].
  destruct (is_hex_digit f); [|reflexivity].
  cbn [andb]. eexists _, _, _. split; [reflexivity|].
  unfold parseInt16. cbn [list_ascii_of_string fold_left].
  now rewrite Ha, Hb, Hc, Hd, He, Hf.
Qed.

(** X14 (colour strings).  [hexToRgb] reads a string of hexadecimal digits
    the same with and without a leading [#], and reads any string the same
    as its lower-case form. *)
Theorem hexToRgb_hash_and_case (s : string) :
  (forallb is_hex_digit (list_ascii_of_string s) = true ->
   hexToRgb (String "#" s) = hexToRgb s) /\
  hexToRgb (toLowerCase s) = hexToRgb s.
Proof.
  split.
  - intros H. unfold hexToRgb, hex_regex_exec. rewrite Ascii.eqb_refl.
    destruct s as [|c rest]; [reflexivity|].
    cbn [list_ascii_of_string forallb] in H. apply andb_prop in H.
    now rewrite (hex_digit_not_hash c (proj1 H)).
  - unfold hexToRgb.
    assert (H : match hex_regex_exec s with
                | Some (r, g, b) =>
                    exists r' g' b',
                      hex_regex_exec (toLowerCase s) = Some (r', g', b') /\
                      parseInt16 r' = parseInt16 r /\ parseInt16 g' = parseInt16 g /\
                      parseInt16 b' = parseInt16 b
                | None => hex_regex_exec (toLowerCase s) = None
                end).
    { destruct s as [|c rest]; [reflexivity|].
      unfold hex_regex_exec. cbn [toLowerCase].
      destruct (lower_char_hex c) as (_ & -> & _).
      destruct (Ascii.eqb c "#").
      - apply hex_groups_lower.
      - apply (hex_groups_lower (String c rest)). }
    destruct (hex_regex_exec s) as [[[r g] b]|].
    + destruct H as (r' & g' & b' & -> & -> & -> & ->). reflexivity.
    + now rewrite H.
Qed.

(** ** Editor compile, page by page *)

Lemma cache_ok_empty (sourceFiles : list FileWithId) : cache_ok sourceFiles ∅.
Proof. split; [apply cache_sound_empty | intros k _; apply lookup_empty]. Qed.

Lemma editor_step_fate (sourceFiles : list FileWithId) (page : EditorPage) (i : nat)
    (newPdf : PDFDocument) (loadedDocs : gmap string PDFDocument) :
  cache_ok sourceFiles loadedDocs ->
  match page_fate sourceFiles page with
  | Skipped =>
      editor_step sourceFiles page i (newPdf, loadedDocs) = mret (newPdf, loadedDocs)
  | Compiled q =>
      exists loadedDocs',
        outcome (editor_step sourceFiles page i (newPdf, loadedDocs))
        = Return (addPage newPdf q, loadedDocs') /\
        cache_ok sourceFiles loadedDocs'
  | Fails e =>
      outcome (editor_step sourceFiles page i (newPdf, loadedDocs)) = Throw e
  end.
Proof.
  intros [Hs Hk]. unfold page_fate. case_bool_decide as Hp.
  - unfold editor_step, lookup_record. rewrite (Hk _ Hp).
    now rewrite bool_decide_eq_true_2.
  - unfold editor_step.
    destruct (lookup_record loadedDocs (fileId page)) as [d'| |] eqn:El.
    + apply lookup_record_cached in El. destruct (Hs _ _ El) as (f & Hf & Hd).
      rewrite Hf, Hd. rewrite outcome_bind.
      destruct (page_at d' (originalPageIndex page)) as [src|] eqn:Es.
      * destruct (Z.eqb_spec (Z.rem (Rotate src + rotation page) 90) 0) as [Hr|Hr].
        -- exists loadedDocs. split; [|now split].
           now rewrite (copy_editor_page_compiled _ _ _ _ Es Hr).
        -- unfold copy_editor_page, copyPages, setRotation, getRotation.
           assert (Hm : mapM (page_at d') [originalPageIndex page] = Some [src])
             by (apply mapM_Some_2; repeat constructor; exact Es).
           rewrite Hm, mret_bind. apply Z.eqb_neq in Hr. now rewrite Hr.
      * unfold copy_editor_page, copyPages.
        assert (Hm : mapM (page_at d') [originalPageIndex page] = None).
        { apply mapM_None_2. now left. }
        now rewrite Hm.
    + now apply lookup_record_inherited in El.
    + apply lookup_record_not_cached in El.
      unfold find_source.
      destruct (List.find _ sourceFiles) as [f|] eqn:Ef; [|reflexivity].
      destruct (load (arrayBuffer (file f))) as [d|] eqn:Ed.
      * rewrite (PDFDocument_load_ok _ _ Ed), bind_returned. cbn [outcome snd].
        rewrite outcome_bind.
        destruct (page_at d (originalPageIndex page)) as [src|] eqn:Es.
        -- destruct (Z.eqb_spec (Z.rem (Rotate src + rotation page) 90) 0)
             as [Hr|Hr].
           ++ exists (<[fileId page := d]> loadedDocs).
              rewrite (copy_editor_page_compiled _ _ _ _ Es Hr).
              split; [reflexivity|]. split.
              ** now apply cache_sound_insert with f.
              ** intros k Hkp. rewrite lookup_insert_ne; [now apply Hk|].
                 intros <-. contradiction.
           ++ unfold copy_editor_page, copyPages, setRotation, getRotation.
              assert (Hm : mapM (page_at d) [originalPageIndex page] = Some [src])
                by (apply mapM_Some_2; repeat constructor; exact Es).
              rewrite Hm, mret_bind. apply Z.eqb_neq in Hr. now rewrite Hr.
        -- unfold copy_editor_page, copyPages.
           assert (Hm : mapM (page_at d) [originalPageIndex page] = None).
           { apply mapM_None_2. now left. }
           now rewrite Hm.
      * now rewrite (PDFDocument_load_fail _ Ed).
Qed.

Lemma editor_loop_fates (sourceFiles : list FileWithId)
    (editorPages : list EditorPage) :
  forall (i : nat) (newPdf : PDFDocument) (loadedDocs : gmap string PDFDocument),
    cache_ok sourceFiles loadedDocs ->
    match compile_pages sourceFiles editorPages with
    | inl e =>
        outcome (forEach_from i editorPages (editor_step sourceFiles)
                   (newPdf, loadedDocs)) = Throw e
    | inr ps =>
        exists loadedDocs',
          outcome (forEach_from i editorPages (editor_step sourceFiles)
                     (newPdf, loadedDocs))
          = Return (append_pages newPdf ps, loadedDocs')
    end.
Proof.
  induction editorPages as [|p eps IH]; intros i newPdf loadedDocs Hok.
  - exists loadedDocs. cbn. now rewrite append_pages_nil.
  - cbn [compile_pages forEach_from].
    pose proof (editor_step_fate sourceFiles p i newPdf loadedDocs Hok) as Hf.
    destruct (page_fate sourceFiles p) as [|q|e].
    + rewrite Hf, mret_bind. now apply IH.
    + destruct Hf as (loadedDocs1 & Ho & Hok1).
      specialize (IH (S i) (addPage newPdf q) loadedDocs1 Hok1).
      rewrite outcome_bind, Ho.
      destruct (compile_pages sourceFiles eps) as [e|qs]; [exact IH|].
      destruct IH as (loadedDocs' & Ho'). exists loadedDocs'. rewrite Ho'.
      unfold append_pages, addPage. cbn. now rewrite <- app_assoc.
    + now rewrite outcome_bind, Hf.
Qed.

(** X15 (the cache is transparent).  [buildPdfFromEditor] ends exactly as
    a compile that parses the source of every page afresh: pages without a
    supplied source are passed over, the others are appended in list order
    with their rotation added, and the compile fails at the first page
    whose source does not parse (the parser's failure), whose index is
    outside its source (a type error), whose rotation does not add up to a
    multiple of 90 (pdf-lib's assertion), or whose source id is a name
    inherited from [Object.prototype] (a type error). *)
Theorem editor_cache_is_transparent (editorPages : list EditorPage)
    (sourceFiles : list FileWithId) :
  outcome (buildPdfFromEditor editorPages sourceFiles)
  = match compile_pages sourceFiles editorPages with
    | inl e => Throw e
    | inr ps => Return (PDFDocument_save (append_pages PDFDocument_create ps))
    end.
Proof.
  unfold buildPdfFromEditor, editor_document, forEach. rewrite outcome_bind.
  pose proof (editor_loop_fates sourceFiles editorPages 0 PDFDocument_create ∅
                (cache_ok_empty sourceFiles)) as H.
  destruct (compile_pages sourceFiles editorPages) as [e|ps].
  - now rewrite H.
  - destruct H as (loadedDocs' & ->). reflexivity.
Qed.

Lemma compile_pages_app (sourceFiles : list FileWithId) (l1 l2 : list EditorPage)
    (ps : list PDFPage) :
  compile_pages sourceFiles l1 = inr ps ->
  compile_pages sourceFiles (l1 ++ l2)
  = match compile_pages sourceFiles l2 with
    | inl e => inl e
    | inr qs => inr (ps ++ qs)
    end.
Proof.
  revert ps. induction l1 as [|p l1 IH]; intros ps H; cbn [compile_pages app] in *.
  - injection H as <-. now destruct (compile_pages sourceFiles l2).
  - destruct (page_fate sourceFiles p) as [|q|e]; [now apply IH| |discriminate].
    destruct (compile_pages sourceFiles l1) as [e|qs]; [discriminate|].
    injection H as <-. rewrite (IH qs eq_refl).
    now destruct (compile_pages sourceFiles l2).
Qed.

(** X16 (a source id that every object inherits).  When the pages before
    it compile, an editor page whose source id is a property name inherited
    from [Object.prototype], such as [constructor], makes the compile throw
    a type error, even when a source file with that id is supplied. *)
Theorem editor_inherited_id_fails (before after : list EditorPage)
    (page : EditorPage) (sourceFiles : list FileWithId) (ps : list PDFPage) :
  compile_pages sourceFiles before = inr ps ->
  fileId page ∈ Object_prototype_keys ->
  outcome (buildPdfFromEditor (before ++ page :: after) sourceFiles)
  = Throw TypeError.
Proof.
  intros Hb Hp.
  unfold buildPdfFromEditor, editor_document, forEach. rewrite outcome_bind.
  pose proof (editor_loop_fates sourceFiles (before ++ page :: after) 0
                PDFDocument_create ∅ (cache_ok_empty sourceFiles)) as H.
  rewrite (compile_pages_app _ _ _ _ Hb) in H. cbn [compile_pages] in H.
  unfold page_fate in H. rewrite bool_decide_eq_true_2 in H by exact Hp.
  now rewrite H.
Qed.

End ServiceProperties.

(** * Properties of the page editor *)

Section EditorProperties.
Context {platform : Platform} {viewer : Viewer}.

(** ** Quarter turns *)

Lemma rotate_quarter_turns (p : EditorPage) :
  (rotation p = 0 \/ rotation p = 90 \/ rotation p = 180 \/ rotation p = 270) ->
  (rotation (rotate_quarter p) = 0 \/ rotation (rotate_quarter p) = 90 \/
   rotation (rotate_quarter p) = 180 \/ rotation (rotate_quarter p) = 270).
Proof.
  unfold rotate_quarter. cbn [rotation].
  intros [->|[->|[->| ->]]]; vm_compute; tauto.
Qed.

(** X17 (four quarter turns).  "Rotate All" pressed four times gives back
    every page whose rotation is within [0, 360), and in particular every
    page of the editor, whose rotations are 0, 90, 180 or 270. *)
Theorem rotate_all_four_times (pages : list EditorPage) :
  Forall (fun p => 0 <= rotation p < 360) pages ->
  rotate_all_pages (rotate_all_pages (rotate_all_pages (rotate_all_pages pages)))
  = pages.
Proof.
  intros H. unfold rotate_all_pages. rewrite !map_map.
  induction H as [|p pages Hp _ IH]; [reflexivity|].
  cbn [map]. rewrite IH. f_equal.
  unfold rotate_quarter. cbn [pageId fileId originalPageIndex rotation thumbnailUrl].
  destruct p as [pid fid idx r url]. cbn [rotation] in Hp. cbn. f_equal.
  Z.quot_rem_to_equations. lia.
Qed.

(** ** Pages that are fit to compile *)

Lemma compilable_fate (sourceFiles : list FileWithId) (p : EditorPage) :
  compilable sourceFiles p ->
  exists q, page_fate sourceFiles p = Compiled q.
Proof.
  intros (Hp & Hr & f & d & src & Hf & Hd & Hs & Hm).
  unfold page_fate. rewrite bool_decide_eq_false_2 by exact Hp.
  rewrite Hf, Hd, Hs.
  assert (Hz : Z.rem (Rotate src + rotation p) 90 = 0).
  { apply Z.rem_divide; [lia|]. apply Z.rem_divide in Hm; [|lia].
    apply Z.divide_add_r; [exact Hm|].
    destruct Hr as [->|[->|[->| ->]]];
      [exists 0 | exists 1 | exists 2 | exists 3]; reflexivity. }
  apply Z.eqb_eq in Hz. rewrite Hz. eauto.
Qed.

Lemma compilable_pages_compile (sourceFiles : list FileWithId)
    (editorPages : list EditorPage) :
  Forall (compilable sourceFiles) editorPages ->
  exists ps, compile_pages sourceFiles editorPages = inr ps /\
             length ps = length editorPages.
Proof.
  induction 1 as [|p eps Hp _ (ps & IH & Hl)]; [now exists []|].
  destruct (compilable_fate _ _ Hp) as [q Hq].
  exists (q :: ps). cbn [compile_pages]. rewrite Hq, IH. cbn. auto.
Qed.

Lemma editor_action_compilable (sourceFiles : list FileWithId)
    (prev : list EditorPage) (a : EditorAction) :
  Forall (compilable sourceFiles) prev ->
  Forall (compilable sourceFiles) (editor_action prev a).
Proof.
  assert (Hq : forall p, compilable sourceFiles p ->
                         compilable sourceFiles (rotate_quarter p)).
  { intros p (Hp & Hr & Hs). split; [exact Hp|].
    split; [now apply rotate_quarter_turns | exact Hs]. }
  intros H. destruct a as [|pid|pid|]; cbn [editor_action].
  - unfold rotate_all_pages. induction H; cbn [map]; constructor; auto.
  - unfold rotate_page. induction H as [|p l Hp _ IH]; cbn [map]; constructor; auto.
    destruct (String.eqb (pageId p) pid); auto.
  - unfold remove_page. induction H as [|p l Hp _ IH]; cbn [List.filter]; [constructor|].
    destruct (negb (String.eqb (pageId p) pid)); [constructor|]; auto.
  - constructor.
Qed.

(** X18 (editing never breaks the compile).  Starting from editor pages
    that are fit to compile, whatever sequence of "Rotate All", rotate,
    delete and "Clear" the user presses, [buildPdfFromEditor] returns a
    document: with exactly as many pages as the editor shows when it shows
    any, and with one blank A4 page when it shows none, as after "Clear". *)
Theorem editor_session_compiles (sourceFiles : list FileWithId)
    (editorPages : list EditorPage) (actions : list EditorAction) :
  Forall (compilable sourceFiles) editorPages ->
  exists out : PDFDocument,
    outcome (buildPdfFromEditor (fold_left editor_action actions editorPages)
               sourceFiles)
    = Return (save out) /\
    getPageCount out
    = Nat.max 1 (length (fold_left editor_action actions editorPages)) /\
    (fold_left editor_action actions editorPages = [] ->
     pages out = [blank_page 595.28 841.89]).
Proof.
  intros H.
  assert (Hf : Forall (compilable sourceFiles)
                 (fold_left editor_action actions editorPages)).
  { revert editorPages H.
    induction actions as [|a actions IH]; intros editorPages H; [exact H|].
    cbn [fold_left]. apply IH. now apply editor_action_compilable. }
  destruct (compilable_pages_compile _ _ Hf) as (ps & Hc & Hl).
  pose proof (editor_loop_fates sourceFiles
                (fold_left editor_action actions editorPages) 0
                PDFDocument_create ∅ (cache_ok_empty sourceFiles)) as Hloop.
  rewrite Hc in Hloop. destruct Hloop as (loadedDocs' & Ho).
  exists (saved_document (append_pages PDFDocument_create ps)). split.
  { unfold buildPdfFromEditor, editor_document, forEach.
    rewrite outcome_bind, Ho. cbn [outcome mret eff_ret snd].
    now rewrite PDFDocument_save_saved. }
  unfold getPageCount, saved_document, append_pages.
  cbn [pages PDFDocument_create app]. split.
  - now rewrite saved_pages_length, Hl.
  - intros Hnil. rewrite Hnil in Hl. now destruct ps.
Qed.

(** ** Thumbnails *)

Lemma imap_seq_shift {B : Type} (F : nat -> nat -> B) (m a b : nat) :
  imap (fun k i => F (b + k)%nat i) (seq (S a) m)
  = map (fun k => F (b + (k - a))%nat (S k)) (seq a m).
Proof.
  revert a b. induction m as [|m IH]; intros a b; [reflexivity|].
  cbn [seq map]. rewrite imap_cons. f_equal.
  - f_equal. lia.
  - rewrite (imap_ext _ (fun k i => F (S b + k)%nat i))
      by (intros k j _; cbn; f_equal; lia).
    rewrite IH. apply map_ext_in. intros k Hk. apply in_seq in Hk.
    f_equal. lia.
Qed.

(** The loop on page numbers that all render. *)
Lemma thumbnail_loop_all_rendered (fileItem : FileWithId) (ids : nat -> string)
    (report : bool) (totalPages : nat) (url : nat -> string) :
  forall (numbers : list nat) (pages : list EditorPage) (reported : list (nat * nat)),
    (forall i, In i numbers ->
               renderPage (arrayBuffer (file fileItem)) i = Rendered (url i)) ->
    thumbnail_loop fileItem ids report totalPages numbers pages reported
    = mkRun (reported ++ if report then map (fun i => (i, totalPages)) numbers else [])
            (Pages (pages ++
                    imap (fun k i => mkEditorPage (ids (length pages + k)%nat) (id fileItem)
                                       (Z.of_nat i - 1) 0 (url i)) numbers)).
Proof.
  induction numbers as [|i numbers IH]; intros pages reported Hr.
  - cbn [thumbnail_loop map]. rewrite imap_nil, !app_nil_r.
    now destruct report; rewrite ?app_nil_r.
  - cbn [thumbnail_loop]. rewrite (Hr i) by now left.
    rewrite IH by (intros j Hj; apply Hr; now right).
    rewrite imap_cons, length_app. cbn [length map].
    f_equal.
    + destruct report; [|reflexivity]. now rewrite <- app_assoc.
    + f_equal. rewrite <- app_assoc. cbn [app]. rewrite Nat.add_0_r.
      do 2 f_equal. apply imap_ext. intros k j _. cbn. do 2 f_equal. lia.
Qed.

Lemma rendered_pages_numbered (fid : string) (ids : nat -> string)
    (url : nat -> string) (n : nat) :
  imap (fun k i => mkEditorPage (ids (0 + k)%nat) fid (Z.of_nat i - 1) 0 (url i))
       (seq 1 n)
  = map (fun k => mkEditorPage (ids k) fid (Z.of_nat k) 0 (url (S k))) (seq 0 n).
Proof.
  rewrite (imap_seq_shift
             (fun c i => mkEditorPage (ids c) fid (Z.of_nat i - 1) 0 (url i)) n 0 0).
  apply map_ext. intros k. f_equal; [f_equal|]; lia.
Qed.

(** X19 (thumbnails of a document that renders).  When pdf.js reads [n]
    pages and every page renders, [generatePdfThumbnails] returns [n]
    editor pages in page order: the one at position [k] points at page [k]
    of the file (from 0), with the file's id, no rotation, the [k]-th random
    id and the page's thumbnail; and [onProgress], when given, is called
    with [(1, n)], ..., [(n, n)]. *)
Theorem thumbnails_of_rendered_document (fileItem : FileWithId)
    (ids : nat -> string) (report : bool) (n : nat) (url : nat -> string) :
  getDocument (arrayBuffer (file fileItem)) = Some n ->
  (forall i, (1 <= i <= n)%nat ->
             renderPage (arrayBuffer (file fileItem)) i = Rendered (url i)) ->
  generatePdfThumbnails fileItem ids report
  = mkRun (if report then map (fun i => (i, n)) (seq 1 n) else [])
          (Pages (map (fun k => mkEditorPage (ids k) (id fileItem) (Z.of_nat k) 0
                                  (url (S k)))
                      (seq 0 n))).
Proof.
  intros Hn Hr. unfold generatePdfThumbnails. rewrite Hn.
  rewrite (thumbnail_loop_all_rendered fileItem ids report n url).
  - cbn [app length]. now rewrite rendered_pages_numbered.
  - intros i Hi. apply in_seq in Hi. apply Hr. lia.
Qed.

Lemma thumbnail_loop_pages (fileItem : FileWithId) (ids : nat -> string)
    (report : bool) (totalPages : nat) :
  forall (numbers : list nat) (pages : list EditorPage) (reported : list (nat * nat))
         (ps : list EditorPage),
    thumbnails (thumbnail_loop fileItem ids report totalPages numbers pages reported)
    = Pages ps ->
    exists new,
      ps = pages ++ new /\
      Forall (fun p => fileId p = id fileItem /\ rotation p = 0) new /\
      sublist (map originalPageIndex new) (map (fun i => Z.of_nat i - 1) numbers) /\
      progressCalls
        (thumbnail_loop fileItem ids report totalPages numbers pages reported)
      = reported ++ if report then map (fun i => (i, totalPages)) numbers else [].
Proof.
  induction numbers as [|i numbers IH]; intros pages reported ps H.
  - cbn in H. injection H as <-. exists []. rewrite !app_nil_r.
    split; [reflexivity|]. split; [constructor|]. split; [constructor|].
    cbn. now destruct report; rewrite ?app_nil_r.
  - cbn [thumbnail_loop] in *.
    destruct (renderPage (arrayBuffer (file fileItem)) i) as [| |dataUrl].
    + destruct (IH _ _ _ H) as (new & -> & Hf & Hs & Hc).
      exists new. split; [reflexivity|]. split; [exact Hf|].
      split; [cbn [map]; now apply sublist_cons|].
      rewrite Hc. destruct report; [|reflexivity]. cbn [map].
      now rewrite <- app_assoc.
    + discriminate H.
    + destruct (IH _ _ _ H) as (new & -> & Hf & Hs & Hc).
      eexists (_ :: new). rewrite <- app_assoc. split; [reflexivity|].
      split; [constructor; [now split | exact Hf]|].
      split; [cbn [map originalPageIndex]; now apply sublist_skip|].
      rewrite Hc. destruct report; [|reflexivity]. cbn [map].
      now rewrite <- app_assoc.
Qed.

Lemma shifted_page_numbers (n : nat) :
  map (fun i => Z.of_nat i - 1) (seq 1 n) = map Z.of_nat (seq 0 n).
Proof.
  rewrite <- seq_shift, map_map. apply map_ext. intros k. lia.
Qed.

(** X20 (thumbnails, whatever renders).  When pdf.js reads [n] pages and
    no rendering is rejected, the editor pages that
    [generatePdfThumbnails] returns all carry the file's id and no
    rotation, and their page indices are distinct numbers within [0, n) in
    increasing order: a page for which the canvas gives no 2d context is
    left out without an error.  [onProgress], when given, is still called
    for every page, left out or not. *)
Theorem thumbnails_whatever_renders (fileItem : FileWithId) (ids : nat -> string)
    (report : bool) (n : nat) (ps : list EditorPage) :
  getDocument (arrayBuffer (file fileItem)) = Some n ->
  thumbnails (generatePdfThumbnails fileItem ids report) = Pages ps ->
  Forall (fun p => fileId p = id fileItem /\ rotation p = 0) ps /\
  sublist (map originalPageIndex ps) (map Z.of_nat (seq 0 n)) /\
  progressCalls (generatePdfThumbnails fileItem ids report)
  = if report then map (fun i => (i, n)) (seq 1 n) else [].
Proof.
  intros Hn H. unfold generatePdfThumbnails in *. rewrite Hn in *.
  destruct (thumbnail_loop_pages _ _ _ _ _ _ _ _ H) as (new & -> & Hf & Hs & Hc).
  cbn [app] in *. rewrite shifted_page_numbers in Hs. now rewrite Hc.
Qed.

(** ** From the thumbnails back to a document *)

Lemma sublist_in_range (l : list Z) (n : nat) :
  sublist l (map Z.of_nat (seq 0 n)) ->
  Forall (fun z => exists k, (k < n)%nat /\ z = Z.of_nat k) l.
Proof.
  intros H. apply Forall_forall. intros z Hz.
  apply (sublist_submseteq _ _) in H.
  apply (elem_of_submseteq _ _ _ Hz) in H.
  apply list_elem_of_fmap in H. destruct H as (k & -> & Hk).
  apply elem_of_seq in Hk. exists k. split; [lia | reflexivity].
Qed.

Lemma page_at_nat (d : PDFDocument) (k : nat) :
  page_at d (Z.of_nat k) = pages d !! k.
Proof.
  unfold page_at. destruct (Z.ltb_spec (Z.of_nat k) 0); [lia|].
  now rewrite Nat2Z.id.
Qed.

Lemma uploaded_pages_compilable (fileItem : FileWithId) (ids : nat -> string)
    (report : bool) (sourceFiles : list FileWithId) (d : PDFDocument) (n : nat)
    (ps : list EditorPage) :
  id fileItem ∉ Object_prototype_keys ->
  find_source sourceFiles (id fileItem) = Some fileItem ->
  load (arrayBuffer (file fileItem)) = Some d ->
  Forall (fun src => Z.rem (Rotate src) 90 = 0) (pages d) ->
  getDocument (arrayBuffer (file fileItem)) = Some n ->
  (n <= getPageCount d)%nat ->
  thumbnails (generatePdfThumbnails fileItem ids report) = Pages ps ->
  Forall (compilable sourceFiles) ps.
Proof.
  intros Hid Hfind Hload Hrot Hn Hle Hps.
  unfold generatePdfThumbnails in Hps. rewrite Hn in Hps.
  destruct (thumbnail_loop_pages _ _ _ _ _ _ _ _ Hps) as (new & -> & Hf & Hs & _).
  cbn [app] in *. rewrite shifted_page_numbers in Hs.
  apply sublist_in_range in Hs. rewrite Forall_fmap in Hs.
  apply Forall_forall. intros p Hp.
  rewrite Forall_forall in Hf, Hs.
  destruct (Hf p Hp) as [Hfid Hr]. destruct (Hs p Hp) as (k & Hk & Hidx).
  cbn in Hidx.
  destruct (lookup_lt_is_Some_2 (pages d) k) as [src Hsrc];
    [unfold getPageCount in Hle; lia|].
  unfold compilable. rewrite Hfid, Hr, Hidx.
  split; [exact Hid|]. split; [now left|].
  exists fileItem, d, src. rewrite page_at_nat.
  repeat split; try assumption.
  rewrite Forall_forall in Hrot. apply Hrot.
  now apply list_elem_of_lookup_2 with k.
Qed.

Lemma untouched_pages_compile (sourceFiles : list FileWithId) (fileItem : FileWithId)
    (ids : nat -> string) (url : nat -> string) (d : PDFDocument) :
  id fileItem ∉ Object_prototype_keys ->
  find_source sourceFiles (id fileItem) = Some fileItem ->
  load (arrayBuffer (file fileItem)) = Some d ->
  Forall (fun src => Z.rem (Rotate src) 90 = 0) (pages d) ->
  forall (rest : list PDFPage) (a : nat),
    (forall j src, rest !! j = Some src -> pages d !! (a + j)%nat = Some src) ->
    compile_pages sourceFiles
      (map (fun k => mkEditorPage (ids k) (id fileItem) (Z.of_nat k) 0 (url (S k)))
           (seq a (length rest)))
    = inr rest.
Proof.
  intros Hid Hfind Hload Hrot.
  induction rest as [|src rest IH]; intros a Hat; [reflexivity|].
  cbn [length seq map compile_pages].
  unfold page_fate. cbn [fileId originalPageIndex rotation].
  rewrite bool_decide_eq_false_2 by exact Hid.
  rewrite Hfind, Hload, page_at_nat.
  pose proof (Hat 0%nat src eq_refl) as H0. rewrite Nat.add_0_r in H0. rewrite H0.
  assert (Hm : Z.rem (Rotate src) 90 = 0).
  { rewrite Forall_forall in Hrot. apply Hrot.
    now apply list_elem_of_lookup_2 with a. }
  rewrite Z.add_0_r. apply Z.eqb_eq in Hm. rewrite Hm.
  rewrite (IH (S a)).
  - now destruct src.
  - intros j q Hq. replace (S a + j)%nat with (a + S j)%nat by lia. now apply Hat.
Qed.

(** X21 (thumbnails, then compile, give the source's pages).  For a source
    file that pdf.js and pdf-lib read with the same number of pages, all of
    which render, and whose stored rotations are multiples of 90: the
    editor pages of [generatePdfThumbnails], compiled as they are by
    [buildPdfFromEditor], give a fresh document holding exactly the source's
    pages, in order and with their rotation unchanged, or one blank A4 page
    when the source has no page. *)
Theorem thumbnails_then_compile (fileItem : FileWithId) (ids : nat -> string)
    (report : bool) (sourceFiles : list FileWithId) (d : PDFDocument)
    (url : nat -> string) :
  id fileItem ∉ Object_prototype_keys ->
  find_source sourceFiles (id fileItem) = Some fileItem ->
  load (arrayBuffer (file fileItem)) = Some d ->
  Forall (fun src => Z.rem (Rotate src) 90 = 0) (pages d) ->
  getDocument (arrayBuffer (file fileItem)) = Some (getPageCount d) ->
  (forall i, (1 <= i <= getPageCount d)%nat ->
             renderPage (arrayBuffer (file fileItem)) i = Rendered (url i)) ->
  exists editorPages,
    thumbnails (generatePdfThumbnails fileItem ids report) = Pages editorPages /\
    outcome (buildPdfFromEditor editorPages sourceFiles)
    = Return (save (saved_document (append_pages PDFDocument_create (pages d)))) /\
    pages (saved_document (append_pages PDFDocument_create (pages d)))
    = saved_pages (pages d).
Proof.
  intros Hid Hfind Hload Hrot Hn Hrender.
  eexists. split.
  - unfold generatePdfThumbnails. rewrite Hn.
    rewrite (thumbnail_loop_all_rendered fileItem ids report _ url)
      by (intros i Hi; apply in_seq in Hi; apply Hrender; lia).
    cbn [app length thumbnails]. now rewrite rendered_pages_numbered.
  - split; [|reflexivity]. unfold getPageCount.
    unfold buildPdfFromEditor, editor_document, forEach. rewrite outcome_bind.
    match goal with |- context [forEach_from 0 ?eps _ _] =>
      pose proof (editor_loop_fates sourceFiles eps 0
                    PDFDocument_create ∅ (cache_ok_empty sourceFiles)) as H
    end.
    rewrite (untouched_pages_compile sourceFiles fileItem ids url d
               Hid Hfind Hload Hrot (pages d) 0) in H by (intros j src Hj; exact Hj).
    destruct H as (loadedDocs' & ->). cbn [outcome mret eff_ret snd].
    now rewrite PDFDocument_save_saved.
Qed.

(** X22 (upload, edit, save).  For a supplied source file that parses, whose
    stored rotations are multiples of 90 and in which pdf.js counts no more
    pages than pdf-lib: whatever pages the thumbnail run returns (pages
    without a canvas context are missing), and whatever sequence of
    "Rotate All", rotate, delete and "Clear" follows, [buildPdfFromEditor]
    returns a document: with as many pages as the editor shows when it
    shows any, and with one blank A4 page when it shows none. *)
Theorem upload_edit_save (fileItem : FileWithId) (ids : nat -> string)
    (report : bool) (sourceFiles : list FileWithId) (d : PDFDocument) (n : nat)
    (editorPages : list EditorPage) (actions : list EditorAction) :
  id fileItem ∉ Object_prototype_keys ->
  find_source sourceFiles (id fileItem) = Some fileItem ->
  load (arrayBuffer (file fileItem)) = Some d ->
  Forall (fun src => Z.rem (Rotate src) 90 = 0) (pages d) ->
  getDocument (arrayBuffer (file fileItem)) = Some n ->
  (n <= getPageCount d)%nat ->
  thumbnails (generatePdfThumbnails fileItem ids report) = Pages editorPages ->
  exists out : PDFDocument,
    outcome (buildPdfFromEditor (fold_left editor_action actions editorPages)
                                sourceFiles)
    = Return (save out) /\
    getPageCount out
    = Nat.max 1 (length (fold_left editor_action actions editorPages)) /\
    (fold_left editor_action actions editorPages = [] ->
     pages out = [blank_page 595.28 841.89]).
Proof.
  intros Hid Hfind Hload Hrot Hn Hle Hps.
  pose proof (uploaded_pages_compilable _ _ _ _ _ _ _ Hid Hfind Hload Hrot Hn Hle Hps)
    as H.
  assert (Hf : Forall (compilable sourceFiles)
                 (fold_left editor_action actions editorPages)).
  { clear Hps. revert editorPages H.
    induction actions as [|a actions IH]; intros editorPages H; [exact H|].
    cbn [fold_left]. apply IH. now apply editor_action_compilable. }
  destruct (compilable_pages_compile _ _ Hf) as (ps & Hc & Hl).
  pose proof (editor_loop_fates sourceFiles
                (fold_left editor_action actions editorPages) 0
                PDFDocument_create ∅ (cache_ok_empty sourceFiles)) as Hloop.
  rewrite Hc in Hloop. destruct Hloop as (loadedDocs' & Ho).
  exists (saved_document (append_pages PDFDocument_create ps)). split.
  { unfold buildPdfFromEditor, editor_document, forEach.
    rewrite outcome_bind, Ho. cbn [outcome mret eff_ret snd].
    now rewrite PDFDocument_save_saved. }
  unfold getPageCount, saved_document, append_pages.
  cbn [pages PDFDocument_create app]. split.
  - now rewrite saved_pages_length, Hl.
  - intros Hnil. rewrite Hnil in Hl. now destruct ps.
Qed.

End EditorProperties.

(** * Properties of the file lists and download names *)

Section FrontEndProperties.

(** ** Download names *)

Lemma string_append_assoc (a b c : string) : (a +:+ b) +:+ c = a +:+ (b +:+ c).
Proof.
  induction a as [|x a IH]; [reflexivity|].
  change (String x ((a +:+ b) +:+ c) = String x (a +:+ (b +:+ c))). now rewrite IH.
Qed.

Lemma string_length_append (a b : string) :
  String.length (a +:+ b) = (String.length a + String.length b)%nat.
Proof.
  induction a as [|x a IH]; [reflexivity|].
  change (S (String.length (a +:+ b)) = S (String.length a + String.length b)).
  now rewrite IH.
Qed.

Lemma string_rev_acc_spec (s acc : string) :
  string_rev_acc s acc = string_rev_acc s "" +:+ acc.
Proof.
  revert acc. induction s as [|c s IH]; intros acc; [reflexivity|].
  cbn [string_rev_acc]. rewrite (IH (String c acc)), (IH (String c "")).
  now rewrite string_append_assoc.
Qed.

Lemma string_rev_acc_app (a b acc : string) :
  string_rev_acc (a +:+ b) acc = string_rev_acc b (string_rev_acc a acc).
Proof.
  revert acc. induction a as [|c a IH]; intros acc; [reflexivity|].
  cbn. apply IH.
Qed.

Lemma prefix_append (p s : string) : String.prefix p (p +:+ s) = true.
Proof.
  induction p as [|c p IH]; [now destruct s|].
  change (String.prefix (String c p) (String c (p +:+ s)) = true).
  simpl. destruct (ascii_dec c c); [exact IH | congruence].
Qed.

Lemma endsWith_append (a b : string) : endsWith (a +:+ b) b = true.
Proof.
  unfold endsWith.
  rewrite string_rev_acc_app, (string_rev_acc_spec b (string_rev_acc a "")).
  apply prefix_append.
Qed.

Lemma is_dot_pdf_length (s : string) : is_dot_pdf s = true -> String.length s = 4%nat.
Proof.
  destruct s as [|c0 [|c1 [|c2 [|c3 [|c4 s]]]]]; cbn; try discriminate; reflexivity.
Qed.

Lemma replace_pdf_extension_append (s : string) :
  replace_pdf_extension (s +:+ ".pdf") = s.
Proof.
  induction s as [|c s IH]; [reflexivity|].
  change (replace_pdf_extension (String c (s +:+ ".pdf")) = String c s).
  change (replace_pdf_extension (String c (s +:+ ".pdf")))
    with (if is_dot_pdf (String c (s +:+ ".pdf")) then EmptyString
          else String c (replace_pdf_extension (s +:+ ".pdf"))).
  rewrite IH.
  destruct (is_dot_pdf (String c (s +:+ ".pdf"))) eqn:E; [|reflexivity].
  apply is_dot_pdf_length in E. cbn [String.length] in E.
  rewrite string_length_append in E. cbn in E. lia.
Qed.

(** X23 (the suffix is added once).  [getOutputFilename] applied to one of
    its own results gives that result again, whatever the suffix and the
    name: processing an already processed file does not add the suffix a
    second time, and the extension is not doubled. *)
Theorem getOutputFilename_idempotent (trim : string -> string)
    (filenameSuffix originalName : string) :
  getOutputFilename trim filenameSuffix
    (getOutputFilename trim filenameSuffix originalName)
  = getOutputFilename trim filenameSuffix originalName.
Proof.
  unfold getOutputFilename.
  set (namePart := replace_pdf_extension originalName).
  set (cleanSuffix := trim filenameSuffix).
  destruct (negb (truthy_string cleanSuffix)) eqn:Ht.
  - now rewrite replace_pdf_extension_append.
  - destruct (endsWith namePart ("_" +:+ cleanSuffix) || endsWith namePart cleanSuffix)
      eqn:He.
    + now rewrite replace_pdf_extension_append, He.
    + replace (namePart +:+ "_" +:+ cleanSuffix +:+ ".pdf")
        with ((namePart +:+ "_" +:+ cleanSuffix) +:+ ".pdf")
        by now rewrite !string_append_assoc.
      rewrite replace_pdf_extension_append.
      now rewrite (endsWith_append namePart ("_" +:+ cleanSuffix)).
Qed.

(** ** Reordering *)

Lemma moveFile_down_neighbours {A : Type} (undefined : A) (before after : list A)
    (a b : A) :
  moveFile undefined (before ++ a :: b :: after) (length before) down
  = before ++ b :: a :: after.
Proof.
  unfold moveFile.
  replace (Z.of_nat (length before) + 1) with (Z.of_nat (S (length before))) by lia.
  rewrite Nat2Z.id.
  assert (Hl : length (before ++ a :: b :: after) = (length before + S (S (length after)))%nat)
    by now rewrite length_app.
  rewrite Hl.
  destruct (Z.leb_spec 0 (Z.of_nat (S (length before)))); [|lia].
  destruct (Z.ltb_spec (Z.of_nat (S (length before)))
              (Z.of_nat (length before + S (S (length after))))); [|lia].
  cbn [andb fst snd]. unfold array_get.
  rewrite (lookup_app_r before) by lia.
  rewrite (lookup_app_r before _ (length before)) by lia.
  replace (S (length before) - length before)%nat with 1%nat by lia.
  rewrite Nat.sub_diag. cbn [lookup list_lookup default from_option].
  unfold array_set. rewrite Hl.
  destruct (Nat.ltb_spec (length before) (length before + S (S (length after)))); [|lia].
  rewrite length_insert, Hl.
  destruct (Nat.ltb_spec (S (length before)) (length before + S (S (length after))));
    [|lia].
  rewrite insert_app_r_alt by lia. rewrite Nat.sub_diag. cbn [insert list_insert].
  rewrite insert_app_r_alt by lia.
  replace (S (length before) - length before)%nat with 1%nat by lia.
  reflexivity.
Qed.

Lemma moveFile_up_neighbours {A : Type} (undefined : A) (before after : list A)
    (a b : A) :
  moveFile undefined (before ++ a :: b :: after) (S (length before)) up
  = before ++ b :: a :: after.
Proof.
  unfold moveFile.
  replace (Z.of_nat (S (length before)) - 1) with (Z.of_nat (length before)) by lia.
  rewrite Nat2Z.id.
  assert (Hl : length (before ++ a :: b :: after) = (length before + S (S (length after)))%nat)
    by now rewrite length_app.
  rewrite Hl.
  destruct (Z.leb_spec 0 (Z.of_nat (length before))); [|lia].
  destruct (Z.ltb_spec (Z.of_nat (length before))
              (Z.of_nat (length before + S (S (length after))))); [|lia].
  cbn [andb fst snd]. unfold array_get.
  rewrite (lookup_app_r before) by lia.
  rewrite (lookup_app_r before _ (S (length before))) by lia.
  replace (S (length before) - length before)%nat with 1%nat by lia.
  rewrite Nat.sub_diag. cbn [lookup list_lookup default from_option].
  unfold array_set. rewrite Hl.
  destruct (Nat.ltb_spec (S (length before)) (length before + S (S (length after))));
    [|lia].
  rewrite length_insert, Hl.
  destruct (Nat.ltb_spec (length before) (length before + S (S (length after)))); [|lia].
  rewrite insert_app_r_alt by lia.
  replace (S (length before) - length before)%nat with 1%nat by lia.
  cbn [insert list_insert].
  rewrite insert_app_r_alt by lia. rewrite Nat.sub_diag.
  reflexivity.
Qed.

Lemma neighbours_at {A : Type} (l : list A) (index : nat) :
  (S index < length l)%nat ->
  exists before a b after,
    l = before ++ a :: b :: after /\ length before = index.
Proof.
  intros H.
  destruct (lookup_lt_is_Some_2 l index) as [a Ha]; [lia|].
  destruct (lookup_lt_is_Some_2 l (S index)) as [b Hb]; [lia|].
  exists (take index l), a, b, (drop (S (S index)) l). split.
  - rewrite <- (take_drop index l) at 1. f_equal.
    rewrite (drop_S _ _ _ Ha). f_equal. now rewrite (drop_S _ _ _ Hb).
  - rewrite length_take. lia.
Qed.

Lemma moveFile_at_the_ends {A : Type} (undefined : A) (l : list A) :
  moveFile undefined l 0 up = l /\
  moveFile undefined l (length l - 1) down = l.
Proof.
  split; unfold moveFile.
  - reflexivity.
  - destruct (Z.ltb_spec (Z.of_nat (length l - 1) + 1) (Z.of_nat (length l)));
      [lia|]. now rewrite andb_false_r.
Qed.

(** X24 (reordering loses no file).  For an index of the list, [moveFile]
    leaves the content files a permutation of what they were, in either
    direction: no file is lost, duplicated or replaced by [undefined]. *)
Theorem moveFile_permutes {A : Type} (undefined : A) (contentFiles : list A)
    (index : nat) (direction : Direction) :
  (index < length contentFiles)%nat ->
  moveFile undefined contentFiles index direction ≡ₚ contentFiles.
Proof.
  intros H. destruct direction.
  - destruct index as [|k]; [now rewrite (proj1 (moveFile_at_the_ends _ _))|].
    destruct (neighbours_at contentFiles k H) as (before & a & b & after & -> & <-).
    rewrite moveFile_up_neighbours.
    apply Permutation_app_head, perm_swap.
  - destruct (Nat.eq_dec (S index) (length contentFiles)) as [E|E].
    + replace index with (length contentFiles - 1)%nat by lia.
      now rewrite (proj2 (moveFile_at_the_ends _ _)).
    + destruct (neighbours_at contentFiles index ltac:(lia))
        as (before & a & b & after & -> & <-).
      rewrite moveFile_down_neighbours.
      apply Permutation_app_head, perm_swap.
Qed.

(** X25 (a move can be taken back).  Moving a file down and then moving it
    up from its new place restores the list; so does moving it up and then
    down. *)
Theorem moveFile_there_and_back {A : Type} (undefined : A) (contentFiles : list A)
    (index : nat) :
  (S index < length contentFiles)%nat ->
  moveFile undefined (moveFile undefined contentFiles index down) (S index) up
  = contentFiles /\
  moveFile undefined (moveFile undefined contentFiles (S index) up) index down
  = contentFiles.
Proof.
  intros H.
  destruct (neighbours_at contentFiles index H) as (before & a & b & after & -> & <-).
  rewrite moveFile_down_neighbours, moveFile_up_neighbours.
  now rewrite moveFile_up_neighbours, moveFile_down_neighbours.
Qed.

End FrontEndProperties.

(** * The further properties on the sample inputs *)

(** X1 with a broken last file. *)
Lemma merge_fails_as_a_whole_witness :
  outcome (mergeAndWatermarkPdfs (platform := sample_platform)
             (Some cover_2) [content_3; broken_file] None None false)
  = Throw (JsError "Failed to process PDFs. Ensure files are valid.") /\
  last (trace (mergeAndWatermarkPdfs (platform := sample_platform)
                 (Some cover_2) [content_3; broken_file] None None false))
  = Some (EvError "Merge error").
Proof.
  apply (merge_fails_as_a_whole (platform := sample_platform)
           (Some cover_2) [content_3; broken_file] None None false).
  exists broken_file. split; [right; right; left; reflexivity | reflexivity].
Defined.

(** X3 on a cover and two content files. *)
Lemma merge_progress_reports_witness :
  progress_of (trace (mergeAndWatermarkPdfs (platform := sample_platform)
                        (Some cover_2) [content_3; content_1] None None false))
  = [5; 15; content_progress 2 0; content_progress 2 1; 95; 100]%float.
Proof.
  pose proof (merge_progress_reports (platform := sample_platform)
                (Some cover_2) (Some (sample_doc "AB")) [content_3; content_1]
                [sample_doc "abc"; sample_doc "d"] None None false
                eq_refl ltac:(repeat constructor)) as H.
  rewrite sample_files_accepted in H. exact H.
Defined.

(** X4 with the synthesized cover, whose logo does not decode. *)
Lemma merge_parses_each_file_once_witness :
  loads_of (trace (mergeAndWatermarkPdfs (platform := sample_platform)
                     None [content_3; content_1] None (Some gif_logo) true))
  = [pdf_bytes "abc"; pdf_bytes "d"].
Proof.
  pose proof (merge_parses_each_file_once (platform := sample_platform)
                None None [content_3; content_1]
                [sample_doc "abc"; sample_doc "d"] None (Some gif_logo) true
                I ltac:(repeat constructor)) as H.
  rewrite sample_files_accepted in H. exact H.
Defined.

(** X5: a text opacity that is not a number makes the engine throw a
    type error; and so does a page whose width is not a number, even with
    a text opacity of 1.5, the font being asked first. *)
Example watermark_not_a_number_run :
  applyWatermarkToPage (platform := sample_platform) (sample_page x61) HelveticaBold
    (stamps_config true (0 / 0)) None
  = throw TypeError /\
  applyWatermarkToPage (platform := sample_platform)
    (mkPage (0 / 0) 841.89 0 "a" []) HelveticaBold (stamps_config true 1.5) None
  = throw TypeError.
Proof. split; vm_compute; reflexivity. Qed.

(** X6: a text opacity of 7 goes unnoticed with no stamp enabled; with the
    stamps on, one of 1.5 fails pdf-lib's assertion and one that is not a
    number is a type error. *)
Lemma engine_checks_what_it_draws_witness :
  applyWatermarkToPage (platform := sample_platform) (sample_page x61) HelveticaBold
    (stamps_config false 7) None
  = mret (sample_page x61) /\
  applyWatermarkToPage (platform := sample_platform) (sample_page x61)
    HelveticaBold (stamps_config true 1.5) None
  = throw AssertionFailure /\
  applyWatermarkToPage (platform := sample_platform) (sample_page x61)
    HelveticaBold (stamps_config true (0 / 0)) None
  = throw TypeError.
Proof.
  split; [|split].
  - apply (proj1 (engine_checks_what_it_draws (platform := sample_platform)
                    (sample_page x61) HelveticaBold (stamps_config false 7) None));
      reflexivity.
  - apply (proj2 (engine_checks_what_it_draws (platform := sample_platform)
                    (sample_page x61) HelveticaBold (stamps_config true 1.5) None)
             AssertionFailure); reflexivity.
  - apply (proj2 (engine_checks_what_it_draws (platform := sample_platform)
                    (sample_page x61) HelveticaBold (stamps_config true (0 / 0)) None)
             TypeError); reflexivity.
Defined.



(** X8 with a logo of width 0 and with a text opacity of 1.5: the batch
    run throws what pdf-lib throws. *)
Example batch_rejected_runs :
  processBatchFile (platform := sample_platform) content_1 None
    (all_stamps_config (Some flat_logo)) None
  = ([EvLoad (pdf_bytes "d")], Throw TypeError) /\
  processBatchFile (platform := sample_platform) content_1 None overdone_config None
  = ([EvLoad (pdf_bytes "d")], Throw AssertionFailure).
Proof. split; vm_compute; reflexivity. Qed.

Lemma sample_logo_accepted :
  forallb (fun p => accepted
                      (spec_watermark_calls (platform := sample_platform) p
                         HelveticaBold (all_stamps_config (Some jpeg_logo))
                         (Some (mkImage 200 100))))
          (pages (sample_doc "d"))
  = true.
Proof. vm_compute. reflexivity. Qed.

(** X9 with a logo named [LOGO.JPEG]: the batch mode draws it, the
    synthesized cover warns and draws no image. *)
Lemma logo_decoders_disagree_witness :
  batch_logo (platform := sample_platform) (all_stamps_config (Some jpeg_logo))
  = Some (mkImage 200 100) /\
  (exists out : PDFDocument,
     processBatchFile (platform := sample_platform) content_1 None
       (all_stamps_config (Some jpeg_logo)) None
     = ([EvLoad (pdf_bytes "d")], Return (sample_save out)) /\
     pages out
     = saved_pages
         (map (fun p => record_calls p
                          (spec_watermark_calls (platform := sample_platform) p
                             HelveticaBold (all_stamps_config (Some jpeg_logo))
                             (Some (mkImage 200 100))))
              (pages (sample_doc "d")))) /\
  exists page : PDFPage,
    generateDefaultCoverPage (platform := sample_platform) PDFDocument_create
      (Some jpeg_logo)
    = ([EvWarn "Failed to embed logo for default cover"],
       Return (addPage PDFDocument_create page)) /\
    List.filter is_image_call (calls page) = [].
Proof.
  pose proof (logo_decoders_disagree (platform := sample_platform) content_1
                (sample_doc "d") PDFDocument_create
                (all_stamps_config (Some jpeg_logo)) jpeg_logo (mkImage 200 100)
                eq_refl eq_refl eq_refl eq_refl eq_refl eq_refl eq_refl) as H.
  rewrite sample_logo_accepted in H. exact H.
Defined.

(** X10 on two buffers, and on none: one blank page. *)
Lemma combine_any_number_witness :
  (exists out : PDFDocument,
     mergeProcessedFiles (platform := sample_platform)
       [pdf_bytes "ab"; pdf_bytes "c"]
     = ([EvLoad (pdf_bytes "ab"); EvLoad (pdf_bytes "c")],
        Return (sample_save out)) /\
     pages out = saved_pages (pages (sample_doc "ab") ++ pages (sample_doc "c")) /\
     (pages (sample_doc "ab") ++ pages (sample_doc "c") = [] ->
      pages out = [blank_page 595.28 841.89]) /\
     Title out = None /\ Author out = None /\
     Creator out = Some "VTU Notes Merging System" /\
     Producer out = Some "pdf-lib (https://github.com/Hopding/pdf-lib)") /\
  (exists out : PDFDocument,
     mergeProcessedFiles (platform := sample_platform) []
     = ([], Return (sample_save out)) /\
     pages out = [blank_page 595.28 841.89] /\
     (@nil PDFPage = [] -> pages out = [blank_page 595.28 841.89]) /\
     Title out = None /\ Author out = None /\
     Creator out = Some "VTU Notes Merging System" /\
     Producer out = Some "pdf-lib (https://github.com/Hopding/pdf-lib)").
Proof.
  split.
  - apply (combine_any_number (platform := sample_platform)
             [pdf_bytes "ab"; pdf_bytes "c"] [sample_doc "ab"; sample_doc "c"]).
    repeat constructor.
  - apply (combine_any_number (platform := sample_platform) [] []).
    constructor.
Defined.

(** X11: the buffer after the broken one is never parsed. *)
Lemma combine_stops_at_bad_buffer_witness :
  mergeProcessedFiles (platform := sample_platform)
    [pdf_bytes "ab"; arrayBuffer broken_file; pdf_bytes "c"]
  = ([EvLoad (pdf_bytes "ab"); EvLoad (arrayBuffer broken_file)], Throw LoadFailure).
Proof.
  apply (combine_stops_at_bad_buffer (platform := sample_platform)
           [pdf_bytes "ab"] [sample_doc "ab"] (arrayBuffer broken_file)
           [pdf_bytes "c"]).
  - repeat constructor.
  - reflexivity.
Defined.

Lemma sample_file_accepted :
  strict_accepted (platform := sample_platform) [sample_doc "d"] = true.
Proof. vm_compute. reflexivity. Qed.

(** X12 with an author and no title, and with no metadata at all. *)
Lemma merge_metadata_witness :
  (exists out : PDFDocument,
     outcome (mergeAndWatermarkPdfs (platform := sample_platform)
                None [content_1] (Some (mkPdfMetadata "" "A. Author")) None false)
     = Return (sample_save out) /\
     Title out = None /\
     Author out = Some "A. Author" /\
     Creator out = Some "VTU Notes Merging System" /\
     Producer out = Some "pdf-lib (https://github.com/Hopding/pdf-lib)" /\
     (Some (mkPdfMetadata "" "A. Author") = None ->
      Title out = None /\ Author out = None /\
      Creator out = Some "pdf-lib (https://github.com/Hopding/pdf-lib)")) /\
  (exists out : PDFDocument,
     outcome (mergeAndWatermarkPdfs (platform := sample_platform)
                None [content_1] None None false)
     = Return (sample_save out) /\
     Title out = None /\
     Author out = None /\
     Creator out = Some "pdf-lib (https://github.com/Hopding/pdf-lib)" /\
     Producer out = Some "pdf-lib (https://github.com/Hopding/pdf-lib)" /\
     (@None PdfMetadata = None ->
      Title out = None /\ Author out = None /\
      Creator out = Some "pdf-lib (https://github.com/Hopding/pdf-lib)")).
Proof.
  pose proof (merge_metadata (platform := sample_platform) None None [content_1]
                [sample_doc "d"] (Some (mkPdfMetadata "" "A. Author")) None false
                I ltac:(repeat constructor)) as H1.
  pose proof (merge_metadata (platform := sample_platform) None None [content_1]
                [sample_doc "d"] None None false
                I ltac:(repeat constructor)) as H2.
  rewrite sample_file_accepted in H1, H2. exact (conj H1 H2).
Defined.

(** X14 on an orange. *)
Lemma hexToRgb_hash_and_case_witness :
  hexToRgb "#FFAA00" = hexToRgb "FFAA00" /\
  hexToRgb "ffaa00" = hexToRgb "FFAA00".
Proof.
  split.
  - apply (proj1 (hexToRgb_hash_and_case "FFAA00")). reflexivity.
  - exact (proj2 (hexToRgb_hash_and_case "FFAA00")).
Defined.

(** X16: a source file whose id is [constructor] is supplied, to no avail. *)
Lemma editor_inherited_id_fails_witness :
  outcome (buildPdfFromEditor (platform := sample_platform)
             [page_of_f1 0 0; mkEditorPage "r" "constructor" 0 0 ""; page_of_f1 1 0]
             [editor_source; mkFileWithId "constructor" content_1])
  = Throw TypeError.
Proof.
  apply (editor_inherited_id_fails (platform := sample_platform)
           [page_of_f1 0 0] [page_of_f1 1 0] (mkEditorPage "r" "constructor" 0 0 "")
           [editor_source; mkFileWithId "constructor" content_1]
           [sample_page x61]).
  - reflexivity.
  - apply (bool_decide_unpack (_ ∈ _)). reflexivity.
Defined.

(** X17 on two rotated pages. *)
Lemma rotate_all_four_times_witness :
  rotate_all_pages (rotate_all_pages (rotate_all_pages (rotate_all_pages
    [page_of_f1 0 90; page_of_f1 1 270])))
  = [page_of_f1 0 90; page_of_f1 1 270].
Proof.
  apply (rotate_all_four_times [page_of_f1 0 90; page_of_f1 1 270]).
  repeat constructor; cbn; lia.
Defined.

Lemma compilable_page_of_f1 (index delta : Z) (src : PDFPage) :
  (delta = 0 \/ delta = 90 \/ delta = 180 \/ delta = 270) ->
  page_at (sample_doc "abcd") index = Some src ->
  Z.rem (Rotate src) 90 = 0 ->
  compilable (platform := sample_platform) [editor_source] (page_of_f1 index delta).
Proof.
  intros Hd Hs Hr. split; [exact f1_not_inherited|]. split; [exact Hd|].
  exists editor_source, (sample_doc "abcd"), src. repeat split; assumption.
Defined.

Lemma compilable_sample_pages :
  Forall (compilable (platform := sample_platform) [editor_source])
         [page_of_f1 0 0; page_of_f1 2 90].
Proof.
  constructor; [|constructor; [|constructor]].
  - apply (compilable_page_of_f1 0 0 (sample_page x61)); [now left | reflexivity..].
  - apply (compilable_page_of_f1 2 90 (sample_page x63));
      [now right; left | reflexivity..].
Defined.

(** X18 on two pages of the four-page source, one of them stored with a
    rotation of 270: all rotated, one rotated again, one deleted; and the
    same pages cleared, which compile to one blank page. *)
Lemma editor_session_compiles_witness :
  (exists out : PDFDocument,
     outcome (buildPdfFromEditor (platform := sample_platform)
                (fold_left editor_action [RotateAll; RotatePage "p"; RemovePage "x"]
                   [page_of_f1 0 0; page_of_f1 2 90])
                [editor_source])
     = Return (sample_save out) /\
     getPageCount out = 2%nat /\
     (fold_left editor_action [RotateAll; RotatePage "p"; RemovePage "x"]
        [page_of_f1 0 0; page_of_f1 2 90] = [] ->
      pages out = [blank_page 595.28 841.89])) /\
  (exists out : PDFDocument,
     outcome (buildPdfFromEditor (platform := sample_platform)
                (fold_left editor_action [RotateAll; Clear]
                   [page_of_f1 0 0; page_of_f1 2 90])
                [editor_source])
     = Return (sample_save out) /\
     getPageCount out = 1%nat /\
     (fold_left editor_action [RotateAll; Clear]
        [page_of_f1 0 0; page_of_f1 2 90] = [] ->
      pages out = [blank_page 595.28 841.89])).
Proof.
  split.
  - exact (editor_session_compiles (platform := sample_platform) [editor_source]
             [page_of_f1 0 0; page_of_f1 2 90]
             [RotateAll; RotatePage "p"; RemovePage "x"] compilable_sample_pages).
  - exact (editor_session_compiles (platform := sample_platform) [editor_source]
             [page_of_f1 0 0; page_of_f1 2 90]
             [RotateAll; Clear] compilable_sample_pages).
Defined.

Lemma sample_pages_render (labels : string) (i : nat) :
  forallb (fun b => negb (Byte.eqb b x3f || Byte.eqb b x21))
          (list_byte_of_string labels) = true ->
  (1 <= i <= String.length labels)%nat ->
  sample_renderPage (pdf_bytes labels) i = Rendered (sample_url (pdf_bytes labels) i).
Proof.
  intros Hl Hi. unfold sample_url, sample_renderPage, pdf_bytes.
  change (list_byte_of_string ("%PDF" +:+ labels))
    with ([x25; x50; x44; x46] ++ list_byte_of_string labels).
  destruct i as [|i]; [lia|].
  change (([x25; x50; x44; x46] ++ list_byte_of_string labels) !! (3 + S i)%nat)
    with (list_byte_of_string labels !! i).
  destruct (list_byte_of_string labels !! i) as [b|] eqn:E.
  - rewrite forallb_forall in Hl.
    assert (Hb : negb (Byte.eqb b x3f || Byte.eqb b x21) = true).
    { apply Hl. apply list_elem_of_In. now apply list_elem_of_lookup_2 with i. }
    destruct b; try reflexivity; discriminate Hb.
  - apply lookup_ge_None in E.
    assert (length (list_byte_of_string labels) = String.length labels) as Hlen.
    { clear. unfold list_byte_of_string. rewrite length_map.
      induction labels as [|c r IH]; [reflexivity|].
      cbn [list_ascii_of_string length String.length]. now rewrite IH. }
    lia.
Qed.

(** X19 on the four-page source, with a progress callback. *)
Lemma thumbnails_of_rendered_document_witness :
  generatePdfThumbnails (viewer := sample_viewer) editor_source sample_ids true
  = mkRun [(1, 4); (2, 4); (3, 4); (4, 4)]%nat
          (Pages [mkEditorPage "a" "f1" 0 0 "data:image/png,a";
                  mkEditorPage "b" "f1" 1 0 "data:image/png,b";
                  mkEditorPage "c" "f1" 2 0 "data:image/png,c";
                  mkEditorPage "d" "f1" 3 0 "data:image/png,d"]).
Proof.
  apply (thumbnails_of_rendered_document (viewer := sample_viewer) editor_source
           sample_ids true 4 (sample_url (pdf_bytes "abcd"))).
  - reflexivity.
  - intros i Hi. apply sample_pages_render; [reflexivity | exact Hi].
Defined.

(** X20 on the scan whose second page gets no canvas context. *)
Lemma thumbnails_whatever_renders_witness :
  Forall (fun p => fileId p = "f2" /\ rotation p = 0)
         [mkEditorPage "a" "f2" 0 0 "data:image/png,a";
          mkEditorPage "b" "f2" 2 0 "data:image/png,c"] /\
  sublist [0; 2] [0; 1; 2] /\
  progressCalls (generatePdfThumbnails (viewer := sample_viewer) scan_source
                   sample_ids true)
  = [(1, 3); (2, 3); (3, 3)]%nat.
Proof.
  apply (thumbnails_whatever_renders (viewer := sample_viewer) scan_source
           sample_ids true 3
           [mkEditorPage "a" "f2" 0 0 "data:image/png,a";
            mkEditorPage "b" "f2" 2 0 "data:image/png,c"]);
    reflexivity.
Defined.

(** X21 on the four-page source. *)
Lemma thumbnails_then_compile_witness :
  exists editorPages,
    thumbnails (generatePdfThumbnails (viewer := sample_viewer) editor_source
                  sample_ids false)
    = Pages editorPages /\
    outcome (buildPdfFromEditor (platform := sample_platform) editorPages
               [editor_source])
    = Return (sample_save
                (saved_document (append_pages PDFDocument_create
                                   (pages (sample_doc "abcd"))))) /\
    pages (saved_document (append_pages PDFDocument_create
                             (pages (sample_doc "abcd"))))
    = saved_pages (pages (sample_doc "abcd")).
Proof.
  apply (thumbnails_then_compile (platform := sample_platform)
           (viewer := sample_viewer) editor_source sample_ids false
           [editor_source] (sample_doc "abcd") (sample_url (pdf_bytes "abcd"))).
  - exact f1_not_inherited.
  - reflexivity.
  - reflexivity.
  - repeat constructor.
  - reflexivity.
  - intros i Hi. apply sample_pages_render; [reflexivity | exact Hi].
Defined.

Lemma f2_not_inherited : "f2" ∉ Object_prototype_keys.
Proof. apply (bool_decide_unpack (_ ∉ _)). reflexivity. Qed.

(** X22 on the scan: two thumbnails, rotated, one of them deleted. *)
Lemma upload_edit_save_witness :
  exists out : PDFDocument,
    outcome (buildPdfFromEditor (platform := sample_platform)
               (fold_left editor_action [RotateAll; RemovePage "a"]
                  [mkEditorPage "a" "f2" 0 0 "data:image/png,a";
                   mkEditorPage "b" "f2" 2 0 "data:image/png,c"])
               [editor_source; scan_source])
    = Return (sample_save out) /\
    getPageCount out = 1%nat /\
    (fold_left editor_action [RotateAll; RemovePage "a"]
       [mkEditorPage "a" "f2" 0 0 "data:image/png,a";
        mkEditorPage "b" "f2" 2 0 "data:image/png,c"] = [] ->
     pages out = [blank_page 595.28 841.89]).
Proof.
  apply (upload_edit_save (platform := sample_platform) (viewer := sample_viewer)
           scan_source sample_ids false [editor_source; scan_source]
           (sample_doc "a?c") 3
           [mkEditorPage "a" "f2" 0 0 "data:image/png,a";
            mkEditorPage "b" "f2" 2 0 "data:image/png,c"]
           [RotateAll; RemovePage "a"]).
  - exact f2_not_inherited.
  - reflexivity.
  - reflexivity.
  - repeat constructor.
  - reflexivity.
  - cbn. lia.
  - reflexivity.
Defined.

(** X24 on three file names. *)
Lemma moveFile_permutes_witness :
  moveFile "" ["a.pdf"; "b.pdf"; "c.pdf"] 1 up ≡ₚ ["a.pdf"; "b.pdf"; "c.pdf"].
Proof.
  apply (moveFile_permutes "" ["a.pdf"; "b.pdf"; "c.pdf"] 1 up). cbn. lia.
Defined.

(** X25 on the same names. *)
Lemma moveFile_there_and_back_witness :
  moveFile "" (moveFile "" ["a.pdf"; "b.pdf"; "c.pdf"] 1 down) 2 up
  = ["a.pdf"; "b.pdf"; "c.pdf"] /\
  moveFile "" (moveFile "" ["a.pdf"; "b.pdf"; "c.pdf"] 2 up) 1 down
  = ["a.pdf"; "b.pdf"; "c.pdf"].
Proof.
  apply (moveFile_there_and_back "" ["a.pdf"; "b.pdf"; "c.pdf"] 1). cbn. lia.
Defined.
